(** * TwoTable: the venue suggestion pipeline

    A shallow embedding of the matching core of the TwoTable backend
    ([app/services/matcher.py], [app/services/routing.py],
    [app/services/venue_embeddings.py], [app/services/embeddings.py],
    [app/services/cache.py], the pre-filter of [app/api/v1/venues.py], the
    request schema of [app/schemas/suggest.py] and the endpoint of
    [app/api/v1/suggest.py]), followed by the properties of the pipeline.

    Conventions of the embedding.
    - Python [int] is [Z]; Python [float] is idealised as an exact rational
      [Q] (no rounding error, no NaN, no infinities).
    - [dict] is [gmap], [set] is [gset], [list] is [list].
    - Code that talks to a collaborator (database session, Redis, the
      routing provider, the embedding provider, the logger, the clock) lives
      in the monad [M]: a state monad over [World] whose results are either a
      value or a raised Python exception.
    - What the collaborators answer is not part of the repository: it is
      collected in the record [Env] and every definition is parametric in
      it. *)

From Stdlib Require Import Ascii String QArith Qround Lqa.
From stdpp Require Import base gmap sets list strings sorting.

Local Open Scope Z_scope.
Set Warnings "-register-all".

(** ** Python values and builtins *)

Inductive exn :=
| ValueError (msg : string)
| TypeError
| KeyError
| IndexError
| JSONDecodeError
| TransportError
| MultipleResultsFound
| DBAPIError
| ProviderError.

Inductive result (A : Type) :=
| Ok (a : A)
| Raise (e : exn).
Arguments Ok {A} a.
Arguments Raise {A} e.

(** [x // 1] on an exact number. *)
Definition frac_part (x : Q) : Q := (x - inject_Z (Qfloor x))%Q.

(** Round to the nearest integer, ties to even: what [round] does on a
    number that is exactly representable. *)
Definition round_half_even (x : Q) : Z :=
  let f := Qfloor x in
  match Qcompare (frac_part x) (1 # 2) with
  | Lt => f
  | Gt => f + 1
  | Eq => if Z.even f then f else f + 1
  end.

(** [round(x, ndigits)] for a float [x]. *)
Definition py_round (x : Q) (ndigits : nat) : Q :=
  let scale := inject_Z (10 ^ Z.of_nat ndigits) in
  (inject_Z (round_half_even (x * scale)) / scale)%Q.

(** [l[:n]]: a negative bound counts from the end. *)
Definition py_slice_to {A} (l : list A) (n : Z) : list A :=
  if n <? 0 then take (Z.to_nat (Z.of_nat (length l) + n)) l
  else take (Z.to_nat n) l.

(** [str.lower()] on ASCII text. *)
Definition lower_ascii (c : ascii) : ascii :=
  let n := nat_of_ascii c in
  if (65 <=? n)%nat && (n <=? 90)%nat then ascii_of_nat (n + 32) else c.

Fixpoint py_lower (s : string) : string :=
  match s with
  | EmptyString => EmptyString
  | String c s' => String (lower_ascii c) (py_lower s')
  end.

(** [s[:n]] on a string, [n >= 0]. *)
Fixpoint str_take (n : nat) (s : string) : string :=
  match n, s with
  | S n', String c s' => String c (str_take n' s')
  | _, _ => EmptyString
  end.

(** Decimal digits of a non-negative integer, most significant first. *)
Fixpoint digits_go (fuel : nat) (n : Z) (acc : string) : string :=
  match fuel with
  | O => acc
  | S fuel' =>
      let acc' := String (ascii_of_nat (48 + Z.to_nat (n mod 10))) acc in
      if n / 10 =? 0 then acc' else digits_go fuel' (n / 10) acc'
  end.

Definition digits (n : Z) : string :=
  digits_go (S (Z.to_nat (Z.log2 n))) n EmptyString.

(** [str(n)] for an [int]. *)
Definition str_int (n : Z) : string :=
  if n <? 0 then String "-" (digits (- n)) else digits n.

Fixpoint zeros (k : nat) : string :=
  match k with
  | O => EmptyString
  | S k' => String "0" (zeros k')
  end.

(** ["%0{w}d" % n] for [n >= 0]. *)
Definition zero_pad (w : nat) (n : Z) : string :=
  let d := digits n in
  zeros (w - String.length d) +:+ d.

(** A value of [x or 0] followed by [round(_, 3)]: either the [int] zero
    or a float. *)
Inductive py_num :=
| PyInt (n : Z)
| PyFloat (x : Q).

(** ** Dates and times ([datetime.date], [datetime.time]) *)

Record date_type := mk_date { year : Z; month : Z; day : Z }.
Record time_type := mk_time { hour : Z; minute : Z; second : Z; microsecond : Z }.

Definition _is_leap (y : Z) : bool :=
  (y mod 4 =? 0) && (negb (y mod 100 =? 0) || (y mod 400 =? 0)).

Definition _days_before_year (y : Z) : Z :=
  let y1 := y - 1 in
  y1 * 365 + y1 / 4 - y1 / 100 + y1 / 400.

Definition _DAYS_BEFORE_MONTH : list Z :=
  [0; 0; 31; 59; 90; 120; 151; 181; 212; 243; 273; 304; 334].

Definition _days_before_month (y m : Z) : Z :=
  default 0 (_DAYS_BEFORE_MONTH !! Z.to_nat m)
  + (if (2 <? m) && _is_leap y then 1 else 0).

(** [date.toordinal()]: 0001-01-01 is day 1. *)
Definition toordinal (d : date_type) : Z :=
  _days_before_year (year d) + _days_before_month (year d) (month d) + day d.

(** [datetime.combine(d, t).weekday()]: Monday is 0. *)
Definition weekday_of (d : date_type) : Z := (toordinal d + 6) mod 7.

(** Chronological comparison of dates, as SQL and Python do it. *)
Definition date_le (a b : date_type) : bool := toordinal a <=? toordinal b.

Definition time_micros (t : time_type) : Z :=
  ((hour t * 60 + minute t) * 60 + second t) * 1000000 + microsecond t.

Definition time_le (a b : time_type) : bool := time_micros a <=? time_micros b.
Definition time_lt (a b : time_type) : bool := time_micros a <? time_micros b.

(** [str(d)] is the ISO form YYYY-MM-DD. *)
Definition str_date (d : date_type) : string :=
  zero_pad 4 (year d) +:+ "-" +:+ zero_pad 2 (month d) +:+ "-" +:+ zero_pad 2 (day d).

(** [str(t)] is HH:MM:SS, with the microseconds when there are any. *)
Definition str_time (t : time_type) : string :=
  zero_pad 2 (hour t) +:+ ":" +:+ zero_pad 2 (minute t) +:+ ":" +:+ zero_pad 2 (second t)
  +:+ (if microsecond t =? 0 then "" else "." +:+ zero_pad 6 (microsecond t)).

(** ** JSON documents, as [json.loads] returns them *)

Inductive json :=
| JNull
| JBool (b : bool)
| JNum (x : Q)
| JStr (s : string)
| JArr (items : list json)
| JObj (fields : list (string * json)).

Fixpoint assoc_get {A} (k : string) (kvs : list (string * A)) : option A :=
  match kvs with
  | [] => None
  | (k', v) :: rest => if String.eqb k k' then Some v else assoc_get k rest
  end.

(** [value[key]] with a string key. *)
Definition getitem_str (value : json) (key : string) : result json :=
  match value with
  | JObj fields =>
      match assoc_get key fields with
      | Some v => Ok v
      | None => Raise KeyError
      end
  | _ => Raise TypeError
  end.

(** [value[0]]. The keys of a JSON object are strings, so [0] is never one
    of them. *)
Definition getitem_0 (value : json) : result json :=
  match value with
  | JArr (x :: _) => Ok x
  | JArr [] => Raise IndexError
  | JObj _ => Raise KeyError
  | JStr (String c _) => Ok (JStr (String c EmptyString))
  | JStr EmptyString => Raise IndexError
  | _ => Raise TypeError
  end.

(** [value / 60]. *)
Definition truediv_60 (value : json) : result Q :=
  match value with
  | JNum x => Ok (x / 60)%Q
  | JBool b => Ok ((if b then 1 else 0) / 60)%Q
  | _ => Raise TypeError
  end.

(** ** Configuration ([app/core/config.py]) *)

Record Settings := {
  ROUTING_PROVIDER : string;
  ROUTING_API_KEY : string;
  TRAVEL_TIME_CACHE_TTL_HOURS : Z;
  EMBEDDING_PROVIDER : string;
  EMBEDDING_MODEL : string;
}.

(** ** Request and response schema ([app/schemas/suggest.py]) *)

Inductive RelationshipStage := first_date | second_third | together.
Inductive Mood := romantic | cosy | buzzy | adventurous | chill.
Inductive EnergyLevel := low | medium | high.
Inductive BudgetBand := budget | mid | premium | luxury.
Inductive TravelMode := drive | walk | transit.

Definition stage_value (s : RelationshipStage) : string :=
  match s with
  | first_date => "first_date"
  | second_third => "second_third"
  | together => "together"
  end.

Definition mood_value (m : Mood) : string :=
  match m with
  | romantic => "romantic"
  | cosy => "cosy"
  | buzzy => "buzzy"
  | adventurous => "adventurous"
  | chill => "chill"
  end.

Definition energy_value (e : EnergyLevel) : string :=
  match e with
  | low => "low"
  | medium => "medium"
  | high => "high"
  end.

Definition budget_value (b : BudgetBand) : string :=
  match b with
  | budget => "budget"
  | mid => "mid"
  | premium => "premium"
  | luxury => "luxury"
  end.

Definition travel_mode_value (m : TravelMode) : string :=
  match m with
  | drive => "drive"
  | walk => "walk"
  | transit => "transit"
  end.

Record SuggestRequest := {
  city : string;
  origin_lat : option Q;
  origin_lng : option Q;
  travel_mode : TravelMode;
  max_travel_minutes : Z;
  date : date_type;
  time : time_type;
  stage : RelationshipStage;
  mood : Mood;
  energy : EnergyLevel;
  budget_band : BudgetBand;
  free_text : option string;
  top_n : Z;
  session_id : option string;
}.

(** The body of a request before validation: a field that has a default
    may be missing. *)
Record SuggestPayload := {
  p_city : string;
  p_origin_lat : option Q;
  p_origin_lng : option Q;
  p_travel_mode : option TravelMode;
  p_max_travel_minutes : option Z;
  p_date : date_type;
  p_time : time_type;
  p_stage : option RelationshipStage;
  p_mood : option Mood;
  p_energy : option EnergyLevel;
  p_budget : option BudgetBand;
  p_free_text : option string;
  p_top_n : option Z;
  p_session_id : option string;
}.

(** Validation of the model [SuggestRequest]: defaults are filled in and
    the [Field] bounds are checked; [None] is a rejected request. *)
Definition validate_SuggestRequest (p : SuggestPayload) : option SuggestRequest :=
  let n := default 3 (p_top_n p) in
  let m := default 45 (p_max_travel_minutes p) in
  let text_ok :=
    match p_free_text p with
    | Some t => (String.length t <=? 300)%nat
    | None => true
    end in
  if (5 <=? m) && (m <=? 45) && (1 <=? n) && (n <=? 10) && text_ok then
    Some {| city := p_city p;
            origin_lat := p_origin_lat p;
            origin_lng := p_origin_lng p;
            travel_mode := default drive (p_travel_mode p);
            max_travel_minutes := m;
            date := p_date p;
            time := p_time p;
            stage := default first_date (p_stage p);
            mood := default romantic (p_mood p);
            energy := default low (p_energy p);
            budget_band := default mid (p_budget p);
            free_text := p_free_text p;
            top_n := n;
            session_id := p_session_id p |}
  else None.

Record VenueSuggestion := {
  s_venue_id : Z;
  s_name : string;
  s_address : string;
  s_city : string;
  s_cuisine : option string;
  s_vibe_tags : option string;
  s_noise_level : option string;
  s_price_band : option string;
  s_description : option string;
  s_lat : option Q;
  s_lng : option Q;
  s_travel_minutes : option Q;
  similarity_score : Q;
  load_factor : Q;
  final_score : Q;
  source_text : option string;
}.

Record SuggestResponse := {
  count : Z;
  r_intent_text : string;
  suggestions : list VenueSuggestion;
}.

(** ** Tables ([app/models]) *)

Inductive PriceBand := pb_budget | pb_mid | pb_premium | pb_luxury.
Inductive NoiseLevel := quiet | moderate | lively | loud.

Definition price_band_value (b : PriceBand) : string :=
  match b with
  | pb_budget => "budget"
  | pb_mid => "mid"
  | pb_premium => "premium"
  | pb_luxury => "luxury"
  end.

Definition noise_level_value (n : NoiseLevel) : string :=
  match n with
  | quiet => "quiet"
  | moderate => "moderate"
  | lively => "lively"
  | loud => "loud"
  end.

Record Venue := {
  v_id : Z;
  v_name : string;
  v_address : string;
  v_city : string;
  v_lat : option Q;
  v_lng : option Q;
  v_cuisine : option string;
  v_vibe_tags : option string;
  v_description : option string;
  v_noise_level : option NoiseLevel;
  v_price_band : option PriceBand;
  v_is_active : bool;
}.

Record VenueSlot := {
  slot_id : Z;
  slot_venue_id : Z;
  slot_weekday : Z;
  start_time : time_type;
  end_time : time_type;
  max_tables_for_two : Z;
  slot_is_active : bool;
}.

Record VenueBlackout := {
  bo_venue_id : Z;
  start_date : date_type;
  end_date : date_type;
}.

Inductive BookingStatus := pending | confirmed | cancelled | refunded.

Record Booking := {
  b_id : Z;
  b_slot_id : option Z;
  booked_date : string;
  b_status : BookingStatus;
}.

Record VenueEmbedding := {
  ve_venue_id : Z;
  ve_embedding : list Q;
  ve_source_text : option string;
}.

Record IntentEmbedding := {
  ie_session_id : option string;
  ie_intent_text : string;
  ie_embedding : list Q;
  ie_model_name : string;
}.

Record TravelTimeCache := {
  tt_origin_hash : string;
  tt_venue_id : Z;
  tt_mode : string;
  tt_time_bucket : string;
  tt_travel_minutes : Q;
  tt_last_checked_at : Z;
}.

Record Db := {
  venues : list Venue;
  venue_slots : list VenueSlot;
  venue_blackouts : list VenueBlackout;
  bookings : list Booking;
  venue_embeddings : list VenueEmbedding;
  intent_embeddings : list IntentEmbedding;
  travel_time_cache : list TravelTimeCache;
}.

(** ** The collaborators *)

Record http_request := {
  rq_method : string;
  rq_url : string;
  rq_params : list (string * string);
  rq_json : option json;
  rq_headers : list (string * string);
}.

(** What the HTTP client gives back: a response with its status code and
    its body ([None] when the body is not JSON), or an exception of the
    transport (time-out, refused connection). *)
Inductive http_outcome :=
| Response (status_code : Z) (body : option json)
| TransportFailure.

(** A change handed to [db.commit()]. *)
Inductive db_write :=
| InsertIntentEmbedding (row : IntentEmbedding)
| InsertTravelTime (row : TravelTimeCache)
| DeleteTravelTime (row : TravelTimeCache).

Record Env := {
  settings : Settings;
  (* the [math] module *)
  sin : Q -> Q;
  cos : Q -> Q;
  asin : Q -> Q;
  sqrt : Q -> Q;
  radians : Q -> Q;
  (* [repr] of a float, and the digests of [hashlib] *)
  repr_float : Q -> string;
  md5_hexdigest : string -> string;
  sha256_hexdigest : string -> string;
  (* the database: [column ILIKE pattern], the cosine distance operator of
     the vector extension, and whether a commit goes through *)
  ilike : string -> string -> bool;
  cosine_distance : list Q -> list Q -> Q;
  commit_ok : db_write -> bool;
  (* the routing provider, reached over HTTP *)
  http_send : http_request -> http_outcome;
  (* the embedding provider *)
  embed : string -> string -> result (list Q);
  (* Redis answers or is down *)
  redis_up : bool;
  (* offset of the server's local time from UTC, in microseconds *)
  utc_offset : Z;
}.

Inductive log_level := INFO | WARNING | ERROR.

(** A value stored in Redis, after [json.loads]. *)
Inductive cache_value :=
| CachedSuggest (raw_suggestions : list VenueSuggestion) (intent_text : string)
| CachedVector (vector : list Q).

Record World := {
  w_db : Db;
  (* Redis: full key to value and expiry instant *)
  w_redis : gmap string (cache_value * Z);
  (* records emitted to the logger, oldest first *)
  w_log : list (log_level * string);
  (* requests sent to the routing provider, oldest first *)
  w_sent : list http_request;
  (* the clock: microseconds since the epoch, UTC *)
  w_now : Z;
}.

(** ** The monad of effectful code *)

Definition M (A : Type) : Type := World -> result A * World.

Definition ret {A} (a : A) : M A := fun w => (Ok a, w).
Definition raise {A} (e : exn) : M A := fun w => (Raise e, w).
Definition bind {A B} (m : M A) (f : A -> M B) : M B :=
  fun w =>
    match m w with
    | (Ok a, w') => f a w'
    | (Raise e, w') => (Raise e, w')
    end.
Notation "x <- m ;; k" := (bind m (fun x => k))
  (at level 100, m at next level, right associativity).
Notation "m ;;; k" := (bind m (fun _ => k))
  (at level 100, right associativity).

Definition get_db : M Db := fun w => (Ok (w_db w), w).
Definition put_db (d : Db) : M unit :=
  fun w => (Ok tt, {| w_db := d; w_redis := w_redis w; w_log := w_log w;
                      w_sent := w_sent w; w_now := w_now w |}).
Definition now_utc : M Z := fun w => (Ok (w_now w), w).
Definition logger (lvl : log_level) (msg : string) : M unit :=
  fun w => (Ok tt, {| w_db := w_db w; w_redis := w_redis w;
                      w_log := w_log w ++ [(lvl, msg)];
                      w_sent := w_sent w; w_now := w_now w |}).

Definition lift {A} (r : result A) : M A := fun w => (r, w).

(** [try: m except Exception as exc: handler]. *)
Definition try_except {A} (m : M A) (handler : exn -> M A) : M A :=
  fun w =>
    match m w with
    | (Ok a, w') => (Ok a, w')
    | (Raise e, w') => handler e w'
    end.

(** The same for code that touches no collaborator. *)
Definition rbind {A B} (r : result A) (f : A -> result B) : result B :=
  match r with
  | Ok a => f a
  | Raise e => Raise e
  end.

(** [db.add(...)] or [db.delete(...)] followed by [await db.commit()]. *)
Definition apply_write (wr : db_write) (d : Db) : Db :=
  match wr with
  | InsertIntentEmbedding row =>
      {| venues := venues d; venue_slots := venue_slots d;
         venue_blackouts := venue_blackouts d; bookings := bookings d;
         venue_embeddings := venue_embeddings d;
         intent_embeddings := intent_embeddings d ++ [row];
         travel_time_cache := travel_time_cache d |}
  | InsertTravelTime row =>
      {| venues := venues d; venue_slots := venue_slots d;
         venue_blackouts := venue_blackouts d; bookings := bookings d;
         venue_embeddings := venue_embeddings d;
         intent_embeddings := intent_embeddings d;
         travel_time_cache := travel_time_cache d ++ [row] |}
  | DeleteTravelTime row =>
      {| venues := venues d; venue_slots := venue_slots d;
         venue_blackouts := venue_blackouts d; bookings := bookings d;
         venue_embeddings := venue_embeddings d;
         intent_embeddings := intent_embeddings d;
         travel_time_cache :=
           filter (fun r => negb (String.eqb (tt_origin_hash r) (tt_origin_hash row)
                                  && (tt_venue_id r =? tt_venue_id row)
                                  && String.eqb (tt_mode r) (tt_mode row)
                                  && String.eqb (tt_time_bucket r) (tt_time_bucket row)) = true)
                  (travel_time_cache d) |}
  end.

Definition commit (E : Env) (wr : db_write) : M unit :=
  if commit_ok E wr then (d <- get_db ;; put_db (apply_write wr d))
  else raise DBAPIError.

(** [await db.rollback()]: the pending change is dropped. The session is
    modelled by the tables alone; what a rollback does to objects that were
    loaded before it is not part of the model. *)
Definition rollback : M unit := ret tt.

(** [result.scalar_one_or_none()]. *)
Definition scalar_one_or_none {A} (rows : list A) : result (option A) :=
  match rows with
  | [] => Ok None
  | [r] => Ok (Some r)
  | _ => Raise MultipleResultsFound
  end.

(** Comparisons of floats. *)
Definition Qleb (x y : Q) : bool := Qle_bool x y.
Definition Qltb (x y : Q) : bool := negb (Qle_bool y x).

(** ** The Redis cache ([app/services/cache.py]) *)

Record RedisCache := { ns : string; ttl : Z }.

Definition _key (c : RedisCache) (key : string) : string :=
  "twotable:" +:+ ns c +:+ ":" +:+ key.

Definition redis_setex (k : string) (seconds : Z) (v : cache_value) : M unit :=
  fun w => (Ok tt, {| w_db := w_db w;
                      w_redis := <[k := (v, w_now w + seconds * 1000000)]> (w_redis w);
                      w_log := w_log w; w_sent := w_sent w; w_now := w_now w |}).

(** [RedisCache.get]: a failure of Redis is logged and read as a miss. An
    entry is gone once its time to live has run out. *)
Definition cache_get (E : Env) (c : RedisCache) (key : string) : M (option cache_value) :=
  if redis_up E then
    fun w =>
      match w_redis w !! _key c key with
      | Some (v, expiry) => if w_now w <? expiry then (Ok (Some v), w) else (Ok None, w)
      | None => (Ok None, w)
      end
  else (logger WARNING "[%s] get failed — %s" ;;; ret None).

(** [RedisCache.set]. *)
Definition cache_set (E : Env) (c : RedisCache) (key : string) (value : cache_value)
    (ttl_seconds : option Z) : M unit :=
  if redis_up E then
    redis_setex (_key c key) (default (ttl c) ttl_seconds) value
  else logger WARNING "[%s] set failed — %s".

Definition intent_vector_cache : RedisCache := {| ns := "intent_vectors"; ttl := 3600 |}.
Definition suggest_cache : RedisCache := {| ns := "suggest_results"; ttl := 300 |}.

(** ** Travel times ([app/services/routing.py]) *)

Definition make_origin_hash (E : Env) (lat lng : Q) : string :=
  let rounded := repr_float E (py_round lat 3) +:+ ":" +:+ repr_float E (py_round lng 3) in
  str_take 16 (sha256_hexdigest E rounded).

Definition get_time_bucket (E : Env) : M string :=
  fun w =>
    let local := w_now w + utc_offset E in
    let hour := (local / 3600000000) mod 24 in
    let weekday := (local / 86400000000 + 3) mod 7 in
    let is_weekend := 5 <=? weekday in
    (Ok (if is_weekend then
           if hour <? 12 then "weekend_morning"
           else if hour <? 18 then "weekend_afternoon"
           else "weekend_evening"
         else if 17 <=? hour then "weekday_evening" else "weekday_daytime"), w).

(** [await client.get(...)] and [await client.post(...)]. *)
Definition client_send (E : Env) (rq : http_request) : M (Z * option json) :=
  fun w =>
    let w' := {| w_db := w_db w; w_redis := w_redis w; w_log := w_log w;
                 w_sent := w_sent w ++ [rq]; w_now := w_now w |} in
    match http_send E rq with
    | Response status_code body => (Ok (status_code, body), w')
    | TransportFailure => (Raise TransportError, w')
    end.

(** [resp.json()]. *)
Definition resp_json (body : option json) : result json :=
  match body with
  | Some data => Ok data
  | None => Raise JSONDecodeError
  end.

(** [try: return r except (KeyError, IndexError): return None]. *)
Definition except_KeyError_IndexError {A} (r : result A) : result (option A) :=
  match r with
  | Ok a => Ok (Some a)
  | Raise KeyError => Ok None
  | Raise IndexError => Ok None
  | Raise e => Raise e
  end.

Definition _fetch_tomtom (E : Env) (origin destination : Q * Q) (mode : string)
    : M (option Q) :=
  let travel_mode_map := [("drive", "car"); ("walk", "pedestrian"); ("transit", "car")] in
  let travel_mode := default "car" (assoc_get mode travel_mode_map) in
  let origin_str := repr_float E origin.1 +:+ "," +:+ repr_float E origin.2 in
  let dest_str := repr_float E destination.1 +:+ "," +:+ repr_float E destination.2 in
  let url := "https://api.tomtom.com/routing/1/calculateRoute/"
             +:+ origin_str +:+ ":" +:+ dest_str +:+ "/json" in
  resp <- client_send E {| rq_method := "GET"; rq_url := url;
                           rq_params := [("key", ROUTING_API_KEY (settings E));
                                         ("travelMode", travel_mode);
                                         ("traffic", "true");
                                         ("routeType", "fastest")];
                           rq_json := None; rq_headers := [] |} ;;
  if negb (resp.1 =? 200) then ret None
  else
    data <- lift (resp_json resp.2) ;;
    lift (except_KeyError_IndexError
            (rbind (getitem_str data "routes") (fun routes =>
             rbind (getitem_0 routes) (fun route =>
             rbind (getitem_str route "summary") (fun summary =>
             rbind (getitem_str summary "travelTimeInSeconds") (fun seconds =>
             rbind (truediv_60 seconds) (fun minutes =>
             Ok (py_round minutes 1)))))))).

Definition _fetch_ors (E : Env) (origin destination : Q * Q) (mode : string)
    : M (option Q) :=
  let profile_map := [("drive", "driving-car"); ("walk", "foot-walking");
                      ("transit", "driving-car")] in
  resp <- client_send E
            {| rq_method := "POST";
               rq_url := "https://api.openrouteservice.org/v2/directions/"
                         +:+ default "driving-car" (assoc_get mode profile_map);
               rq_params := [];
               rq_json := Some (JObj [("coordinates",
                            JArr [JArr [JNum origin.2; JNum origin.1];
                                  JArr [JNum destination.2; JNum destination.1]])]);
               rq_headers := [("Authorization", ROUTING_API_KEY (settings E))] |} ;;
  if negb (resp.1 =? 200) then ret None
  else
    lift (except_KeyError_IndexError
            (rbind (resp_json resp.2) (fun data =>
             rbind (getitem_str data "routes") (fun routes =>
             rbind (getitem_0 routes) (fun route =>
             rbind (getitem_str route "summary") (fun summary =>
             rbind (getitem_str summary "duration") (fun duration =>
             rbind (truediv_60 duration) (fun minutes =>
             Ok (py_round minutes 1))))))))).

Definition _fetch_mapbox (E : Env) (origin destination : Q * Q) (mode : string)
    : M (option Q) :=
  let profile_map := [("drive", "driving"); ("walk", "walking"); ("transit", "driving")] in
  let coords := repr_float E origin.2 +:+ "," +:+ repr_float E origin.1 +:+ ";"
                +:+ repr_float E destination.2 +:+ "," +:+ repr_float E destination.1 in
  resp <- client_send E
            {| rq_method := "GET";
               rq_url := "https://api.mapbox.com/directions/v5/mapbox/"
                         +:+ default "driving" (assoc_get mode profile_map)
                         +:+ "/" +:+ coords;
               rq_params := [("access_token", ROUTING_API_KEY (settings E));
                             ("overview", "false")];
               rq_json := None; rq_headers := [] |} ;;
  if negb (resp.1 =? 200) then ret None
  else
    lift (except_KeyError_IndexError
            (rbind (resp_json resp.2) (fun data =>
             rbind (getitem_str data "routes") (fun routes =>
             rbind (getitem_0 routes) (fun route =>
             rbind (getitem_str route "duration") (fun duration =>
             rbind (truediv_60 duration) (fun minutes =>
             Ok (py_round minutes 1)))))))).

(** The part of [get_travel_time] that picks the provider. *)
Definition call_provider (E : Env) (origin destination : Q * Q) (mode : string)
    : M (option Q) :=
  let provider := ROUTING_PROVIDER (settings E) in
  if String.eqb provider "tomtom" then _fetch_tomtom E origin destination mode
  else if String.eqb provider "openrouteservice" then _fetch_ors E origin destination mode
  else if String.eqb provider "mapbox" then _fetch_mapbox E origin destination mode
  else raise (ValueError ("Unknown routing provider: " +:+ provider)).

Definition cache_row_matches (origin_hash : string) (venue_id : Z) (mode time_bucket : string)
    (r : TravelTimeCache) : bool :=
  String.eqb (tt_origin_hash r) origin_hash
  && (tt_venue_id r =? venue_id)
  && String.eqb (tt_mode r) mode
  && String.eqb (tt_time_bucket r) time_bucket.

Definition get_travel_time (E : Env) (origin destination : Q * Q) (venue_id : Z)
    (mode : string) : M (option Q) :=
  let ttl := TRAVEL_TIME_CACHE_TTL_HOURS (settings E) * 3600 * 1000000 in
  let origin_hash := make_origin_hash E origin.1 origin.2 in
  time_bucket <- get_time_bucket E ;;
  (* Cache lookup *)
  d <- get_db ;;
  cached <- lift (scalar_one_or_none
                    (filter (fun r => cache_row_matches origin_hash venue_id mode time_bucket r = true)
                            (travel_time_cache d))) ;;
  hit <- match cached with
         | Some row =>
             now <- now_utc ;;
             let age := now - tt_last_checked_at row in
             if age <? ttl then ret (Some (tt_travel_minutes row))
             else (commit E (DeleteTravelTime row) ;;; ret None)
         | None => ret None
         end ;;
  match hit with
  | Some minutes => ret (Some minutes)
  | None =>
      (* API call *)
      minutes <- call_provider E origin destination mode ;;
      match minutes with
      | None => ret None
      | Some minutes =>
          (* Write to cache *)
          now <- now_utc ;;
          commit E (InsertTravelTime
                      {| tt_origin_hash := origin_hash; tt_venue_id := venue_id;
                         tt_mode := mode; tt_time_bucket := time_bucket;
                         tt_travel_minutes := minutes; tt_last_checked_at := now |}) ;;;
          ret (Some minutes)
      end
  end.

(** ** Haversine pre-filter ([app/api/v1/venues.py]) *)

Definition _haversine_km (E : Env) (lat1 lng1 lat2 lng2 : Q) : Q :=
  let R := 6371%Q in
  let dlat := radians E (lat2 - lat1)%Q in
  let dlng := radians E (lng2 - lng1)%Q in
  let a := (sin E (dlat / 2) ^ 2
            + cos E (radians E lat1) * cos E (radians E lat2) * sin E (dlng / 2) ^ 2)%Q in
  (R * 2 * asin E (sqrt E a))%Q.

Definition _SPEED_KM_PER_MIN : gmap string Q :=
  <["walk" := 83 # 1000]> (<["drive" := 1 # 2]> (<["transit" := 2 # 5]> ∅)).

Definition _SAFETY_FACTOR : Q := 18 # 10.

Definition _max_radius_km (mode : string) (max_minutes : Z) : Q :=
  (default (1 # 2) (_SPEED_KM_PER_MIN !! mode) * inject_Z max_minutes * _SAFETY_FACTOR)%Q.

Definition within_radius (E : Env) (origin_lat origin_lng radius_km : Q) (v : Venue) : bool :=
  match v_lat v, v_lng v with
  | Some lat, Some lng => Qleb (_haversine_km E origin_lat origin_lng lat lng) radius_km
  | _, _ => false
  end.

Definition prefilter_by_distance (E : Env) (vs : list Venue) (origin_lat origin_lng : Q)
    (mode : string) (max_travel_min : Z) : list Venue :=
  let radius_km := _max_radius_km mode max_travel_min in
  filter (fun v => within_radius E origin_lat origin_lng radius_km v = true) vs.

(** ** Embedding provider and intent text ([app/services/embeddings.py]) *)

Definition TASK_QUERY : string := "RETRIEVAL_QUERY".



(** [sep.join(parts)]. *)
Fixpoint join (sep : string) (parts : list string) : string :=
  match parts with
  | [] => ""
  | [p] => p
  | p :: rest => p +:+ sep +:+ join sep rest
  end.

Definition build_intent_text (stage mood energy budget city free_text : string) : string :=
  let parts := [stage; "Mood: " +:+ mood; "Energy: " +:+ energy;
                "Budget: " +:+ budget; "City: " +:+ city] in
  let parts := if String.eqb free_text "" then parts else parts ++ [free_text] in
  join ". " parts +:+ ".".

(** ** Similarity search and intent log ([app/services/venue_embeddings.py]) *)

Definition by_distance (a b : Z * Q) : Prop := (a.2 <= b.2)%Q.

#[global] Instance by_distance_dec : RelDecision by_distance.
Proof. intros a b. unfold by_distance, Qle. apply _. Defined.

Definition find_similar_venues (E : Env) (d : Db) (intent_vector : list Q)
    (candidate_venue_ids : list Z) (top_n : nat) : list (Z * Q) :=
  match candidate_venue_ids with
  | [] => []
  | _ =>
      let rows :=
        map (fun r => (ve_venue_id r, cosine_distance E (ve_embedding r) intent_vector))
            (filter (fun r => ve_venue_id r ∈ candidate_venue_ids) (venue_embeddings d)) in
      take top_n (merge_sort by_distance rows)
  end.

Definition log_intent_embedding (E : Env) (session_id : option string)
    (intent_text : string) (vector : list Q) : M unit :=
  try_except
    (commit E (InsertIntentEmbedding
                 {| ie_session_id := session_id; ie_intent_text := intent_text;
                    ie_embedding := vector;
                    ie_model_name := EMBEDDING_MODEL (settings E) |}))
    (fun exc => rollback ;;; logger WARNING "Failed to log intent embedding: %s").

(** ** The matcher ([app/services/matcher.py]) *)

Definition _MAX_LOAD_PENALTY : Q := 3 # 10.

Record CandidateVenue := { venue : Venue; travel_minutes : option Q }.

(** [x or 0], then [round(_, 3)], then the text an f-string gives. *)
Definition or_0 (x : option Q) : py_num :=
  match x with
  | None => PyInt 0
  | Some v => if Qeq_bool v 0 then PyInt 0 else PyFloat v
  end.

Definition round_num (x : py_num) (ndigits : nat) : py_num :=
  match x with
  | PyInt n => PyInt n
  | PyFloat v => PyFloat (py_round v ndigits)
  end.

Definition format_num (E : Env) (x : py_num) : string :=
  match x with
  | PyInt n => str_int n
  | PyFloat v => repr_float E v
  end.

(** An enum member is formatted here by its value. *)
Definition _suggest_cache_key (E : Env) (req : SuggestRequest) : string :=
  let raw :=
    city req +:+ "|" +:+ str_date (date req) +:+ "|" +:+ str_time (time req) +:+ "|"
    +:+ format_num E (round_num (or_0 (origin_lat req)) 3) +:+ ","
    +:+ format_num E (round_num (or_0 (origin_lng req)) 3) +:+ "|"
    +:+ travel_mode_value (travel_mode req) +:+ "|" +:+ str_int (max_travel_minutes req) +:+ "|"
    +:+ stage_value (stage req) +:+ "|" +:+ mood_value (mood req) +:+ "|"
    +:+ energy_value (energy req) +:+ "|" +:+ budget_value (budget_band req) +:+ "|"
    +:+ default "" (free_text req) +:+ "|" +:+ str_int (top_n req) in
  md5_hexdigest E raw.

Definition _get_intent_vector (E : Env) (intent_text : string) : M (list Q) :=
  cached <- cache_get E intent_vector_cache intent_text ;;
  match cached with
  | Some (CachedVector v) => ret v
  | Some (CachedSuggest _ _) => raise TypeError
  | None =>
      vector <- lift (embed E intent_text TASK_QUERY) ;;
      cache_set E intent_vector_cache intent_text (CachedVector vector) None ;;;
      ret vector
  end.

(** *** Layer 1: hard SQL filter and pre-filters *)

Definition slot_matches (weekday : Z) (target_time : time_type) (s : VenueSlot) : bool :=
  slot_is_active s
  && (slot_weekday s =? weekday)
  && time_le (start_time s) target_time
  && time_lt target_time (end_time s).

(** The [select(Venue).join(VenueSlot).where(...).distinct()] statement: the
    venues of the table that have a matching slot, each once. *)
Definition select_open_venues (E : Env) (d : Db) (city : string) (weekday : Z)
    (target_time : time_type) : list Venue :=
  filter (fun v =>
            (ilike E (v_city v) ("%" +:+ city +:+ "%")
             && v_is_active v
             && existsb (fun s => (slot_venue_id s =? v_id v)
                                  && slot_matches weekday target_time s)
                        (venue_slots d)) = true)
         (venues d).

Definition blackout_covers (target_date : date_type) (b : VenueBlackout) : bool :=
  date_le (start_date b) target_date && date_le target_date (end_date b).

Definition select_blacked_out (d : Db) (target_date : date_type) : gset Z :=
  list_to_set (map bo_venue_id
                 (filter (fun b => blackout_covers target_date b = true) (venue_blackouts d))).

(** Python truthiness of an optional float: [None] and [0.0] are false. *)
Definition truthy (x : option Q) : bool :=
  match x with
  | Some v => negb (Qeq_bool v 0)
  | None => false
  end.

(** The body of the loop over the venues that are left: [None] is
    [continue], [Some c] is [candidates.append(c)]. *)
Definition travel_gate (E : Env) (origin_lat origin_lng : option Q) (travel_mode : string)
    (max_travel_minutes : Z) (v : Venue) : M (option CandidateVenue) :=
  match origin_lat, origin_lng, v_lat v, v_lng v with
  | Some olat, Some olng, Some lat, Some lng =>
      if truthy (v_lat v) && truthy (v_lng v) then
        travel_minutes <- get_travel_time E (olat, olng) (lat, lng) (v_id v) travel_mode ;;
        match travel_minutes with
        | None => ret None
        | Some t =>
            if Qltb (inject_Z max_travel_minutes) t then ret None
            else ret (Some {| venue := v; travel_minutes := Some t |})
        end
      else ret (Some {| venue := v; travel_minutes := None |})
  | _, _, _, _ => ret (Some {| venue := v; travel_minutes := None |})
  end.

Fixpoint travel_loop (E : Env) (origin_lat origin_lng : option Q) (travel_mode : string)
    (max_travel_minutes : Z) (vs : list Venue) : M (list CandidateVenue) :=
  match vs with
  | [] => ret []
  | v :: rest =>
      c <- travel_gate E origin_lat origin_lng travel_mode max_travel_minutes v ;;
      cs <- travel_loop E origin_lat origin_lng travel_mode max_travel_minutes rest ;;
      ret (match c with Some c => c :: cs | None => cs end)
  end.

(** The venues that pass the SQL statement and the blackout filter. *)
Definition available_venues (E : Env) (d : Db) (city : string) (target_date : date_type)
    (target_time : time_type) : list Venue :=
  let weekday := weekday_of target_date in
  let vs := select_open_venues E d city weekday target_time in
  let blacked_out := select_blacked_out d target_date in
  filter (fun v => v_id v ∉ blacked_out) vs.

Definition _get_hard_filtered_candidates (E : Env) (city : string) (target_date : date_type)
    (target_time : time_type) (origin_lat origin_lng : option Q) (travel_mode : string)
    (max_travel_minutes : Z) : M (list CandidateVenue) :=
  d <- get_db ;;
  let weekday := weekday_of target_date in
  let vs := select_open_venues E d city weekday target_time in
  match vs with
  | [] => ret []
  | _ =>
      (* Blackout filter *)
      let blacked_out := select_blacked_out d target_date in
      let vs := filter (fun v => v_id v ∉ blacked_out) vs in
      match vs with
      | [] => ret []
      | _ =>
          (* Haversine pre-filter *)
          vs <- match origin_lat, origin_lng with
                | Some olat, Some olng =>
                    let vs' := prefilter_by_distance E vs olat olng travel_mode
                                                     max_travel_minutes in
                    logger INFO "Haversine: %d → %d venues (mode=%s max=%dmin)" ;;;
                    ret vs'
                | _, _ => ret vs
                end ;;
          match vs with
          | [] => ret []
          | _ => travel_loop E origin_lat origin_lng travel_mode max_travel_minutes vs
          end
      end
  end.

(** *** Layer 3: load fairness *)

Definition is_active_booking (st : BookingStatus) : bool :=
  match st with
  | confirmed | pending => true
  | _ => false
  end.

Definition Qmin (x y : Q) : Q := if Qleb x y then x else y.

Definition load_of_venue (d : Db) (weekday : Z) (date_str : string)
    (target_time : time_type) (venue_id : Z) : Q :=
  (* Get the matching slot *)
  match filter (fun s => ((slot_venue_id s =? venue_id)
                          && (slot_weekday s =? weekday)
                          && time_le (start_time s) target_time
                          && time_lt target_time (end_time s)
                          && slot_is_active s) = true)
               (venue_slots d) with
  | [] => 0%Q
  | slot :: _ =>
      (* Count active bookings for this slot on target date *)
      let booked :=
        length (filter (fun b => (match b_slot_id b with
                                  | Some i => i =? slot_id slot
                                  | None => false
                                  end
                                  && String.eqb (booked_date b) date_str
                                  && is_active_booking (b_status b)) = true)
                       (bookings d)) in
      Qmin (inject_Z (Z.of_nat booked) / inject_Z (Z.max (max_tables_for_two slot) 1))%Q 1%Q
  end.

Definition _get_load_factors (d : Db) (candidate_venue_ids : list Z)
    (target_date : date_type) (target_time : time_type) : gmap Z Q :=
  let weekday := weekday_of target_date in
  let date_str := str_date target_date in
  foldl (fun load_map venue_id =>
           <[venue_id := load_of_venue d weekday date_str target_time venue_id]> load_map)
        ∅ candidate_venue_ids.

(** *** Layer 2: embedding similarity *)

(** [{k: v for k, v in items}]: a later item replaces an earlier one. *)
Definition dict_of_list {V} (items : list (Z * V)) : gmap Z V :=
  foldl (fun m kv => <[kv.1 := kv.2]> m) ∅ items.

Definition embedding_rows_in (d : Db) (ids : list Z) : list VenueEmbedding :=
  filter (fun r => ve_venue_id r ∈ ids) (venue_embeddings d).

Definition similarity_stage (E : Env) (req : SuggestRequest) (intent_text : string)
    (candidate_ids : list Z) : M (gmap Z Q) :=
  d <- get_db ;;
  let emb_count := length (embedding_rows_in d candidate_ids) in
  if (emb_count =? 0)%nat then
    logger WARNING "No embeddings for candidates — neutral scores. Run /admin/venues/embed-all" ;;;
    ret (dict_of_list (map (fun vid => (vid, 1 # 2)) candidate_ids))
  else
    intent_vector <- _get_intent_vector E intent_text ;;
    d <- get_db ;;
    let embedded_ids : gset Z := list_to_set (map ve_venue_id (embedding_rows_in d candidate_ids)) in
    let unembedded_ids := filter (fun vid => vid ∉ embedded_ids) candidate_ids in
    let similarity_map : gmap Z Q :=
      foldl (fun m vid => <[vid := 1 # 2]> m) ∅ unembedded_ids in
    let similarity_map :=
      if decide (embedded_ids = ∅) then similarity_map
      else foldl (fun m (row : Z * Q) => <[row.1 := row.2]> m) similarity_map
                 (find_similar_venues E d intent_vector (elements embedded_ids)
                                      (size embedded_ids)) in
    log_intent_embedding E (session_id req) intent_text intent_vector ;;;
    ret similarity_map.

(** *** Final scoring *)

(** The order of Python on tuples [(float, int)]. *)
Definition tuple_le (a b : Q * Z) : Prop :=
  match (a.1 ?= b.1)%Q with
  | Lt => True
  | Eq => a.2 <= b.2
  | Gt => False
  end.

#[global] Instance tuple_le_dec : RelDecision tuple_le.
Proof. intros a b. unfold tuple_le. destruct (a.1 ?= b.1)%Q; apply _. Defined.

Definition score_of (similarity_map load_factors : gmap Z Q) (vid : Z) : Q :=
  (default (1 # 2) (similarity_map !! vid)
   * (1 + default 0 (load_factors !! vid) * _MAX_LOAD_PENALTY))%Q.

(** [sorted([...])] on the scored tuples. The order on tuples is total and
    two tuples that compare equal have the same score and the same id, so
    the sorted list does not depend on the sorting algorithm. *)
Definition final_scoring (similarity_map load_factors : gmap Z Q) (candidate_ids : list Z)
    : list (Q * Z) :=
  merge_sort tuple_le
    (map (fun vid => (score_of similarity_map load_factors vid, vid)) candidate_ids).

(** *** Build suggestions *)

Definition build_suggestion (candidate_map : gmap Z CandidateVenue)
    (similarity_map load_factors : gmap Z Q) (emb_texts : gmap Z (option string))
    (entry : Q * Z) : result VenueSuggestion :=
  let final_score := entry.1 in
  let venue_id := entry.2 in
  match candidate_map !! venue_id with
  | None => Raise KeyError
  | Some c =>
      let v := venue c in
      Ok {| s_venue_id := v_id v;
            s_name := v_name v;
            s_address := v_address v;
            s_city := v_city v;
            s_cuisine := v_cuisine v;
            s_vibe_tags := v_vibe_tags v;
            s_noise_level := option_map noise_level_value (v_noise_level v);
            s_price_band := option_map price_band_value (v_price_band v);
            s_description := v_description v;
            s_lat := v_lat v;
            s_lng := v_lng v;
            s_travel_minutes := travel_minutes c;
            similarity_score := py_round (default (1 # 2) (similarity_map !! venue_id)) 4;
            load_factor := py_round (default 0%Q (load_factors !! venue_id)) 4;
            final_score := py_round final_score 4;
            source_text := match emb_texts !! venue_id with
                           | Some t => t
                           | None => None
                           end |}
  end.

Fixpoint build_suggestions (candidate_map : gmap Z CandidateVenue)
    (similarity_map load_factors : gmap Z Q) (emb_texts : gmap Z (option string))
    (top : list (Q * Z)) : result (list VenueSuggestion) :=
  match top with
  | [] => Ok []
  | entry :: rest =>
      rbind (build_suggestion candidate_map similarity_map load_factors emb_texts entry)
        (fun s =>
           rbind (build_suggestions candidate_map similarity_map load_factors emb_texts rest)
             (fun ss => Ok (s :: ss)))
  end.

(** Layer 3, the final scoring, the debug texts, the suggestions and the
    write to Redis: the part of [suggest_venues] after the similarity map
    is known. *)
Definition rank_and_build (E : Env) (req : SuggestRequest) (intent_text cache_key : string)
    (candidates : list CandidateVenue) (similarity_map : gmap Z Q)
    : M (list VenueSuggestion * string) :=
  let candidate_ids := map (fun c => v_id (venue c)) candidates in
  let candidate_map := dict_of_list (map (fun c => (v_id (venue c), c)) candidates) in
  d <- get_db ;;
  let load_factors := _get_load_factors d candidate_ids (date req) (time req) in
  let scored := final_scoring similarity_map load_factors candidate_ids in
  let top := py_slice_to scored (top_n req) in
  (* Fetch source_text for debug *)
  let top_ids := map snd top in
  let emb_texts :=
    dict_of_list (map (fun r => (ve_venue_id r, ve_source_text r))
                      (embedding_rows_in d top_ids)) in
  suggestions <- lift (build_suggestions candidate_map similarity_map load_factors
                                         emb_texts top) ;;
  cache_set E suggest_cache cache_key (CachedSuggest suggestions intent_text) None ;;;
  ret (suggestions, intent_text).

(** *** Main matcher *)

(** The intent text of a request, as the first statement of
    [suggest_venues] builds it. *)
Definition intent_text_of (req : SuggestRequest) : string :=
  build_intent_text (stage_value (stage req)) (mood_value (mood req))
                    (energy_value (energy req)) (budget_value (budget_band req))
                    (city req) (default "" (free_text req)).

Definition suggest_venues (E : Env) (req : SuggestRequest)
    : M (list VenueSuggestion * string) :=
  let intent_text := intent_text_of req in
  (* Redis suggest cache check *)
  let cache_key := _suggest_cache_key E req in
  cached <- cache_get E suggest_cache cache_key ;;
  match cached with
  | Some (CachedSuggest raw_suggestions cached_intent) =>
      logger INFO "suggest Redis HIT key=%s" ;;;
      ret (raw_suggestions, cached_intent)
  | Some (CachedVector _) =>
      logger INFO "suggest Redis HIT key=%s" ;;;
      raise (ValueError "unpack")
  | None =>
      (* Layer 1: hard filters *)
      candidates <- _get_hard_filtered_candidates E (city req) (date req) (time req)
                      (origin_lat req) (origin_lng req)
                      (travel_mode_value (travel_mode req)) (max_travel_minutes req) ;;
      match candidates with
      | [] =>
          logger INFO "No candidates after hard filters — city=%s" ;;;
          ret ([], intent_text)
      | _ =>
          let candidate_ids := map (fun c => v_id (venue c)) candidates in
          logger INFO "Layer 1 passed: %d venues" ;;;
          (* Layer 2: embedding similarity *)
          similarity_map <- similarity_stage E req intent_text candidate_ids ;;
          rank_and_build E req intent_text cache_key candidates similarity_map
      end
  end.

(** ** The endpoint ([app/api/v1/suggest.py]) and start-up *)

Inductive reply :=
| Reply200 (r : SuggestResponse)
| HTTPException (status_code : Z) (cause : option exn).

Definition suggest (E : Env) (payload : SuggestRequest) : World -> reply * World :=
  fun w =>
    match suggest_venues E payload w with
    | (Raise exc, w') =>
        (HTTPException 500 (Some exc), (logger ERROR "Matcher failed: %s" w').2)
    | (Ok (suggestions, intent_text), w') =>
        match suggestions with
        | [] => (HTTPException 404 None, w')
        | _ => (Reply200 {| count := Z.of_nat (length suggestions);
                            r_intent_text := intent_text;
                            suggestions := suggestions |}, w')
        end
    end.


(** ** A sample environment and catalogue

    Used to run the pipeline on concrete inputs. The functions of [math]
    are replaced by rational stand-ins that agree with them at 0; the
    digests and [repr] by injective texts; the cosine distance by the first
    coordinate of the stored vector. *)

Fixpoint like (pattern s : string) : bool :=
  match pattern with
  | EmptyString => match s with EmptyString => true | _ => false end
  | String p pattern' =>
      if Ascii.eqb p "%" then
        (fix skip (s : string) : bool :=
           like pattern' s
           || match s with
              | EmptyString => false
              | String _ s' => skip s'
              end) s
      else
        match s with
        | EmptyString => false
        | String c s' => (Ascii.eqb p "_" || Ascii.eqb p c) && like pattern' s'
        end
  end.

Definition sample_ilike (column pattern : string) : bool :=
  like (py_lower pattern) (py_lower column).

Definition sample_repr (x : Q) : string :=
  let r := Qred x in
  str_int (Qnum r) +:+ "/" +:+ str_int (Zpos (Qden r)).

Definition sample_settings : Settings :=
  {| ROUTING_PROVIDER := "tomtom";
     ROUTING_API_KEY := "key";
     TRAVEL_TIME_CACHE_TTL_HOURS := 72;
     EMBEDDING_PROVIDER := "local";
     EMBEDDING_MODEL := "all-MiniLM-L6-v2" |}.

(** The provider answers every request with a route of [seconds]. *)
Definition route_of (seconds : Q) : json :=
  JObj [("routes", JArr [JObj [("summary", JObj [("travelTimeInSeconds", JNum seconds)])]])].

Definition sample_env : Env :=
  {| settings := sample_settings;
     sin := fun x => x;
     cos := fun x => (1 - x * x / 2)%Q;
     asin := fun x => x;
     sqrt := fun x => x;
     radians := fun x => (x * (355 # 113) / 180)%Q;
     repr_float := sample_repr;
     md5_hexdigest := fun s => "md5:" +:+ s;
     sha256_hexdigest := fun s => "sha256:" +:+ s;
     ilike := sample_ilike;
     cosine_distance := fun stored _ => default 1%Q (head stored);
     commit_ok := fun _ => true;
     http_send := fun _ => Response 200 (Some (route_of 600));
     embed := fun _ _ => Ok [1%Q];
     redis_up := true;
     utc_offset := 0 |}.

Definition sample_venue (id : Z) (name : string) (lat lng : option Q) : Venue :=
  {| v_id := id; v_name := name; v_address := "1 Park Street"; v_city := "Bristol";
     v_lat := lat; v_lng := lng; v_cuisine := Some "italian";
     v_vibe_tags := Some "cosy,romantic"; v_description := None;
     v_noise_level := Some quiet; v_price_band := Some pb_mid; v_is_active := true |}.

(** Open on Wednesdays from 18:00 to 22:00. *)
Definition sample_slot (id venue_id capacity : Z) : VenueSlot :=
  {| slot_id := id; slot_venue_id := venue_id; slot_weekday := 2;
     start_time := mk_time 18 0 0 0; end_time := mk_time 22 0 0 0;
     max_tables_for_two := capacity; slot_is_active := true |}.

Definition sample_booking (id slot : Z) : Booking :=
  {| b_id := id; b_slot_id := Some slot; booked_date := "2026-02-25"; b_status := confirmed |}.

(** Venue A (id 1) has no booking; venue B (id 2) has four of its five
    tables booked. Their distances to any intent are 0.10 and 0.08. *)
Definition sample_db : Db :=
  {| venues := [sample_venue 1 "A" (Some (514545 # 10000)) (Some (-25879 # 10000));
                sample_venue 2 "B" (Some (514545 # 10000)) (Some (-25879 # 10000))];
     venue_slots := [sample_slot 11 1 5; sample_slot 12 2 5];
     venue_blackouts := [];
     bookings := [sample_booking 1 12; sample_booking 2 12; sample_booking 3 12;
                  sample_booking 4 12];
     venue_embeddings :=
       [{| ve_venue_id := 1; ve_embedding := [1 # 10]; ve_source_text := Some "Venue: A" |};
        {| ve_venue_id := 2; ve_embedding := [2 # 25]; ve_source_text := Some "Venue: B" |}];
     intent_embeddings := [];
     travel_time_cache := [] |}.

Definition world_of (d : Db) : World :=
  {| w_db := d; w_redis := ∅; w_log := []; w_sent := []; w_now := 1771959600000000 |}.

Definition sample_request : SuggestRequest :=
  {| city := "Bristol";
     origin_lat := Some (514545 # 10000);
     origin_lng := Some (-25879 # 10000);
     travel_mode := drive;
     max_travel_minutes := 45;
     date := mk_date 2026 2 25;
     time := mk_time 19 0 0 0;
     stage := first_date;
     mood := romantic;
     energy := low;
     budget_band := mid;
     free_text := None;
     top_n := 3;
     session_id := None |}.

(** ** Notions used to state the properties *)

(** The speed table in the words of the specification. *)
Definition per_mode_speed_km_per_min (mode : string) : Q :=
  if String.eqb mode "walk" then 83 # 1000
  else if String.eqb mode "drive" then 1 # 2
  else if String.eqb mode "transit" then 2 # 5
  else 1 # 2.

(** [x] is ranked ahead of [y] in a scored list: some entry of [x] comes
    before some entry of [y]. *)
Definition ranked_ahead (x y : Z) (scored : list (Q * Z)) : Prop :=
  exists i j sx sy, (i < j)%nat /\ scored !! i = Some (sx, x) /\ scored !! j = Some (sy, y).

(** The venues that reach the travel-time loop of
    [_get_hard_filtered_candidates]. *)
Definition surviving_venues (E : Env) (d : Db) (city : string) (target_date : date_type)
    (target_time : time_type) (origin_lat origin_lng : option Q) (travel_mode : string)
    (max_travel_minutes : Z) : list Venue :=
  let vs := available_venues E d city target_date target_time in
  match origin_lat, origin_lng with
  | Some olat, Some olng => prefilter_by_distance E vs olat olng travel_mode max_travel_minutes
  | _, _ => vs
  end.

(** What a request leaves untouched apart from the travel-time cache table,
    the log and the trace of routing requests. *)
Definition same_catalogue (d d' : Db) : Prop :=
  venues d' = venues d
  /\ venue_slots d' = venue_slots d
  /\ venue_blackouts d' = venue_blackouts d
  /\ bookings d' = bookings d
  /\ venue_embeddings d' = venue_embeddings d.

Definition frame (w w' : World) : Prop :=
  same_catalogue (w_db w) (w_db w')
  /\ intent_embeddings (w_db w') = intent_embeddings (w_db w)
  /\ w_redis w' = w_redis w
  /\ w_now w' = w_now w.

(** A computation keeps a relation between the world before and after,
    whether it returns or raises. *)
Definition preserves {A} (R : relation World) (m : M A) : Prop :=
  forall w, R w (m w).2.

(** The second world differs from the first by log records only. *)
Definition only_logged (w w' : World) : Prop :=
  w_db w' = w_db w /\ w_redis w' = w_redis w /\ w_sent w' = w_sent w /\ w_now w' = w_now w.

(** The gate of the travel-time loop applies to a venue: an origin is
    given and both coordinates of the venue are truthy. *)
Definition gated (origin_lat origin_lng : option Q) (v : Venue) : bool :=
  match origin_lat, origin_lng with
  | Some _, Some _ => truthy (v_lat v) && truthy (v_lng v)
  | _, _ => false
  end.

(** The candidate ids, the candidate map and the truncated ranking, as
    [suggest_venues] computes them. *)
Definition candidate_ids_of (candidates : list CandidateVenue) : list Z :=
  map (fun c => v_id (venue c)) candidates.

Definition candidate_map_of (candidates : list CandidateVenue) : gmap Z CandidateVenue :=
  dict_of_list (map (fun c => (v_id (venue c), c)) candidates).

Definition top_of (req : SuggestRequest) (d : Db) (candidates : list CandidateVenue)
    (sim : gmap Z Q) : list (Q * Z) :=
  let ids := candidate_ids_of candidates in
  py_slice_to (final_scoring sim (_get_load_factors d ids (date req) (time req)) ids)
              (top_n req).

(** The commit of the intent log row is forced to succeed or to fail;
    everything else is as in [E]. *)
Definition with_intent_commit (E : Env) (b : bool) : Env :=
  {| settings := settings E;
     sin := sin E; cos := cos E; asin := asin E; sqrt := sqrt E; radians := radians E;
     repr_float := repr_float E;
     md5_hexdigest := md5_hexdigest E;
     sha256_hexdigest := sha256_hexdigest E;
     ilike := ilike E;
     cosine_distance := cosine_distance E;
     commit_ok := fun wr => match wr with
                            | InsertIntentEmbedding _ => b
                            | _ => commit_ok E wr
                            end;
     http_send := http_send E;
     embed := embed E;
     redis_up := redis_up E;
     utc_offset := utc_offset E |}.

(** The suggest cache has no live entry for the request. *)
Definition suggest_cache_miss (E : Env) (req : SuggestRequest) (w : World) : Prop :=
  (cache_get E suggest_cache (_suggest_cache_key E req) w).1 = Ok None.

(** The arguments [suggest_venues] passes to layer 1. *)
Definition hard_filter_of (E : Env) (req : SuggestRequest) : M (list CandidateVenue) :=
  _get_hard_filtered_candidates E (city req) (date req) (time req)
    (origin_lat req) (origin_lng req) (travel_mode_value (travel_mode req))
    (max_travel_minutes req).

Definition no_embeddings_warning : log_level * string :=
  (WARNING, "No embeddings for candidates — neutral scores. Run /admin/venues/embed-all").

(** The database is left as it was. *)
Definition same_db (w w' : World) : Prop := w_db w' = w_db w.


(** No embedding row is stored for the venue. *)
Definition lacks_embedding (d : Db) (vid : Z) : Prop :=
  forall r, r ∈ venue_embeddings d -> ve_venue_id r <> vid.

(** The sample catalogue before any embedding has been computed. *)
Definition sample_db_unembedded : Db :=
  {| venues := venues sample_db;
     venue_slots := venue_slots sample_db;
     venue_blackouts := [];
     bookings := bookings sample_db;
     venue_embeddings := [];
     intent_embeddings := [];
     travel_time_cache := [] |}.

(** The request with another origin. *)
Definition with_origin (req : SuggestRequest) (lat lng : option Q) : SuggestRequest :=
  {| city := city req;
     origin_lat := lat;
     origin_lng := lng;
     travel_mode := travel_mode req;
     max_travel_minutes := max_travel_minutes req;
     date := date req;
     time := time req;
     stage := stage req;
     mood := mood req;
     energy := energy req;
     budget_band := budget_band req;
     free_text := free_text req;
     top_n := top_n req;
     session_id := session_id req |}.

(** A catalogue with one venue whose coordinates are not known. *)
Definition sample_db_no_coordinates : Db :=
  {| venues := [sample_venue 7 "G" None None];
     venue_slots := [sample_slot 17 7 5];
     venue_blackouts := [];
     bookings := [];
     venue_embeddings := [];
     intent_embeddings := [];
     travel_time_cache := [] |}.

(** The row that the intent log receives, and the warning logged when
    its write fails. *)
Definition intent_row (E : Env) (req : SuggestRequest) (txt : string) (vector : list Q)
    : IntentEmbedding :=
  {| ie_session_id := session_id req; ie_intent_text := txt; ie_embedding := vector;
     ie_model_name := EMBEDDING_MODEL (settings E) |}.

Definition intent_log_warning : log_level * string :=
  (WARNING, "Failed to log intent embedding: %s").

(** The similarity map of the stage when some candidate has an embedding. *)
Definition similarity_map_of (E : Env) (d : Db) (ids : list Z) (vector : list Q)
    : gmap Z Q :=
  let embedded_ids : gset Z := list_to_set (map ve_venue_id (embedding_rows_in d ids)) in
  let unembedded_ids := filter (fun vid => vid ∉ embedded_ids) ids in
  let similarity_map : gmap Z Q :=
    foldl (fun m vid => <[vid := 1 # 2]> m) ∅ unembedded_ids in
  if decide (embedded_ids = ∅) then similarity_map
  else foldl (fun m (row : Z * Q) => <[row.1 := row.2]> m) similarity_map
         (find_similar_venues E d vector (elements embedded_ids) (size embedded_ids)).




Definition with_http_send (E : Env) (send : http_request -> http_outcome) : Env :=
  {| settings := settings E;
     sin := sin E; cos := cos E; asin := asin E; sqrt := sqrt E; radians := radians E;
     repr_float := repr_float E;
     md5_hexdigest := md5_hexdigest E;
     sha256_hexdigest := sha256_hexdigest E;
     ilike := ilike E;
     cosine_distance := cosine_distance E;
     commit_ok := commit_ok E;
     http_send := send;
     embed := embed E;
     redis_up := redis_up E;
     utc_offset := utc_offset E |}.




(** The sample catalogue with a fresh travel time of 12 minutes cached for
    venue B, checked one hour before the sample clock. *)
Definition sample_db_cached_B : Db :=
  {| venues := venues sample_db;
     venue_slots := venue_slots sample_db;
     venue_blackouts := [];
     bookings := bookings sample_db;
     venue_embeddings := venue_embeddings sample_db;
     intent_embeddings := [];
     travel_time_cache :=
       [{| tt_origin_hash := make_origin_hash sample_env (514545 # 10000) (-25879 # 10000);
           tt_venue_id := 2;
           tt_mode := "drive";
           tt_time_bucket := "weekday_evening";
           tt_travel_minutes := 12;
           tt_last_checked_at := 1771959600000000 - 3600000000 |}] |}.

(** A provider that answers every request with the given response. *)
Definition answering (status_code : Z) (body : option json) : Env :=
  with_http_send sample_env (fun _ => Response status_code body).

(** The ids of the venues in a reply of the endpoint. *)
Definition reply_ids (r : reply) : option (list Z) :=
  match r with
  | Reply200 resp => Some (map s_venue_id (suggestions resp))
  | HTTPException _ _ => None
  end.

(** ** The rest of the Redis cache ([app/services/cache.py]) *)

Definition set_redis (r : gmap string (cache_value * Z)) (w : World) : World :=
  {| w_db := w_db w; w_redis := r; w_log := w_log w; w_sent := w_sent w; w_now := w_now w |}.

(** [RedisCache.delete]. *)
Definition cache_delete (E : Env) (c : RedisCache) (key : string) : M unit :=
  if redis_up E then
    fun w => (Ok tt, set_redis (delete (_key c key) (w_redis w)) w)
  else logger WARNING "[%s] delete failed — %s".

(** [await r.keys(pattern)]: the live keys that the pattern matches.
    [keys_match pattern key] is the glob matching of the Redis server. *)
Definition redis_keys (keys_match : string -> string -> bool) (pattern : string) (w : World)
    : gset string :=
  dom (filter (fun kv => keys_match pattern kv.1 = true /\ w_now w < kv.2.2) (w_redis w)).

Definition clear_pattern (c : RedisCache) : string := "twotable:" +:+ ns c +:+ ":*".

(** [RedisCache.clear]. *)
Definition cache_clear (keys_match : string -> string -> bool) (E : Env) (c : RedisCache)
    : M unit :=
  if redis_up E then
    fun w =>
      let keys := redis_keys keys_match (clear_pattern c) w in
      logger INFO "[%s] Cleared %d keys"
        (set_redis (filter (fun kv => kv.1 ∉ keys) (w_redis w)) w)
  else logger WARNING "[%s] clear failed — %s".

(** [RedisCache.stats]: the number of live entries, or the error. *)
Definition cache_stats (keys_match : string -> string -> bool) (E : Env) (c : RedisCache)
    : World -> string * option Z :=
  fun w =>
    if redis_up E then (ns c, Some (Z.of_nat (size (redis_keys keys_match (clear_pattern c) w))))
    else (ns c, None).

Definition available_venues_cache : RedisCache := {| ns := "available_venues"; ttl := 300 |}.
Definition haversine_cache : RedisCache := {| ns := "haversine"; ttl := 3600 |}.

Definition shared_instances : list RedisCache :=
  [available_venues_cache; haversine_cache; intent_vector_cache; suggest_cache].

(** A glob matcher for the sample environment: [*] is any run of
    characters, [?] any one character, every other character itself. *)
Fixpoint sample_keys_match (pattern s : string) : bool :=
  match pattern with
  | EmptyString => match s with EmptyString => true | _ => false end
  | String p pattern' =>
      if Ascii.eqb p "*" then
        (fix skip (s : string) : bool :=
           sample_keys_match pattern' s
           || match s with
              | EmptyString => false
              | String _ s' => skip s'
              end) s
      else
        match s with
        | EmptyString => false
        | String c s' => (Ascii.eqb p "?" || Ascii.eqb p c) && sample_keys_match pattern' s'
        end
  end.

(** The world at a later instant. *)
Definition at_time (w : World) (t : Z) : World :=
  {| w_db := w_db w; w_redis := w_redis w; w_log := w_log w; w_sent := w_sent w; w_now := t |}.

(** Every entry under the namespace of the suggest cache is an answer, and
    every entry under the namespace of the intent vectors is a vector: what
    [json.loads] gives back has the shape the reader unpacks. *)
Definition redis_well_typed (w : World) : Prop :=
  (forall key v expiry,
     w_redis w !! _key suggest_cache key = Some (v, expiry) ->
     exists sugs txt, v = CachedSuggest sugs txt)
  /\ (forall key v expiry,
        w_redis w !! _key intent_vector_cache key = Some (v, expiry) ->
        exists vec, v = CachedVector vec).

(** ** The travel time of the scenario test ([app/api/v1/venues.py]) *)

Definition _get_test_travel_time (E : Env) (origin destination : Q * Q) (mode : string)
    : M (option Q) :=
  let travel_mode_map := [("drive", "car"); ("walk", "pedestrian"); ("transit", "car")] in
  let origin_str := repr_float E origin.1 +:+ "," +:+ repr_float E origin.2 in
  let dest_str := repr_float E destination.1 +:+ "," +:+ repr_float E destination.2 in
  resp <- client_send E
            {| rq_method := "GET";
               rq_url := "https://api.tomtom.com/routing/1/calculateRoute/"
                         +:+ origin_str +:+ ":" +:+ dest_str +:+ "/json";
               rq_params := [("key", ROUTING_API_KEY (settings E));
                             ("travelMode", default "car" (assoc_get mode travel_mode_map));
                             ("traffic", "true");
                             ("routeType", "fastest")];
               rq_json := None; rq_headers := [] |} ;;
  if negb (resp.1 =? 200) then ret None
  else
    lift (except_KeyError_IndexError
            (rbind (resp_json resp.2) (fun data =>
             rbind (getitem_str data "routes") (fun routes =>
             rbind (getitem_0 routes) (fun route =>
             rbind (getitem_str route "summary") (fun summary =>
             rbind (getitem_str summary "travelTimeInSeconds") (fun seconds =>
             rbind (truediv_60 seconds) (fun minutes =>
             Ok (py_round minutes 1))))))))).

(** ** Notions for the travel-time cache *)

(** The rows that the cache lookup of [get_travel_time] selects. *)
Definition travel_cache_rows (E : Env) (origin : Q * Q) (venue_id : Z) (mode time_bucket : string)
    (d : Db) : list TravelTimeCache :=
  filter (fun r => cache_row_matches (make_origin_hash E origin.1 origin.2) venue_id mode
                     time_bucket r = true)
         (travel_time_cache d).

Definition travel_time_ttl (E : Env) : Z :=
  TRAVEL_TIME_CACHE_TTL_HOURS (settings E) * 3600 * 1000000.

(** The row that [get_travel_time] writes. *)
Definition travel_time_row (E : Env) (origin : Q * Q) (venue_id : Z) (mode time_bucket : string)
    (minutes : Q) (now : Z) : TravelTimeCache :=
  {| tt_origin_hash := make_origin_hash E origin.1 origin.2; tt_venue_id := venue_id;
     tt_mode := mode; tt_time_bucket := time_bucket;
     tt_travel_minutes := minutes; tt_last_checked_at := now |}.

Definition set_db (d : Db) (w : World) : World := (put_db d w).2.

(** ** Notions for the further properties of the matcher *)

(** The embedding provider is replaced; everything else is as in [E]. *)
Definition with_embed (E : Env) (f : string -> string -> result (list Q)) : Env :=
  {| settings := settings E;
     sin := sin E; cos := cos E; asin := asin E; sqrt := sqrt E; radians := radians E;
     repr_float := repr_float E;
     md5_hexdigest := md5_hexdigest E;
     sha256_hexdigest := sha256_hexdigest E;
     ilike := ilike E;
     cosine_distance := cosine_distance E;
     commit_ok := commit_ok E;
     http_send := http_send E;
     embed := f;
     redis_up := redis_up E;
     utc_offset := utc_offset E |}.

(** A candidate with no travel time, as the loop appends it for a venue
    that is not gated. *)
Definition untimed (v : Venue) : CandidateVenue := {| venue := v; travel_minutes := None |}.

(** [db.add(booking)] followed by a commit. *)
Definition add_booking (d : Db) (b : Booking) : Db :=
  {| venues := venues d; venue_slots := venue_slots d;
     venue_blackouts := venue_blackouts d; bookings := bookings d ++ [b];
     venue_embeddings := venue_embeddings d;
     intent_embeddings := intent_embeddings d;
     travel_time_cache := travel_time_cache d |}.

(** A step keeps the shapes of the entries of Redis. *)
Definition keeps_well_typed (w w' : World) : Prop :=
  redis_well_typed w -> redis_well_typed w'.

(** The world after a computation differs by the trace of requests only. *)
Definition only_sent (w w' : World) : Prop :=
  w_db w' = w_db w /\ w_redis w' = w_redis w /\ w_log w' = w_log w /\ w_now w' = w_now w.

(** Redis is forced to answer or to be down; everything else is as in [E]. *)
Definition with_redis (E : Env) (up : bool) : Env :=
  {| settings := settings E;
     sin := sin E; cos := cos E; asin := asin E; sqrt := sqrt E; radians := radians E;
     repr_float := repr_float E;
     md5_hexdigest := md5_hexdigest E;
     sha256_hexdigest := sha256_hexdigest E;
     ilike := ilike E;
     cosine_distance := cosine_distance E;
     commit_ok := commit_ok E;
     http_send := http_send E;
     embed := embed E;
     redis_up := up;
     utc_offset := utc_offset E |}.

(** Two worlds with the same database and the same clock. *)
Definition same_data (w1 w2 : World) : Prop :=
  w_db w1 = w_db w2 /\ w_now w1 = w_now w2.

(** Run from two such worlds, the two computations return or raise the
    same and leave two such worlds. *)
Definition simulates {A} (m1 m2 : M A) : Prop :=
  forall w1 w2, same_data w1 w2 ->
    (m1 w1).1 = (m2 w2).1 /\ same_data (m1 w1).2 (m2 w2).2.





(** ** More builtins on strings *)

(** [c.isspace()] on ASCII text. *)
Definition py_isspace (c : ascii) : bool :=
  let n := nat_of_ascii c in
  ((9 <=? n)%nat && (n <=? 13)%nat) || ((28 <=? n)%nat && (n <=? 32)%nat).

Fixpoint py_lstrip (s : string) : string :=
  match s with
  | EmptyString => EmptyString
  | String c s' => if py_isspace c then py_lstrip s' else s
  end.

Fixpoint py_rstrip (s : string) : string :=
  match s with
  | EmptyString => EmptyString
  | String c s' =>
      match py_rstrip s' with
      | EmptyString => if py_isspace c then EmptyString else String c EmptyString
      | r => String c r
      end
  end.

(** [s.strip()]. *)
Definition py_strip (s : string) : string := py_lstrip (py_rstrip s).

(** [sub in s]. *)
Fixpoint py_contains (sub s : string) : bool :=
  String.prefix sub s
  || match s with
     | EmptyString => false
     | String _ s' => py_contains sub s'
     end.

(** [s.split(sep)] for a separator of one character. *)
Fixpoint py_split (sep : ascii) (s : string) : list string :=
  match s with
  | EmptyString => [EmptyString]
  | String c s' =>
      if Ascii.eqb c sep then EmptyString :: py_split sep s'
      else match py_split sep s' with
           | h :: t => String c h :: t
           | [] => [String c EmptyString]
           end
  end.

(** ** Date-appropriateness filter ([app/api/v1/venues.py]) *)

Definition _NON_DATE_CUISINES : list string :=
  ["supermarket"; "grocery"; "convenience store"; "petrol station";
   "fast food"; "takeaway"; "off licence"; "newsagent"; "pharmacy";
   "bakery"; "butcher"; "fishmonger"; "food court";
   "bagel shop"; "sandwich shop"; "juice bar"; "chicken restaurant";
   "sports bar"].

Definition _NON_DATE_VIBES : list string :=
  ["family friendly"; "kids"; "canteen"; "buffet"; "cafeteria"].

Definition _NON_DATE_VENUE_TYPES : list string :=
  ["event venue"; "coffee shop"; "newsagent"].

(** [x in xs] for a set of strings. *)
Definition str_in (x : string) (xs : list string) : bool := existsb (String.eqb x) xs.

Definition _is_date_appropriate (venue : Venue) : bool :=
  let cuisine_rejects :=
    match v_cuisine venue with
    | Some (String _ _ as cuisine) =>
        let cuisine_lower := py_strip (py_lower cuisine) in
        if existsb (fun bad => py_contains bad cuisine_lower) _NON_DATE_CUISINES then true
        else if str_in cuisine_lower _NON_DATE_VENUE_TYPES then true
        else false
    | _ => false
    end in
  if cuisine_rejects then false
  else
    match v_vibe_tags venue with
    | Some (String _ _ as vibe_tags) =>
        let tags := map (fun t => py_lower (py_strip t)) (py_split "," vibe_tags) in
        if existsb (fun tag => str_in tag _NON_DATE_VIBES) tags then false else true
    | _ => true
    end.

(** [sub] occurs in [s]. *)
Definition is_substring (sub s : string) : Prop :=
  exists pre post, s = pre +:+ sub +:+ post.

(** ** Retries of the embedding provider ([app/services/embeddings.py]) *)

Definition _MAX_RETRIES : nat := 3.
Definition _BASE_DELAY : Q := 1.

(** The loop of [_with_retry] over the attempts that are left.
    [coro_fn k] is what the call of the coroutine in attempt [k] returns or
    raises. The result comes with the delays that were slept, in seconds,
    one warning being logged before each. *)
Fixpoint retry_loop {A} (coro_fn : nat -> result A) (attempts : list nat)
    (last_exc : option exn) : result A * list Q :=
  match attempts with
  | [] =>
      (match last_exc with
       | Some exc => Raise exc
       | None => Raise TypeError
       end, [])
  | attempt :: rest =>
      match coro_fn attempt with
      | Ok a => (Ok a, [])
      | Raise exc =>
          let delay := (_BASE_DELAY * inject_Z (2 ^ Z.of_nat attempt))%Q in
          let (r, delays) := retry_loop coro_fn rest (Some exc) in
          (r, delay :: delays)
      end
  end.

Definition _with_retry {A} (coro_fn : nat -> result A) : result A * list Q :=
  retry_loop coro_fn (seq 0 _MAX_RETRIES) None.

(** The delay slept after a failed attempt. *)
Definition retry_delay (attempt : nat) : Q := (_BASE_DELAY * inject_Z (2 ^ Z.of_nat attempt))%Q.

(** ** Source texts of venues ([app/services/embeddings.py]) *)

Definition TASK_DOCUMENT : string := "RETRIEVAL_DOCUMENT".

Definition build_venue_source_text (venue : Venue) : string :=
  let raw_tags := default "" (v_vibe_tags venue) in
  let tags :=
    map py_strip
        (filter (fun t => negb (String.eqb (py_strip t) "") = true) (py_split "," raw_tags)) in
  let parts := ["Venue: " +:+ v_name venue; "City: " +:+ v_city venue] in
  let parts := match v_cuisine venue with
               | Some (String _ _ as cuisine) => parts ++ ["Cuisine: " +:+ cuisine]
               | _ => parts
               end in
  let parts := match tags with
               | [] => parts
               | _ => parts ++ ["Vibes: " +:+ join ", " tags]
               end in
  let parts := match v_price_band venue with
               | Some band => parts ++ ["Price: " +:+ price_band_value band]
               | None => parts
               end in
  let parts := match v_noise_level venue with
               | Some level => parts ++ ["Noise: " +:+ noise_level_value level]
               | None => parts
               end in
  let parts := match v_description venue with
               | Some (String _ _ as description) => parts ++ ["Description: " +:+ description]
               | _ => parts
               end in
  join ". " parts +:+ ".".

(** ** Writing venue embeddings ([app/services/venue_embeddings.py])

    The model of the table keeps the columns [venue_id], [embedding] and
    [source_text]. [commit_embedding_ok row] tells whether the commit of a
    write of [row] goes through. *)


Definition with_venue_embeddings (d : Db) (rows : list VenueEmbedding) : Db :=
  {| venues := venues d; venue_slots := venue_slots d;
     venue_blackouts := venue_blackouts d; bookings := bookings d;
     venue_embeddings := rows;
     intent_embeddings := intent_embeddings d;
     travel_time_cache := travel_time_cache d |}.

(** The rows after [row.embedding = ...; row.source_text = ...] on the
    selected row, or after [db.add(VenueEmbedding(...))]. *)
Definition updated_or_added (d : Db) (row : option VenueEmbedding) (new_row : VenueEmbedding)
    : list VenueEmbedding :=
  match row with
  | Some _ =>
      map (fun r => if decide (ve_venue_id r = ve_venue_id new_row) then new_row else r)
          (venue_embeddings d)
  | None => venue_embeddings d ++ [new_row]
  end.

Definition commit_embedding (commit_embedding_ok : VenueEmbedding -> bool) (d : Db)
    (row : option VenueEmbedding) (new_row : VenueEmbedding) : M unit :=
  if commit_embedding_ok new_row
  then put_db (with_venue_embeddings d (updated_or_added d row new_row))
  else raise DBAPIError.

Definition upsert_venue_embedding (commit_embedding_ok : VenueEmbedding -> bool) (E : Env)
    (venue : Venue) : M VenueEmbedding :=
  let source_text := build_venue_source_text venue in
  vector <- lift (embed E source_text TASK_DOCUMENT) ;;
  d <- get_db ;;
  row <- lift (scalar_one_or_none
                 (filter (fun r => ve_venue_id r = v_id venue) (venue_embeddings d))) ;;
  let new_row := {| ve_venue_id := v_id venue; ve_embedding := vector;
                    ve_source_text := Some source_text |} in
  match row with
  | Some _ => logger INFO "Updated embedding for venue_id=%d (%s)"
  | None => logger INFO "Created embedding for venue_id=%d (%s)"
  end ;;;
  commit_embedding commit_embedding_ok d row new_row ;;;
  ret new_row.





(** What the bulk job leaves untouched, and the uniqueness of the rows per
    venue that it keeps. *)
Definition only_venue_embeddings (w w' : World) : Prop :=
  venues (w_db w') = venues (w_db w)
  /\ venue_slots (w_db w') = venue_slots (w_db w)
  /\ venue_blackouts (w_db w') = venue_blackouts (w_db w)
  /\ bookings (w_db w') = bookings (w_db w)
  /\ intent_embeddings (w_db w') = intent_embeddings (w_db w)
  /\ travel_time_cache (w_db w') = travel_time_cache (w_db w)
  /\ w_redis w' = w_redis w
  /\ w_sent w' = w_sent w
  /\ (NoDup (map ve_venue_id (venue_embeddings (w_db w)))
      -> NoDup (map ve_venue_id (venue_embeddings (w_db w')))).

(** ** The available venues ([app/api/v1/venues.py]) *)

Definition _origin_hash (E : Env) (lat lng : Q) : string :=
  repr_float E (py_round lat 3) +:+ "," +:+ repr_float E (py_round lng 3).

Definition _available_cache_key (E : Env) (city : string) (weekday : Z)
    (time_str origin_hash mode : string) (max_travel_min : Z) : string :=
  let raw := city +:+ "|" +:+ str_int weekday +:+ "|" +:+ time_str +:+ "|" +:+ origin_hash
             +:+ "|" +:+ mode +:+ "|" +:+ str_int max_travel_min in
  md5_hexdigest E raw.

Record VenueDict := {
  d_id : Z;
  d_name : string;
  d_address : string;
  d_lat : option Q;
  d_lng : option Q;
  d_city : string;
  d_cuisine : option string;
  d_price_band : option string;
  d_noise_level : option string;
  d_vibe_tags : option string;
  d_description : option string;
  d_travel_minutes : option Q;
}.

Definition _venue_dict (v : Venue) (travel_minutes : option Q) : VenueDict :=
  {| d_id := v_id v;
     d_name := v_name v;
     d_address := v_address v;
     d_lat := v_lat v;
     d_lng := v_lng v;
     d_city := v_city v;
     d_cuisine := v_cuisine v;
     d_price_band := option_map price_band_value (v_price_band v);
     d_noise_level := option_map noise_level_value (v_noise_level v);
     d_vibe_tags := v_vibe_tags v;
     d_description := v_description v;
     d_travel_minutes := travel_minutes |}.

Record AvailableResponse := { a_count : Z; a_venues : list VenueDict }.

(** The values of the caches [available_venues_cache] and
    [haversine_cache] are kept apart from the store of the caches of the
    matcher: what [get] answers for a key is given, and what is [set] is
    returned with the response, oldest first. *)
Inductive cache_write :=
| HaversineSet (key : string) (ids : list Z)
| AvailableSet (key : string) (response : AvailableResponse).

(** The loop over the venues that are left. [travel v] is the call
    [get_travel_time(origin, (v.lat, v.lng), v.id, db, mode)]. *)
Fixpoint available_travel_loop (travel : Venue -> M (option Q)) (max_travel_min : Z)
    (vs : list Venue) : M (list VenueDict) :=
  match vs with
  | [] => ret []
  | v :: rest =>
      travel_minutes <- travel v ;;
      match travel_minutes with
      | None =>
          logger WARNING "Travel time None for venue_id=%d (%s)" ;;;
          available_travel_loop travel max_travel_min rest
      | Some t =>
          if Qltb (inject_Z max_travel_min) t
          then available_travel_loop travel max_travel_min rest
          else
            output <- available_travel_loop travel max_travel_min rest ;;
            ret (_venue_dict v (Some t) :: output)
      end
  end.

Definition get_available_venues (E : Env)
    (available_get : string -> option AvailableResponse)
    (haversine_get : string -> option (list Z))
    (travel : Venue -> M (option Q))
    (date : date_type) (time : time_type) (city : string) (origin_lat origin_lng : option Q)
    (mode : string) (max_travel_min : Z) : M (AvailableResponse * list cache_write) :=
  let weekday := weekday_of date in
  (* Redis cache check *)
  let origin_hash :=
    match origin_lat, origin_lng with
    | Some lat, Some lng =>
        if truthy origin_lat && truthy origin_lng then _origin_hash E lat lng else "none"
    | _, _ => "none"
    end in
  let cache_key := _available_cache_key E city weekday (str_time time) origin_hash mode
                     max_travel_min in
  match available_get cache_key with
  | Some cached =>
      logger INFO "available_venues Redis HIT key=%s" ;;;
      ret (cached, [])
  | None =>
      (* Layer 1: SQL *)
      d <- get_db ;;
      let venues := select_open_venues E d city weekday time in
      logger INFO "SQL layer: %d venues" ;;;
      (* Layer 2: Blackout filter *)
      d <- get_db ;;
      let blacked_out_ids := select_blacked_out d date in
      let venues := filter (fun v => v_id v ∉ blacked_out_ids) venues in
      (* Layer 3: Date-appropriateness *)
      let venues := filter (fun v => _is_date_appropriate v = true) venues in
      logger INFO "After date filter: %d venues" ;;;
      (* Layer 4 + 5: Haversine + TomTom *)
      result <-
        match origin_lat, origin_lng with
        | Some olat, Some olng =>
            let haversine_key := origin_hash +:+ "|" +:+ mode +:+ "|"
                                 +:+ str_int max_travel_min in
            kept <-
              match haversine_get haversine_key with
              | Some cached_ids =>
                  logger INFO "haversine Redis HIT — %d ids" ;;;
                  ret (filter (fun v => v_id v ∈ cached_ids) venues, [])
              | None =>
                  let venues' := prefilter_by_distance E venues olat olng mode
                                   max_travel_min in
                  logger INFO "Haversine: %d → %d venues (radius=%.2fkm)" ;;;
                  ret (venues', [HaversineSet haversine_key (map v_id venues')])
              end ;;
            output <- available_travel_loop travel max_travel_min kept.1 ;;
            ret (output, kept.2)
        | _, _ => ret (map (fun v => _venue_dict v None) venues, [])
        end ;;
      let response := {| a_count := Z.of_nat (length result.1); a_venues := result.1 |} in
      logger INFO "available_venues Redis SET — %d venues" ;;;
      ret (response, result.2 ++ [AvailableSet cache_key response])
  end.

(** The keys that the endpoint computes for a request. *)
Definition available_key_of (E : Env) (date : date_type) (time : time_type) (city : string)
    (origin_lat origin_lng : option Q) (mode : string) (max_travel_min : Z) : string :=
  _available_cache_key E city (weekday_of date) (str_time time)
    match origin_lat, origin_lng with
    | Some lat, Some lng =>
        if truthy origin_lat && truthy origin_lng then _origin_hash E lat lng else "none"
    | _, _ => "none"
    end
    mode max_travel_min.

Definition haversine_key_of (E : Env) (origin_lat origin_lng : option Q) (mode : string)
    (max_travel_min : Z) : string :=
  match origin_lat, origin_lng with
  | Some lat, Some lng =>
      if truthy origin_lat && truthy origin_lng then _origin_hash E lat lng else "none"
  | _, _ => "none"
  end +:+ "|" +:+ mode +:+ "|" +:+ str_int max_travel_min.

(** The call of [get_travel_time] for the venues of the sample catalogue,
    which all have coordinates. *)
Definition sample_travel (olat olng : Q) (mode : string) (v : Venue) : M (option Q) :=
  get_travel_time sample_env (olat, olng) (default 0%Q (v_lat v), default 0%Q (v_lng v))
    (v_id v) mode.

(** * Properties *)

(** ** The monad *)

Lemma bind_Ok {A B} (m : M A) (f : A -> M B) w b w' :
  bind m f w = (Ok b, w') ->
  exists a w1, m w = (Ok a, w1) /\ f a w1 = (Ok b, w').
Proof.
  unfold bind. destruct (m w) as [[a|e] w1]; [eauto | discriminate].
Qed.

Lemma bind_Raise {A B} (m : M A) (f : A -> M B) w e w' :
  bind m f w = (Raise e, w') ->
  m w = (Raise e, w') \/ exists a w1, m w = (Ok a, w1) /\ f a w1 = (Raise e, w').
Proof.
  unfold bind. destruct (m w) as [[a|e0] w1]; [eauto | left; congruence].
Qed.

Lemma bind_fst_Ok {A B} (m : M A) (f : A -> M B) w b :
  (bind m f w).1 = Ok b ->
  exists a w1, m w = (Ok a, w1) /\ (f a w1).1 = Ok b.
Proof.
  unfold bind. destruct (m w) as [[a|e] w1]; [eauto | discriminate].
Qed.

Lemma rbind_Ok {A B} (r : result A) (f : A -> result B) b :
  rbind r f = Ok b -> exists a, r = Ok a /\ f a = Ok b.
Proof. destruct r; simpl; [eauto | discriminate]. Qed.

(** ** Comparisons *)

Lemma Qleb_le x y : Qleb x y = true <-> (x <= y)%Q.
Proof. apply Qle_bool_iff. Qed.

Lemma Qltb_lt x y : Qltb x y = true <-> (x < y)%Q.
Proof.
  unfold Qltb. rewrite negb_true_iff. split.
  - intros H. apply Qnot_le_lt. intros Hle. apply Qle_bool_iff in Hle. congruence.
  - intros H. destruct (Qle_bool y x) eqn:Hb; [|done].
    apply Qle_bool_iff in Hb. lra.
Qed.

Lemma Qltb_false x y : Qltb x y = false <-> (y <= x)%Q.
Proof.
  unfold Qltb. rewrite negb_false_iff. apply Qle_bool_iff.
Qed.

Lemma tuple_le_spec a b :
  tuple_le a b <-> (a.1 < b.1)%Q \/ ((a.1 == b.1)%Q /\ a.2 <= b.2).
Proof.
  unfold tuple_le. destruct (a.1 ?= b.1)%Q eqn:Hc.
  - apply Qeq_alt in Hc. split; [auto|]. intros [H|[_ H]]; [lra | done].
  - apply Qlt_alt in Hc. split; [auto | done].
  - apply Qgt_alt in Hc. split; [done|]. intros [H|[H _]]; lra.
Qed.

#[global] Instance tuple_le_total : Total tuple_le.
Proof.
  intros a b. rewrite !tuple_le_spec.
  destruct (Qlt_le_dec a.1 b.1) as [H|H]; [auto|].
  destruct (Qlt_le_dec b.1 a.1) as [H'|H']; [auto|].
  assert (a.1 == b.1)%Q by lra.
  destruct (Z.le_gt_cases a.2 b.2); [left | right]; right; split; try lia; lra.
Qed.

#[global] Instance tuple_le_trans : Transitive tuple_le.
Proof.
  intros a b c. rewrite !tuple_le_spec.
  intros [H1|[H1 H1']] [H2|[H2 H2']]; try (left; lra).
  right. split; [lra | lia].
Qed.

Lemma tuple_le_score a b : tuple_le a b -> (a.1 <= b.1)%Q.
Proof. rewrite tuple_le_spec. intros [H|[H _]]; lra. Qed.

(** ** The geo pre-filter *)

Lemma speed_table mode :
  default (1 # 2) (_SPEED_KM_PER_MIN !! mode) = per_mode_speed_km_per_min mode.
Proof.
  unfold _SPEED_KM_PER_MIN, per_mode_speed_km_per_min.
  destruct (String.eqb_spec mode "walk") as [->|Hw]; [by rewrite lookup_insert_eq|].
  rewrite lookup_insert_ne by done.
  destruct (String.eqb_spec mode "drive") as [->|Hd]; [by rewrite lookup_insert_eq|].
  rewrite lookup_insert_ne by done.
  destruct (String.eqb_spec mode "transit") as [->|Ht]; [by rewrite lookup_insert_eq|].
  rewrite lookup_insert_ne by done. by rewrite lookup_empty.
Qed.

Lemma speed_nonneg mode : (0 <= per_mode_speed_km_per_min mode)%Q.
Proof.
  unfold per_mode_speed_km_per_min.
  repeat match goal with |- context [String.eqb ?a ?b] => destruct (String.eqb a b) end;
    unfold Qle; simpl; lia.
Qed.

Lemma max_radius_mono mode (m1 m2 : Z) :
  m1 <= m2 -> (_max_radius_km mode m1 <= _max_radius_km mode m2)%Q.
Proof.
  intros Hm. unfold _max_radius_km. rewrite speed_table.
  pose proof (speed_nonneg mode) as Hs.
  assert (inject_Z m1 <= inject_Z m2)%Q as Hi by (rewrite <- Zle_Qle; done).
  unfold _SAFETY_FACTOR. nra.
Qed.

(** C5. The radius of the geo pre-filter is
    [per_mode_speed_km_per_min(mode) * max_minutes * 1.8] with the speeds
    walk 0.083, drive 0.5, transit 0.4 and drive's speed for any other
    mode; it is non-decreasing in the budget, and a venue retained at budget
    [m1] is retained at every budget [m2 >= m1]. *)
Theorem C5_prefilter_radius_monotone (E : Env) (mode : string) (m1 m2 : Z)
    (vs : list Venue) (origin_lat origin_lng : Q) :
  m1 <= m2 ->
  _max_radius_km mode m1 = (per_mode_speed_km_per_min mode * inject_Z m1 * (18 # 10))%Q
  /\ per_mode_speed_km_per_min "walk" = 83 # 1000
  /\ per_mode_speed_km_per_min "drive" = 1 # 2
  /\ per_mode_speed_km_per_min "transit" = 2 # 5
  /\ (mode <> "walk" -> mode <> "drive" -> mode <> "transit" ->
      per_mode_speed_km_per_min mode = per_mode_speed_km_per_min "drive")
  /\ (_max_radius_km mode m1 <= _max_radius_km mode m2)%Q
  /\ (forall v, v ∈ prefilter_by_distance E vs origin_lat origin_lng mode m1 ->
                v ∈ prefilter_by_distance E vs origin_lat origin_lng mode m2).
Proof.
  intros Hm. split; [|split; [|split; [|split; [|split; [|split]]]]]; try reflexivity.
  - unfold _max_radius_km. by rewrite speed_table.
  - intros Hw Hd Ht. unfold per_mode_speed_km_per_min.
    apply String.eqb_neq in Hw, Hd, Ht. by rewrite Hw, Hd, Ht.
  - by apply max_radius_mono.
  - intros v. unfold prefilter_by_distance. rewrite !list_elem_of_filter.
    intros [Hin Hv]. split; [|done].
    unfold within_radius in *. destruct (v_lat v), (v_lng v); try done.
    apply Qleb_le. apply Qleb_le in Hin.
    pose proof (max_radius_mono mode m1 m2 Hm). lra.
Qed.

Lemma C5_prefilter_radius_monotone_witness :
  (_max_radius_km "walk" 20 <= _max_radius_km "walk" 45)%Q
  /\ forall v, v ∈ prefilter_by_distance sample_env (venues sample_db) 0 0 "walk" 20 ->
               v ∈ prefilter_by_distance sample_env (venues sample_db) 0 0 "walk" 45.
Proof.
  pose proof (C5_prefilter_radius_monotone sample_env "walk" 20 45 (venues sample_db) 0 0)
    as H.
  assert (20 <= 45) as Hle by lia.
  destruct (H Hle) as (_ & _ & _ & _ & _ & Hr & Hv). split; assumption.
Defined.

(** ** The final scoring *)

Lemma final_scoring_Permutation sim loads ids :
  final_scoring sim loads ids ≡ₚ map (fun vid => (score_of sim loads vid, vid)) ids.
Proof. apply merge_sort_Permutation. Qed.

Lemma final_scoring_sorted sim loads ids :
  StronglySorted tuple_le (final_scoring sim loads ids).
Proof. apply StronglySorted_merge_sort; apply _. Qed.

Lemma elem_of_final_scoring sim loads ids s vid :
  (s, vid) ∈ final_scoring sim loads ids <-> vid ∈ ids /\ s = score_of sim loads vid.
Proof.
  rewrite final_scoring_Permutation, list_elem_of_In, in_map_iff.
  split.
  - intros (v & Hv & Hin). inversion Hv; subst. by rewrite list_elem_of_In.
  - intros [Hin ->]. exists vid. by rewrite <- list_elem_of_In.
Qed.


Lemma StronglySorted_lookup_le (l : list (Q * Z)) i j a b :
  StronglySorted tuple_le l -> (i < j)%nat -> l !! i = Some a -> l !! j = Some b ->
  tuple_le a b.
Proof.
  intros Hs. revert i j. induction Hs as [|x l Hl IH Hall]; intros i j Hij Hi Hj.
  - by rewrite lookup_nil in Hi.
  - destruct j as [|j]; [lia|]. destruct i as [|i]; simpl in *.
    + inversion Hi; subst. rewrite Forall_forall in Hall. apply Hall.
      by eapply list_elem_of_lookup_2.
    + eapply IH; [|done..]. lia.
Qed.

(** Of two entries, the one that is strictly smaller as a tuple comes
    first. *)
Lemma sorted_smaller_tuple_first (l : list (Q * Z)) sx x sy y :
  StronglySorted tuple_le l -> (sx, x) ∈ l -> (sy, y) ∈ l -> ~ tuple_le (sy, y) (sx, x) ->
  ranked_ahead x y l.
Proof.
  intros Hs Hx Hy Hlt.
  apply list_elem_of_lookup in Hx as [i Hi]. apply list_elem_of_lookup in Hy as [j Hj].
  destruct (lt_eq_lt_dec i j) as [[Hij|Heq]|Hji].
  - exists i, j, sx, sy. done.
  - subst. rewrite Hi in Hj. inversion Hj; subst. destruct Hlt.
    apply tuple_le_spec. right. simpl. split; [reflexivity | lia].
  - destruct Hlt. by apply (StronglySorted_lookup_le l j i).
Qed.

(** Two entries with different scores appear in the order of their scores. *)
Lemma sorted_lower_score_first (l : list (Q * Z)) sx x sy y :
  StronglySorted tuple_le l -> (sx, x) ∈ l -> (sy, y) ∈ l -> (sx < sy)%Q ->
  ranked_ahead x y l.
Proof.
  intros Hs Hx Hy Hlt. eapply sorted_smaller_tuple_first; [done..|].
  intros Hle. apply tuple_le_score in Hle. simpl in Hle. lra.
Qed.

Lemma ranked_ahead_score_le sim loads ids x y :
  ranked_ahead x y (final_scoring sim loads ids) ->
  (score_of sim loads x <= score_of sim loads y)%Q.
Proof.
  intros (i & j & sx & sy & Hij & Hi & Hj).
  pose proof (StronglySorted_lookup_le _ i j _ _ (final_scoring_sorted sim loads ids) Hij Hi Hj)
    as Hle.
  apply tuple_le_score in Hle. simpl in Hle.
  apply list_elem_of_lookup_2, elem_of_final_scoring in Hi as [_ ->].
  apply list_elem_of_lookup_2, elem_of_final_scoring in Hj as [_ ->]. done.
Qed.

(** C6, as the code has it. Two candidates with the same similarity, one
    with a strictly lower load factor than the other. If the similarity is
    not negative the score of the first is no greater; if it is strictly
    positive the score of the first is strictly lower and it is ranked
    ahead, never behind; if it is zero both scores are zero and the lower
    venue id is ranked ahead. *)
Theorem C6_lower_load_ranks_ahead (sim loads : gmap Z Q) (ids : list Z) (a b : Z) :
  a ∈ ids -> b ∈ ids ->
  (default (1 # 2) (sim !! a) == default (1 # 2) (sim !! b))%Q ->
  (default 0 (loads !! a) < default 0 (loads !! b))%Q ->
  ((0 <= default (1 # 2) (sim !! a))%Q ->
   (score_of sim loads a <= score_of sim loads b)%Q)
  /\ ((0 < default (1 # 2) (sim !! a))%Q ->
      (score_of sim loads a < score_of sim loads b)%Q
      /\ ranked_ahead a b (final_scoring sim loads ids)
      /\ ~ ranked_ahead b a (final_scoring sim loads ids))
  /\ ((default (1 # 2) (sim !! a) == 0)%Q ->
      (score_of sim loads a == 0)%Q /\ (score_of sim loads b == 0)%Q
      /\ (a < b -> ranked_ahead a b (final_scoring sim loads ids))
      /\ (b < a -> ranked_ahead b a (final_scoring sim loads ids))).
Proof.
  intros Ha Hb Hsim Hload. split; [|split].
  - intros Hpos. unfold score_of, _MAX_LOAD_PENALTY. rewrite <- Hsim. nra.
  - intros Hpos.
    assert (score_of sim loads a < score_of sim loads b)%Q as Hlt.
    { unfold score_of, _MAX_LOAD_PENALTY. rewrite <- Hsim. nra. }
    split; [done|]. split.
    + eapply sorted_lower_score_first; [apply final_scoring_sorted| | |exact Hlt];
        apply elem_of_final_scoring; done.
    + intros Hba. apply ranked_ahead_score_le in Hba. lra.
  - intros Hzero.
    assert (score_of sim loads a == 0)%Q as Hsa.
    { unfold score_of. rewrite Hzero. ring. }
    assert (score_of sim loads b == 0)%Q as Hsb.
    { unfold score_of. rewrite <- Hsim, Hzero. ring. }
    split; [done|]. split; [done|]. split; intros Hlt.
    + eapply sorted_smaller_tuple_first; [apply final_scoring_sorted| | |];
        [by apply elem_of_final_scoring..|].
      rewrite tuple_le_spec. simpl. intros [H|[_ H]]; [lra | lia].
    + eapply sorted_smaller_tuple_first; [apply final_scoring_sorted| | |];
        [by apply elem_of_final_scoring..|].
      rewrite tuple_le_spec. simpl. intros [H|[_ H]]; [lra | lia].
Qed.

Lemma C6_lower_load_ranks_ahead_witness :
  ranked_ahead 1 2 (final_scoring (<[1 := 1 # 2]> (<[2 := 1 # 2]> ∅))
                                  (<[1 := 0%Q]> (<[2 := 4 # 5]> ∅)) [2; 1]).
Proof.
  destruct (C6_lower_load_ranks_ahead (<[1 := 1 # 2]> (<[2 := 1 # 2]> ∅))
                                      (<[1 := 0%Q]> (<[2 := 4 # 5]> ∅)) [2; 1] 1 2)
    as (_ & H & _).
  - apply list_elem_of_In. simpl. tauto.
  - apply list_elem_of_In. simpl. tauto.
  - vm_compute. reflexivity.
  - vm_compute. reflexivity.
  - destruct H as (_ & H & _); [vm_compute; reflexivity | exact H].
Defined.

(** C6 as stated fails when the common similarity is 0: venue 2 has the
    strictly lower load, both scores are 0, and venue 1 comes first. *)
Lemma C6_counterexample :
  let sim : gmap Z Q := <[1 := 0%Q]> (<[2 := 0%Q]> ∅) in
  let loads : gmap Z Q := <[1 := 4 # 5]> (<[2 := 0%Q]> ∅) in
  (default (1 # 2) (sim !! 1%Z) == default (1 # 2) (sim !! 2%Z))%Q
  /\ (default 0 (loads !! 2%Z) < default 0 (loads !! 1%Z))%Q
  /\ map snd (final_scoring sim loads [1; 2]) = [1; 2]
  /\ map snd (final_scoring sim loads [2; 1]) = [1; 2]
  /\ ~ ranked_ahead 2 1 (final_scoring sim loads [1; 2]).
Proof.
  split; [vm_compute; reflexivity|]. split; [vm_compute; reflexivity|].
  split; [vm_compute; reflexivity|]. split; [vm_compute; reflexivity|].
  intros (i & j & sx & sy & Hij & Hi & Hj).
  vm_compute in Hi, Hj.
  destruct i as [|[|i]]; destruct j as [|[|j]]; try lia; try discriminate.
Qed.
(** ** Frames *)

#[global] Instance frame_refl : Reflexive frame.
Proof. intros w. unfold frame, same_catalogue. tauto. Qed.

#[global] Instance frame_trans : Transitive frame.
Proof.
  intros w1 w2 w3. unfold frame, same_catalogue.
  intros [(?&?&?&?&?) (?&?&?)] [(?&?&?&?&?) (?&?&?)].
  repeat split; congruence.
Qed.

Lemma preserves_ret {A} (R : relation World) `{!Reflexive R} (a : A) : preserves R (ret a).
Proof. intros w. simpl. reflexivity. Qed.

Lemma preserves_raise {A} (R : relation World) `{!Reflexive R} e : preserves R (@raise A e).
Proof. intros w. simpl. reflexivity. Qed.

Lemma preserves_lift {A} (R : relation World) `{!Reflexive R} (r : result A) :
  preserves R (lift r).
Proof. intros w. simpl. reflexivity. Qed.

Lemma preserves_bind {A B} (R : relation World) `{!Transitive R} (m : M A) (f : A -> M B) :
  preserves R m -> (forall a, preserves R (f a)) -> preserves R (bind m f).
Proof.
  intros Hm Hf w. unfold bind. specialize (Hm w).
  destruct (m w) as [[a|e] w1]; simpl in *; [|done].
  etransitivity; [exact Hm | apply Hf].
Qed.

Lemma preserves_try_except {A} (R : relation World) `{!Transitive R} (m : M A) h :
  preserves R m -> (forall e, preserves R (h e)) -> preserves R (try_except m h).
Proof.
  intros Hm Hh w. unfold try_except. specialize (Hm w).
  destruct (m w) as [[a|e] w1]; simpl in *; [done|].
  etransitivity; [exact Hm | apply Hh].
Qed.

Lemma frame_logger lvl msg : preserves frame (logger lvl msg).
Proof. intros w. unfold frame, same_catalogue. simpl. tauto. Qed.

Lemma frame_get_db : preserves frame get_db.
Proof. intros w. simpl. reflexivity. Qed.

Lemma frame_now_utc : preserves frame now_utc.
Proof. intros w. simpl. reflexivity. Qed.

Lemma frame_get_time_bucket E : preserves frame (get_time_bucket E).
Proof. intros w. simpl. reflexivity. Qed.

Lemma frame_client_send E rq : preserves frame (client_send E rq).
Proof.
  intros w. unfold client_send. destruct (http_send E rq); unfold frame, same_catalogue; simpl; tauto.
Qed.

Lemma frame_commit_travel E wr :
  (forall row, wr <> InsertIntentEmbedding row) -> preserves frame (commit E wr).
Proof.
  intros Hwr w. unfold commit. destruct (commit_ok E wr); [|reflexivity].
  unfold frame, same_catalogue. destruct wr; simpl; try tauto. by destruct (Hwr row).
Qed.

Create HintDb frame.
#[global] Hint Resolve frame_logger frame_get_db frame_now_utc frame_get_time_bucket
  frame_client_send : frame.

Ltac frame_step :=
  lazymatch goal with
  | |- preserves _ (bind _ _) => apply preserves_bind; [apply _| |intros ?]
  | |- preserves _ (ret _) => apply preserves_ret; apply _
  | |- preserves _ (raise _) => apply preserves_raise; apply _
  | |- preserves _ (lift _) => apply preserves_lift; apply _
  | |- preserves _ (if ?b then _ else _) => destruct b
  | |- preserves _ (match ?x with Some _ => _ | None => _ end) => destruct x
  | |- preserves frame (commit _ _) => apply frame_commit_travel; intros ?; discriminate
  | |- preserves frame _ => solve [auto with frame]
  end.

Lemma frame_fetch_tomtom E o d mode : preserves frame (_fetch_tomtom E o d mode).
Proof. unfold _fetch_tomtom. repeat frame_step. Qed.

Lemma frame_fetch_ors E o d mode : preserves frame (_fetch_ors E o d mode).
Proof. unfold _fetch_ors. repeat frame_step. Qed.

Lemma frame_fetch_mapbox E o d mode : preserves frame (_fetch_mapbox E o d mode).
Proof. unfold _fetch_mapbox. repeat frame_step. Qed.

#[global] Hint Resolve frame_fetch_tomtom frame_fetch_ors frame_fetch_mapbox : frame.

Lemma frame_call_provider E o d mode : preserves frame (call_provider E o d mode).
Proof. unfold call_provider. repeat frame_step. Qed.

#[global] Hint Resolve frame_call_provider : frame.

Lemma frame_get_travel_time E o d vid mode : preserves frame (get_travel_time E o d vid mode).
Proof. unfold get_travel_time. repeat frame_step. Qed.

#[global] Hint Resolve frame_get_travel_time : frame.

Lemma frame_travel_gate E olat olng mode max v :
  preserves frame (travel_gate E olat olng mode max v).
Proof.
  unfold travel_gate. destruct olat, olng, (v_lat v), (v_lng v); repeat frame_step.
Qed.

#[global] Hint Resolve frame_travel_gate : frame.

Lemma frame_travel_loop E olat olng mode max vs :
  preserves frame (travel_loop E olat olng mode max vs).
Proof. induction vs as [|v vs IH]; simpl; repeat frame_step. Qed.

#[global] Hint Resolve frame_travel_loop : frame.

Lemma frame_hard_filter E city d t olat olng mode max :
  preserves frame (_get_hard_filtered_candidates E city d t olat olng mode max).
Proof.
  unfold _get_hard_filtered_candidates. repeat frame_step.
Qed.
(** ** Layer 1 *)

Lemma only_logged_refl w : only_logged w w.
Proof. unfold only_logged. tauto. Qed.

Lemma only_logged_logger lvl msg w : only_logged w (logger lvl msg w).2.
Proof. unfold only_logged. simpl. tauto. Qed.

Lemma prefilter_nil E olat olng mode max : prefilter_by_distance E [] olat olng mode max = [].
Proof. reflexivity. Qed.

Lemma hard_filter_as_loop E city d t olat olng mode max w :
  exists w0, only_logged w w0
    /\ _get_hard_filtered_candidates E city d t olat olng mode max w
       = travel_loop E olat olng mode max
           (surviving_venues E (w_db w) city d t olat olng mode max) w0.
Proof.
  unfold _get_hard_filtered_candidates, surviving_venues, available_venues.
  unfold bind at 1. simpl.
  destruct (select_open_venues E (w_db w) city (weekday_of d) t) as [|v0 vs0] eqn:Hsel.
  { exists w. split; [apply only_logged_refl|]. rewrite filter_nil.
    destruct olat, olng; reflexivity. }
  destruct (filter _ (v0 :: vs0)) as [|v1 vs1] eqn:Hf.
  { exists w. split; [apply only_logged_refl|]. destruct olat, olng; reflexivity. }
  destruct olat as [olat|], olng as [olng|].
  - exists (logger INFO "Haversine: %d → %d venues (mode=%s max=%dmin)" w).2.
    split; [apply only_logged_logger|].
    unfold bind. simpl.
    destruct (prefilter_by_distance E (v1 :: vs1) olat olng mode max); reflexivity.
  - exists w. split; [apply only_logged_refl|]. reflexivity.
  - exists w. split; [apply only_logged_refl|]. reflexivity.
  - exists w. split; [apply only_logged_refl|]. reflexivity.
Qed.

Lemma gated_false_travel_gate E olat olng mode max v w :
  gated olat olng v = false ->
  travel_gate E olat olng mode max v w
  = (Ok (Some {| venue := v; travel_minutes := None |}), w).
Proof.
  unfold gated, travel_gate. intros H.
  destruct olat, olng, (v_lat v) eqn:Hlat, (v_lng v) eqn:Hlng; try reflexivity.
  rewrite H. reflexivity.
Qed.

Lemma travel_gate_Some E olat olng mode max v w c w' :
  travel_gate E olat olng mode max v w = (Ok (Some c), w') ->
  venue c = v
  /\ (if gated olat olng v
      then exists o1 o2 lat lng t,
             olat = Some o1 /\ olng = Some o2 /\ v_lat v = Some lat /\ v_lng v = Some lng
             /\ get_travel_time E (o1, o2) (lat, lng) (v_id v) mode w = (Ok (Some t), w')
             /\ travel_minutes c = Some t /\ (t <= inject_Z max)%Q
      else travel_minutes c = None /\ w' = w).
Proof.
  intros H.
  destruct (gated olat olng v) eqn:Hg.
  - unfold gated, travel_gate in *.
    destruct olat as [o1|], olng as [o2|]; try discriminate.
    destruct (v_lat v) as [lat|] eqn:Hlat; [|discriminate].
    destruct (v_lng v) as [lng|] eqn:Hlng; [|simpl in Hg; by rewrite andb_false_r in Hg].
    rewrite Hg in H.
    apply bind_Ok in H as ([t|] & w1 & Hgt & Hk); [|inversion Hk].
    destruct (Qltb (inject_Z max) t) eqn:Hlt; inversion Hk; subst.
    split; [done|]. exists o1, o2, lat, lng, t. repeat split; try done.
    by apply Qltb_false.
  - rewrite gated_false_travel_gate in H by done. inversion H; subst. done.
Qed.

Lemma travel_loop_Ok E olat olng mode max vs w cs w' :
  travel_loop E olat olng mode max vs w = (Ok cs, w') ->
  (forall c, c ∈ cs ->
     venue c ∈ vs
     /\ (if gated olat olng (venue c)
         then exists t, travel_minutes c = Some t /\ (t <= inject_Z max)%Q
         else travel_minutes c = None))
  /\ (forall v, v ∈ vs -> gated olat olng v = false ->
        {| venue := v; travel_minutes := None |} ∈ cs).
Proof.
  revert w cs w'. induction vs as [|v vs IH]; intros w cs w' H; simpl in H.
  - inversion H; subst. split; intros ? Hin; by apply elem_of_nil in Hin.
  - apply bind_Ok in H as (c & w1 & Hgate & H).
    apply bind_Ok in H as (cs' & w2 & Hloop & H). inversion H; subst; clear H.
    destruct (IH _ _ _ Hloop) as [IH1 IH2]. split.
    + intros c0 Hin.
      assert (c0 ∈ cs' -> venue c0 ∈ v :: vs
                /\ (if gated olat olng (venue c0)
                    then exists t, travel_minutes c0 = Some t /\ (t <= inject_Z max)%Q
                    else travel_minutes c0 = None)) as Hrest.
      { intros Hc. destruct (IH1 _ Hc). split; [by apply list_elem_of_further | done]. }
      destruct c as [c|]; [|by apply Hrest].
      apply elem_of_cons in Hin as [->|Hin]; [|by apply Hrest].
      apply travel_gate_Some in Hgate as [Hv Hg]. rewrite Hv.
      split; [apply list_elem_of_here|].
      destruct (gated olat olng v).
      * destruct Hg as (?&?&?&?&t&?&?&?&?&?&?&?). eauto.
      * tauto.
    + intros v0 Hin Hg. apply elem_of_cons in Hin as [->|Hin].
      * rewrite gated_false_travel_gate in Hgate by done. inversion Hgate; subst.
        apply list_elem_of_here.
      * specialize (IH2 _ Hin Hg). destruct c; [by apply list_elem_of_further | done].
Qed.


(** ** Dictionaries built from lists *)

Lemma foldl_insert_lookup {V} (items : list (Z * V)) (m : gmap Z V) k v :
  foldl (fun m kv => <[kv.1 := kv.2]> m) m items !! k = Some v ->
  (k, v) ∈ items \/ m !! k = Some v.
Proof.
  revert m. induction items as [|[k0 v0] items IH]; intros m H; simpl in *; [auto|].
  apply IH in H as [H|H]; [left; by apply list_elem_of_further|].
  destruct (decide (k0 = k)) as [->|Hne].
  - rewrite lookup_insert_eq in H. inversion H; subst. left. apply list_elem_of_here.
  - rewrite lookup_insert_ne in H by done. auto.
Qed.

Lemma foldl_insert_is_Some {V} (items : list (Z * V)) (m : gmap Z V) k :
  k ∈ map fst items \/ is_Some (m !! k) ->
  is_Some (foldl (fun m kv => <[kv.1 := kv.2]> m) m items !! k).
Proof.
  revert m. induction items as [|[k0 v0] items IH]; intros m H; simpl in *.
  - destruct H as [H|H]; [by apply elem_of_nil in H | done].
  - apply IH. destruct H as [H|H].
    + apply elem_of_cons in H as [->|H]; [right | by left].
      rewrite lookup_insert_eq. eauto.
    + right. destruct (decide (k0 = k)) as [->|Hne].
      * rewrite lookup_insert_eq. eauto.
      * by rewrite lookup_insert_ne.
Qed.

Lemma dict_of_list_lookup {V} (items : list (Z * V)) k v :
  dict_of_list items !! k = Some v -> (k, v) ∈ items.
Proof.
  intros H. apply foldl_insert_lookup in H as [H|H]; [done|].
  by rewrite lookup_empty in H.
Qed.

Lemma dict_of_list_is_Some {V} (items : list (Z * V)) k :
  k ∈ map fst items -> is_Some (dict_of_list items !! k).
Proof. intros H. apply foldl_insert_is_Some. by left. Qed.

Lemma neutral_map_lookup (ids : list Z) vid :
  vid ∈ ids -> dict_of_list (map (fun vid => (vid, 1 # 2)) ids) !! vid = Some (1 # 2).
Proof.
  intros Hin.
  destruct (dict_of_list_is_Some (map (fun vid => (vid, 1 # 2)) ids) vid) as [q Hq].
  { rewrite map_map. simpl. by rewrite map_id. }
  rewrite Hq. apply dict_of_list_lookup in Hq.
  apply list_elem_of_In, in_map_iff in Hq as (v & Hv & _). by inversion Hv.
Qed.

(** ** Load factors *)





(** ** Building the suggestions *)

Lemma build_suggestion_Ok cm sim loads texts e s :
  build_suggestion cm sim loads texts e = Ok s ->
  exists c, cm !! e.2 = Some c
    /\ s_venue_id s = v_id (venue c)
    /\ s_travel_minutes s = travel_minutes c
    /\ similarity_score s = py_round (default (1 # 2) (sim !! e.2)) 4
    /\ load_factor s = py_round (default 0%Q (loads !! e.2)) 4
    /\ final_score s = py_round e.1 4.
Proof.
  unfold build_suggestion. destruct (cm !! e.2) as [c|]; [|discriminate].
  intros H. inversion H; subst; clear H. simpl. eauto 10.
Qed.

Lemma build_suggestions_Ok cm sim loads texts top sugs :
  build_suggestions cm sim loads texts top = Ok sugs ->
  Forall2 (fun e s => build_suggestion cm sim loads texts e = Ok s) top sugs.
Proof.
  revert sugs. induction top as [|e top IH]; intros sugs H; simpl in H.
  - inversion H. constructor.
  - apply rbind_Ok in H as (s & Hs & H). apply rbind_Ok in H as (ss & Hss & H).
    inversion H; subst. constructor; auto.
Qed.

Lemma build_suggestions_total cm sim loads texts top :
  (forall e, e ∈ top -> is_Some (cm !! e.2)) ->
  exists sugs, build_suggestions cm sim loads texts top = Ok sugs.
Proof.
  induction top as [|e top IH]; intros H; simpl; [eauto|].
  destruct (H e) as [c Hc]; [apply list_elem_of_here|].
  destruct IH as [ss Hss]; [intros e' He'; apply H; by apply list_elem_of_further|].
  unfold build_suggestion at 1. rewrite Hc. simpl. rewrite Hss. simpl. eauto.
Qed.

Lemma elem_of_py_slice_to {A} (l : list A) n x : x ∈ py_slice_to l n -> x ∈ l.
Proof.
  unfold py_slice_to. destruct (n <? 0); intros H; apply elem_of_take in H as (i & Hi & _);
    by eapply list_elem_of_lookup_2.
Qed.

Lemma py_slice_to_take {A} (l : list A) n : 0 <= n -> py_slice_to l n = take (Z.to_nat n) l.
Proof. intros Hn. unfold py_slice_to. destruct (n <? 0) eqn:H; [lia | done]. Qed.

(** ** The tail of [suggest_venues] *)

Lemma candidate_map_lookup candidates vid c :
  candidate_map_of candidates !! vid = Some c -> c ∈ candidates /\ v_id (venue c) = vid.
Proof.
  intros H. apply dict_of_list_lookup, list_elem_of_In, in_map_iff in H as (c' & Heq & Hin).
  inversion Heq; subst. by rewrite list_elem_of_In.
Qed.

Lemma rank_and_build_Ok E req txt key candidates sim w out :
  (rank_and_build E req txt key candidates sim w).1 = Ok out ->
  exists sugs,
    out = (sugs, txt)
    /\ Forall2 (fun e s =>
                  build_suggestion (candidate_map_of candidates) sim
                    (_get_load_factors (w_db w) (candidate_ids_of candidates)
                                       (date req) (time req))
                    (dict_of_list (map (fun r => (ve_venue_id r, ve_source_text r))
                       (embedding_rows_in (w_db w)
                          (map snd (top_of req (w_db w) candidates sim))))) e = Ok s)
               (top_of req (w_db w) candidates sim) sugs.
Proof.
  unfold rank_and_build. intros H.
  apply bind_fst_Ok in H as (d & w1 & Hd & H). inversion Hd; subst; clear Hd.
  apply bind_fst_Ok in H as (sugs & w2 & Hb & H). inversion Hb as [[Hb' Hw]]; subst.
  apply bind_fst_Ok in H as (u & w3 & _ & H). inversion H; subst.
  exists sugs. split; [done|]. by apply build_suggestions_Ok.
Qed.

Lemma rank_and_build_total E req txt key candidates sim w :
  exists sugs, (rank_and_build E req txt key candidates sim w).1 = Ok (sugs, txt).
Proof.
  unfold rank_and_build, bind at 1. simpl.
  edestruct (build_suggestions_total (candidate_map_of candidates) sim) as [sugs Hs];
    [|unfold bind, lift; unfold candidate_map_of in Hs; rewrite Hs].
  - intros [s vid] Hin. apply elem_of_py_slice_to, elem_of_final_scoring in Hin as [Hin _].
    apply dict_of_list_is_Some. rewrite map_map. exact Hin.
  - exists sugs. unfold cache_set. destruct (redis_up E); reflexivity.
Qed.
(** ** The main matcher, stage by stage *)

Lemma only_logged_cache_get E c key w : only_logged w (cache_get E c key w).2.
Proof.
  unfold cache_get. destruct (redis_up E).
  - destruct (w_redis w !! _key c key) as [[v expiry]|]; [destruct (_ <? _)|];
      apply only_logged_refl.
  - unfold only_logged. simpl. tauto.
Qed.

Lemma suggest_venues_miss E req w out :
  suggest_cache_miss E req w ->
  (suggest_venues E req w).1 = Ok out ->
  exists candidates w2,
    hard_filter_of E req (cache_get E suggest_cache (_suggest_cache_key E req) w).2
    = (Ok candidates, w2)
    /\ match candidates with
       | [] => out = ([], intent_text_of req)
       | _ =>
           exists sim w3,
             similarity_stage E req (intent_text_of req) (candidate_ids_of candidates)
               (logger INFO "Layer 1 passed: %d venues" w2).2 = (Ok sim, w3)
             /\ (rank_and_build E req (intent_text_of req) (_suggest_cache_key E req)
                   candidates sim w3).1 = Ok out
       end.
Proof.
  unfold suggest_cache_miss, suggest_venues. intros Hmiss H.
  apply bind_fst_Ok in H as (cached & w1 & Hget & H).
  rewrite Hget in *. simpl in Hmiss. inversion Hmiss; subst cached. simpl.
  apply bind_fst_Ok in H as (candidates & w2 & Hl1 & H).
  exists candidates, w2. split; [done|].
  destruct candidates as [|c cs].
  - apply bind_fst_Ok in H as (u & w3 & _ & H). by inversion H.
  - apply bind_fst_Ok in H as (u & w3 & Hlog & H).
    apply bind_fst_Ok in H as (sim & w4 & Hsim & H).
    exists sim, w4. split; [|done].
    unfold logger in Hlog. inversion Hlog; subst. exact Hsim.
Qed.

(** ** The similarity stage *)

#[global] Instance same_db_refl : Reflexive same_db.
Proof. intros w. reflexivity. Qed.

#[global] Instance same_db_trans : Transitive same_db.
Proof. intros w1 w2 w3. unfold same_db. congruence. Qed.

Lemma same_db_cache_get E c key : preserves same_db (cache_get E c key).
Proof. intros w. apply only_logged_cache_get. Qed.

Lemma same_db_cache_set E c key v t : preserves same_db (cache_set E c key v t).
Proof. intros w. unfold cache_set. destruct (redis_up E); reflexivity. Qed.

Lemma same_db_intent_vector E txt : preserves same_db (_get_intent_vector E txt).
Proof.
  unfold _get_intent_vector. apply preserves_bind; [apply _|apply same_db_cache_get|].
  intros [[|]|].
  - apply preserves_raise; apply _.
  - apply preserves_ret; apply _.
  - apply preserves_bind; [apply _|apply preserves_lift; apply _|]. intros v.
    apply preserves_bind; [apply _|apply same_db_cache_set|]. intros _.
    apply preserves_ret; apply _.
Qed.

Lemma foldl_insert_lookup_ne {V} (items : list (Z * V)) (m : gmap Z V) k :
  k ∉ map fst items ->
  foldl (fun m kv => <[kv.1 := kv.2]> m) m items !! k = m !! k.
Proof.
  revert m. induction items as [|[k0 v0] items IH]; intros m H; simpl in *; [done|].
  apply not_elem_of_cons in H as [Hne H]. rewrite IH by done.
  by rewrite lookup_insert_ne.
Qed.

Lemma foldl_neutral_lookup (ids : list Z) (m : gmap Z Q) vid :
  vid ∈ ids -> foldl (fun m vid => <[vid := 1 # 2]> m) m ids !! vid = Some (1 # 2).
Proof.
  revert m. induction ids as [|i ids IH]; intros m H; simpl; [by apply elem_of_nil in H|].
  destruct (decide (vid ∈ ids)) as [Hin|Hnin]; [by apply IH|].
  apply elem_of_cons in H as [->|H]; [|done].
  assert (forall m' : gmap Z Q, foldl (fun m vid => <[vid := 1 # 2]> m) m' ids !! i = m' !! i)
    as Hkeep.
  { clear IH. induction ids as [|j ids IH]; intros m'; simpl; [done|].
    apply not_elem_of_cons in Hnin as [Hne Hnin]. rewrite IH by done.
    by rewrite lookup_insert_ne. }
  rewrite Hkeep. by rewrite lookup_insert_eq.
Qed.

Lemma find_similar_keys E d vec ids n k :
  k ∈ map fst (find_similar_venues E d vec ids n) ->
  exists r, r ∈ venue_embeddings d /\ ve_venue_id r = k.
Proof.
  unfold find_similar_venues. destruct ids as [|i ids]; [intros H; by apply elem_of_nil in H|].
  intros H. apply list_elem_of_In, in_map_iff in H as ([k' q] & Hk & Hin). simpl in Hk; subst k'.
  apply list_elem_of_In, elem_of_take in Hin as (j & Hj & _).
  apply list_elem_of_lookup_2 in Hj. rewrite merge_sort_Permutation in Hj.
  apply list_elem_of_In, in_map_iff in Hj as (r & Hr & Hin). inversion Hr; subst.
  apply list_elem_of_In, list_elem_of_filter in Hin as [_ Hin]. eauto.
Qed.

Lemma similarity_stage_Ok E req txt ids w sim w' :
  similarity_stage E req txt ids w = (Ok sim, w') ->
  same_catalogue (w_db w) (w_db w')
  /\ (forall vid, vid ∈ ids ->
        (forall r, r ∈ venue_embeddings (w_db w) -> ve_venue_id r <> vid) ->
        sim !! vid = Some (1 # 2))
  /\ (embedding_rows_in (w_db w) ids = [] ->
        no_embeddings_warning ∈ w_log w'
        /\ intent_embeddings (w_db w') = intent_embeddings (w_db w)
        /\ forall vid, vid ∈ ids -> sim !! vid = Some (1 # 2)).
Proof.
  unfold similarity_stage. intros H.
  apply bind_Ok in H as (d & w0 & Hd & H). inversion Hd; subst; clear Hd.
  destruct (embedding_rows_in (w_db w0) ids) as [|r0 rows] eqn:Hrows; simpl in H.
  - apply bind_Ok in H as (u & w1 & Hlog & H). inversion H; subst; clear H.
    unfold logger in Hlog. inversion Hlog; subst; clear Hlog. simpl.
    split; [unfold same_catalogue; tauto|]. split.
    + intros vid Hin _. by apply neutral_map_lookup.
    + intros _. split; [|split; [done|]].
      * rewrite elem_of_app. right. apply list_elem_of_here.
      * intros vid Hin. by apply neutral_map_lookup.
  - apply bind_Ok in H as (vec & w1 & Hvec & H).
    pose proof (same_db_intent_vector E txt w0) as Hdb. rewrite Hvec in Hdb.
    unfold same_db in Hdb. simpl in Hdb.
    apply bind_Ok in H as (d & w2 & Hd & H). inversion Hd; subst; clear Hd.
    apply bind_Ok in H as (u & w3 & Hlog & H). inversion H; subst; clear H.
    split; [|split; [|discriminate]].
    + unfold log_intent_embedding, try_except, commit in Hlog.
      destruct (commit_ok E _).
      * unfold bind, get_db, put_db in Hlog. simpl in Hlog. inversion Hlog; subst. simpl.
        rewrite Hdb. unfold same_catalogue. simpl. tauto.
      * simpl in Hlog. inversion Hlog; subst. simpl. rewrite Hdb.
        unfold same_catalogue. tauto.
    + intros vid Hin Hno. rewrite Hdb in *.
      set (embedded_ids := list_to_set _ : gset Z).
      assert (vid ∉ embedded_ids) as Hnot.
      { unfold embedded_ids. rewrite elem_of_list_to_set, list_elem_of_In, in_map_iff.
        intros (r & Hr & Hinr). apply list_elem_of_In, list_elem_of_filter in Hinr as [_ Hinr].
        by apply (Hno r). }
      assert (foldl (fun (m : gmap Z Q) vid => <[vid := 1 # 2]> m) ∅
                    (filter (fun vid => vid ∉ embedded_ids) ids) !! vid = Some (1 # 2)) as Hbase.
      { apply foldl_neutral_lookup. by apply list_elem_of_filter. }
      destruct (decide (embedded_ids = ∅)); [done|].
      rewrite (foldl_insert_lookup_ne
                 (find_similar_venues E (w_db w0) vec (elements embedded_ids) (size embedded_ids)));
        [done|].
      intros Hk. apply find_similar_keys in Hk as (r & Hr & Hid). by apply (Hno r).
Qed.
(** ** Availability *)


Lemma hard_filter_available E city date t olat olng mode max w cands :
  (_get_hard_filtered_candidates E city date t olat olng mode max w).1 = Ok cands ->
  forall c, c ∈ cands ->
    venue c ∈ surviving_venues E (w_db w) city date t olat olng mode max
    /\ (if gated olat olng (venue c)
        then exists t', travel_minutes c = Some t' /\ (t' <= inject_Z max)%Q
        else travel_minutes c = None).
Proof.
  intros H c Hc.
  destruct (hard_filter_as_loop E city date t olat olng mode max w) as (w0 & Hl & Heq).
  rewrite Heq in H.
  destruct (travel_loop _ _ _ _ _ _ w0) as [r w'] eqn:Hloop. simpl in H; subst r.
  apply travel_loop_Ok in Hloop as [H1 _]. by apply H1.
Qed.



Lemma suggestion_of_candidate E req w sugs txt :
  suggest_cache_miss E req w ->
  (suggest_venues E req w).1 = Ok (sugs, txt) ->
  exists candidates w2,
    hard_filter_of E req (cache_get E suggest_cache (_suggest_cache_key E req) w).2
    = (Ok candidates, w2)
    /\ forall s, s ∈ sugs ->
         exists c, c ∈ candidates /\ s_venue_id s = v_id (venue c)
                   /\ s_travel_minutes s = travel_minutes c.
Proof.
  intros Hmiss H.
  apply suggest_venues_miss in H as (candidates & w2 & Hl1 & H); [|done].
  exists candidates, w2. split; [done|].
  destruct candidates as [|c0 cs].
  - inversion H; subst. intros s Hs. by apply elem_of_nil in Hs.
  - destruct H as (sim & w3 & _ & H).
    apply rank_and_build_Ok in H as (sugs' & Heq & Hall). inversion Heq; subst sugs' txt.
    intros s Hs. apply list_elem_of_lookup in Hs as [i Hi].
    destruct (Forall2_lookup_r _ _ _ _ _ Hall Hi) as (e & _ & Hb).
    apply build_suggestion_Ok in Hb as (c & Hc & Hid & Htm & _).
    apply candidate_map_lookup in Hc as [Hc _]. eauto.
Qed.


(** ** The travel-time gate *)

Lemma truthy_zero lat lng (x y : option Q) :
  x = Some lat -> y = Some lng -> (lat == 0 \/ lng == 0)%Q -> truthy x && truthy y = false.
Proof.
  intros -> -> [H|H]; simpl.
  - apply Qeq_bool_iff in H. by rewrite H.
  - apply Qeq_bool_iff in H. rewrite H. by rewrite andb_false_r.
Qed.

Lemma truthy_nonzero lat lng (x y : option Q) :
  x = Some lat -> y = Some lng -> ~ (lat == 0)%Q -> ~ (lng == 0)%Q ->
  truthy x && truthy y = true.
Proof.
  intros -> -> Hlat Hlng. simpl.
  destruct (Qeq_bool lat 0) eqn:H1; [by apply Qeq_bool_iff in H1|].
  destruct (Qeq_bool lng 0) eqn:H2; [by apply Qeq_bool_iff in H2|]. done.
Qed.

(** C9. With an origin, a venue one of whose coordinates is exactly 0.0
    skips the travel-time gate: the loop body keeps it with
    [travel_minutes = None] and leaves the world as it was (no cache lookup,
    no request to the routing provider), so it is among the candidates
    whatever [max_travel_minutes] is. A venue with two non-zero coordinates
    is kept only with a resolved travel time that is at most
    [max_travel_minutes]. *)
Theorem C9_zero_coordinate_bypasses_travel_gate (E : Env) (city : string)
    (target_date : date_type) (target_time : time_type) (olat olng : Q)
    (mode : string) (max : Z) :
  (forall v w lat lng,
      v_lat v = Some lat -> v_lng v = Some lng -> (lat == 0 \/ lng == 0)%Q ->
      travel_gate E (Some olat) (Some olng) mode max v w
      = (Ok (Some {| venue := v; travel_minutes := None |}), w))
  /\ (forall w cands,
        (_get_hard_filtered_candidates E city target_date target_time (Some olat) (Some olng)
           mode max w).1 = Ok cands ->
        (forall v lat lng,
            v ∈ surviving_venues E (w_db w) city target_date target_time
                  (Some olat) (Some olng) mode max ->
            v_lat v = Some lat -> v_lng v = Some lng -> (lat == 0 \/ lng == 0)%Q ->
            {| venue := v; travel_minutes := None |} ∈ cands)
        /\ (forall c lat lng,
              c ∈ cands ->
              v_lat (venue c) = Some lat -> v_lng (venue c) = Some lng ->
              ~ (lat == 0)%Q -> ~ (lng == 0)%Q ->
              exists t, travel_minutes c = Some t /\ (t <= inject_Z max)%Q))
  /\ (forall v w c w' lat lng,
        v_lat v = Some lat -> v_lng v = Some lng -> ~ (lat == 0)%Q -> ~ (lng == 0)%Q ->
        travel_gate E (Some olat) (Some olng) mode max v w = (Ok (Some c), w') ->
        exists t, get_travel_time E (olat, olng) (lat, lng) (v_id v) mode w = (Ok (Some t), w')
                  /\ c = {| venue := v; travel_minutes := Some t |}
                  /\ (t <= inject_Z max)%Q).
Proof.
  split; [|split].
  - intros v w lat lng Hlat Hlng Hz. apply gated_false_travel_gate.
    unfold gated. by eapply truthy_zero.
  - intros w cands H. split.
    + intros v lat lng Hv Hlat Hlng Hz.
      destruct (hard_filter_as_loop E city target_date target_time (Some olat) (Some olng)
                  mode max w) as (w0 & Hl & Heq).
      rewrite Heq in H.
      destruct (travel_loop _ _ _ _ _ _ w0) as [r w'] eqn:Hloop. simpl in H; subst r.
      apply travel_loop_Ok in Hloop as [_ H2]. apply H2; [done|].
      unfold gated. by eapply truthy_zero.
    + intros c lat lng Hc Hlat Hlng Hnz1 Hnz2.
      eapply hard_filter_available in H as [_ H]; [|exact Hc].
      unfold gated in H. by rewrite (truthy_nonzero lat lng) in H.
  - intros v w c w' lat lng Hlat Hlng Hnz1 Hnz2 H.
    apply travel_gate_Some in H as [Hv H].
    unfold gated in H. rewrite (truthy_nonzero lat lng) in H by done.
    destruct H as (o1 & o2 & lat' & lng' & t & Ho1 & Ho2 & Hlat' & Hlng' & Hgt & Htm & Hle).
    inversion Ho1; inversion Ho2; subst o1 o2.
    rewrite Hlat in Hlat'. rewrite Hlng in Hlng'. inversion Hlat'; inversion Hlng'; subst.
    exists t. split; [done|]. split; [|done].
    destruct c as [cv ct]. simpl in *. by subst.
Qed.

Lemma C9_zero_coordinate_bypasses_travel_gate_witness :
  travel_gate sample_env (Some (514545 # 10000)) (Some (-25879 # 10000)) "drive" 5
    (sample_venue 3 "C" (Some 0%Q) (Some (-25879 # 10000))) (world_of sample_db)
  = (Ok (Some {| venue := sample_venue 3 "C" (Some 0%Q) (Some (-25879 # 10000));
                 travel_minutes := None |}),
     world_of sample_db).
Proof.
  apply (proj1 (C9_zero_coordinate_bypasses_travel_gate sample_env "Bristol"
                  (mk_date 2026 2 25) (mk_time 19 0 0 0) (514545 # 10000) (-25879 # 10000)
                  "drive" 5))
    with (lat := 0%Q) (lng := (-25879 # 10000)%Q).
  - reflexivity.
  - reflexivity.
  - left. reflexivity.
Defined.
(** ** Rounding *)




(** ** The ranking that is returned *)

Lemma same_catalogue_load_factors d d' ids date t :
  same_catalogue d d' -> _get_load_factors d' ids date t = _get_load_factors d ids date t.
Proof.
  intros (_ & Hs & _ & Hb & _). unfold _get_load_factors, load_of_venue.
  by rewrite Hs, Hb.
Qed.

Lemma same_catalogue_trans d1 d2 d3 :
  same_catalogue d1 d2 -> same_catalogue d2 d3 -> same_catalogue d1 d3.
Proof. unfold same_catalogue. intros (?&?&?&?&?) (?&?&?&?&?). repeat split; congruence. Qed.

Lemma StronglySorted_take {A} (R : relation A) n (l : list A) :
  StronglySorted R l -> StronglySorted R (take n l).
Proof.
  intros H. rewrite <- (take_drop n l) in H. by apply StronglySorted_app_1_l in H.
Qed.


Lemma Forall2_map_eq {A B C} (P : A -> B -> Prop) (f : A -> C) (g : B -> C) l k :
  (forall a b, P a b -> f a = g b) -> Forall2 P l k -> map f l = map g k.
Proof. intros H. induction 1; simpl; [done|]. f_equal; auto. Qed.

(** What a computed answer is made of: the candidates of layer 1, a
    similarity map, and the truncated ranking they give on the catalogue. *)
Lemma suggest_venues_ranking E req w sugs txt :
  suggest_cache_miss E req w ->
  (suggest_venues E req w).1 = Ok (sugs, txt) ->
  exists candidates sim,
    (exists w2, hard_filter_of E req (cache_get E suggest_cache (_suggest_cache_key E req) w).2
                = (Ok candidates, w2))
    /\ (forall vid, vid ∈ candidate_ids_of candidates -> lacks_embedding (w_db w) vid ->
          sim !! vid = Some (1 # 2))
    /\ Forall2 (fun e s =>
                  s_venue_id s = e.2
                  /\ similarity_score s = py_round (default (1 # 2) (sim !! e.2)) 4
                  /\ load_factor s
                     = py_round (default 0%Q (_get_load_factors (w_db w)
                                   (candidate_ids_of candidates) (date req) (time req) !! e.2)) 4
                  /\ final_score s = py_round e.1 4)
               (top_of req (w_db w) candidates sim) sugs.
Proof.
  intros Hmiss H.
  apply suggest_venues_miss in H as (candidates & w2 & Hl1 & H); [|done].
  destruct (only_logged_cache_get E suggest_cache (_suggest_cache_key E req) w) as (Hdb & _).
  set (w1 := (cache_get E suggest_cache (_suggest_cache_key E req) w).2) in *.
  pose proof (frame_hard_filter E (city req) (date req) (time req) (origin_lat req)
                (origin_lng req) (travel_mode_value (travel_mode req))
                (max_travel_minutes req) w1) as Hfr.
  unfold hard_filter_of in Hl1. rewrite Hl1 in Hfr. simpl in Hfr.
  destruct Hfr as (Hcat & _). rewrite Hdb in Hcat.
  destruct candidates as [|c0 cs].
  - inversion H; subst. exists [], ∅. split; [eauto|]. split.
    + intros vid Hin. by apply elem_of_nil in Hin.
    + unfold top_of, py_slice_to, final_scoring, candidate_ids_of, merge_sort. simpl.
      destruct (_ <? _); rewrite ?take_nil; constructor.
  - destruct H as (sim & w3 & Hsim & H).
    exists (c0 :: cs), sim. split; [eauto|].
    apply similarity_stage_Ok in Hsim as (Hcat' & Hneutral & _). simpl in Hcat', Hneutral.
    assert (same_catalogue (w_db w) (w_db w3)) as Hcat3
      by (eapply same_catalogue_trans; eauto).
    split.
    + intros vid Hin Hlack. apply Hneutral; [done|].
      intros r Hr. apply Hlack. destruct Hcat as (_&_&_&_&He). by rewrite <- He.
    + apply rank_and_build_Ok in H as (sugs' & Heq & Hall). inversion Heq; subst sugs' txt.
      unfold top_of in *. rewrite (same_catalogue_load_factors _ _ _ _ _ Hcat3) in Hall.
      eapply Forall2_impl; [exact Hall|]. intros e s Hb.
      apply build_suggestion_Ok in Hb as (c & Hc & Hid & _ & Hs1 & Hs2 & Hs3).
      apply candidate_map_lookup in Hc as [_ Hc].
      split; [congruence|]. split; [exact Hs1|]. split; [exact Hs2 | exact Hs3].
Qed.

(** ** Candidates without an embedding *)

Lemma similarity_stage_no_embeddings E req txt ids w :
  embedding_rows_in (w_db w) ids = [] ->
  similarity_stage E req txt ids w
  = (Ok (dict_of_list (map (fun vid => (vid, 1 # 2)) ids)),
     (logger WARNING no_embeddings_warning.2 w).2).
Proof. intros H. unfold similarity_stage, bind, get_db. simpl. rewrite H. reflexivity. Qed.

Lemma embedding_rows_in_nil d ids :
  (forall vid, vid ∈ ids -> lacks_embedding d vid) -> embedding_rows_in d ids = [].
Proof.
  intros H. unfold embedding_rows_in. apply elem_of_nil_inv. intros r Hr.
  apply list_elem_of_filter in Hr as [Hin Hr]. by apply (H _ Hin r).
Qed.

Lemma log_kept_by_rank_and_build E req txt key candidates sim w x :
  x ∈ w_log w -> x ∈ w_log (rank_and_build E req txt key candidates sim w).2.
Proof.
  intros Hx. unfold rank_and_build, bind, get_db, lift. simpl.
  destruct (build_suggestions _ _ _ _ _); [|done].
  unfold cache_set. destruct (redis_up E); simpl; [done|].
  rewrite elem_of_app. by left.
Qed.

Lemma top_of_nonempty req d candidates sim :
  candidates <> [] -> 1 <= top_n req -> top_of req d candidates sim <> [].
Proof.
  intros Hc Hn. unfold top_of. rewrite py_slice_to_take by lia.
  set (scored := final_scoring _ _ _).
  assert (length scored = length candidates) as Hlen.
  { unfold scored. rewrite final_scoring_Permutation.
    unfold candidate_ids_of. by rewrite !length_map. }
  destruct scored as [|e scored]; [destruct candidates; [done | discriminate]|].
  destruct (Z.to_nat (top_n req)) eqn:Hk; [lia | done].
Qed.

Lemma elem_of_top_of req d candidates sim e :
  e ∈ top_of req d candidates sim -> e.2 ∈ candidate_ids_of candidates.
Proof.
  destruct e as [s vid]. intros H. by apply elem_of_py_slice_to, elem_of_final_scoring in H as [H _].
Qed.

Lemma neutral_rounded : (py_round (1 # 2) 4 == 1 # 2)%Q.
Proof. vm_compute. reflexivity. Qed.

(** C3. A candidate without a stored embedding gets the similarity 0.5 and
    stays in the ranking; when no candidate has an embedding every
    candidate gets 0.5, a warning is logged, and the request returns a
    non-empty ranked answer. *)
Theorem C3_missing_embedding_neutral (E : Env) (req : SuggestRequest) (w : World) :
  suggest_cache_miss E req w ->
  1 <= top_n req ->
  (forall sugs txt,
      (suggest_venues E req w).1 = Ok (sugs, txt) ->
      exists candidates sim,
        let ids := candidate_ids_of candidates in
        let loads := _get_load_factors (w_db w) ids (date req) (time req) in
        (exists w2, hard_filter_of E req
                      (cache_get E suggest_cache (_suggest_cache_key E req) w).2
                    = (Ok candidates, w2))
        /\ (forall vid, vid ∈ ids -> lacks_embedding (w_db w) vid ->
              sim !! vid = Some (1 # 2)
              /\ (score_of sim loads vid, vid) ∈ final_scoring sim loads ids)
        /\ map s_venue_id sugs
           = map snd (take (Z.to_nat (top_n req)) (final_scoring sim loads ids))
        /\ (forall s, s ∈ sugs -> lacks_embedding (w_db w) (s_venue_id s) ->
              (similarity_score s == 1 # 2)%Q))
  /\ (forall candidates w2,
        hard_filter_of E req (cache_get E suggest_cache (_suggest_cache_key E req) w).2
        = (Ok candidates, w2) ->
        candidates <> [] ->
        (forall c, c ∈ candidates -> lacks_embedding (w_db w) (v_id (venue c))) ->
        exists sugs w',
          suggest_venues E req w = (Ok (sugs, intent_text_of req), w')
          /\ sugs <> []
          /\ no_embeddings_warning ∈ w_log w'
          /\ (forall s, s ∈ sugs -> (similarity_score s == 1 # 2)%Q)).
Proof.
  intros Hmiss Hn.
  assert (forall sugs txt,
            (suggest_venues E req w).1 = Ok (sugs, txt) ->
            exists candidates sim,
              (exists w2, hard_filter_of E req
                            (cache_get E suggest_cache (_suggest_cache_key E req) w).2
                          = (Ok candidates, w2))
              /\ (forall vid, vid ∈ candidate_ids_of candidates ->
                    lacks_embedding (w_db w) vid -> sim !! vid = Some (1 # 2))
              /\ Forall2 (fun (e : Q * Z) s =>
                            s_venue_id s = e.2
                            /\ similarity_score s = py_round (default (1 # 2) (sim !! e.2)) 4)
                         (top_of req (w_db w) candidates sim) sugs) as Hrank.
  { intros sugs txt H.
    apply suggest_venues_ranking in H as (candidates & sim & Hl1 & Hneutral & Hall); [|done].
    exists candidates, sim. split; [done|]. split; [done|].
    eapply Forall2_impl; [exact Hall|]. intros e s (?&?&_). done. }
  split.
  - intros sugs txt H.
    destruct (Hrank _ _ H) as (candidates & sim & Hl1 & Hneutral & Hall).
    exists candidates, sim. cbv zeta. split; [done|]. split; [|split].
    + intros vid Hin Hlack. split; [by apply Hneutral|]. by apply elem_of_final_scoring.
    + unfold top_of in Hall. rewrite py_slice_to_take in Hall by lia.
      eapply Forall2_map_eq; [|apply Forall2_flip; exact Hall]. intros s e [Hid _]. done.
    + intros s Hs Hlack. apply list_elem_of_lookup in Hs as [i Hi].
      destruct (Forall2_lookup_r _ _ _ _ _ Hall Hi) as (e & He & Hid & Hsim).
      apply list_elem_of_lookup_2, elem_of_top_of in He.
      rewrite Hsim, Hneutral; [apply neutral_rounded | done | by rewrite <- Hid].
  - intros candidates w2 Hl1 Hne Hlack.
    destruct (only_logged_cache_get E suggest_cache (_suggest_cache_key E req) w) as (Hdb & _).
    pose proof (frame_hard_filter E (city req) (date req) (time req) (origin_lat req)
                  (origin_lng req) (travel_mode_value (travel_mode req))
                  (max_travel_minutes req)
                  (cache_get E suggest_cache (_suggest_cache_key E req) w).2) as Hfr.
    unfold hard_filter_of in Hl1. rewrite Hl1 in Hfr. simpl in Hfr.
    destruct Hfr as ((_&_&_&_&Hemb) & _). rewrite Hdb in Hemb.
    set (w2' := (logger INFO "Layer 1 passed: %d venues" w2).2).
    assert (embedding_rows_in (w_db w2') (candidate_ids_of candidates) = []) as Hrows.
    { apply embedding_rows_in_nil. intros vid Hin r Hr.
      apply list_elem_of_In, in_map_iff in Hin as (c & <- & Hc).
      apply (Hlack c); [by apply list_elem_of_In|]. simpl in Hr. by rewrite <- Hemb. }
    pose proof (similarity_stage_no_embeddings E req (intent_text_of req) _ _ Hrows) as Hsim.
    set (sim := dict_of_list _) in Hsim. set (w3 := (logger WARNING _ w2').2) in Hsim.
    destruct (rank_and_build_total E req (intent_text_of req) (_suggest_cache_key E req)
                candidates sim w3) as [sugs Hsugs].
    exists sugs, (rank_and_build E req (intent_text_of req) (_suggest_cache_key E req)
                    candidates sim w3).2.
    assert (suggest_venues E req w
            = (Ok (sugs, intent_text_of req),
               (rank_and_build E req (intent_text_of req) (_suggest_cache_key E req)
                  candidates sim w3).2)) as Hrun.
    { unfold suggest_cache_miss in Hmiss. unfold suggest_venues, bind at 1.
      destruct (cache_get E suggest_cache (_suggest_cache_key E req) w) as [r w1] eqn:Hget.
      simpl in Hmiss, Hl1. subst r. unfold bind at 1. rewrite Hl1.
      destruct candidates as [|c0 cs]; [done|].
      unfold bind at 1.
      change (logger INFO "Layer 1 passed: %d venues" w2) with (Ok tt, w2').
      cbv beta iota zeta. unfold bind at 1.
      unfold candidate_ids_of in Hsim. rewrite Hsim.
      destruct (rank_and_build _ _ _ _ _ _ w3) as [r' w'] eqn:Hrb. simpl in *. by subst r'. }
    split; [exact Hrun|].
    assert ((suggest_venues E req w).1 = Ok (sugs, intent_text_of req)) as Hfst
      by (by rewrite Hrun).
    destruct (Hrank _ _ Hfst) as (candidates' & sim' & (w2'' & Hl1') & Hneutral & Hall).
    unfold hard_filter_of in Hl1'. rewrite Hl1 in Hl1'. inversion Hl1'; subst candidates' w2''.
    split; [|split].
    + intros ->. apply Forall2_nil_inv_r in Hall. by eapply top_of_nonempty.
    + apply log_kept_by_rank_and_build. unfold w3. simpl.
      rewrite elem_of_app. right. apply list_elem_of_here.
    + intros s Hs. apply list_elem_of_lookup in Hs as [i Hi].
      destruct (Forall2_lookup_r _ _ _ _ _ Hall Hi) as (e & He & Hid & Hs).
      apply list_elem_of_lookup_2, elem_of_top_of in He.
      rewrite Hs, Hneutral; [apply neutral_rounded | done |].
      apply list_elem_of_In, in_map_iff in He as (c & <- & Hc).
      apply Hlack. by apply list_elem_of_In.
Qed.

Lemma C3_missing_embedding_neutral_witness :
  exists sugs w',
    suggest_venues sample_env sample_request (world_of sample_db_unembedded)
    = (Ok (sugs, intent_text_of sample_request), w')
    /\ sugs <> []
    /\ no_embeddings_warning ∈ w_log w'
    /\ (forall s, s ∈ sugs -> (similarity_score s == 1 # 2)%Q).
Proof.
  assert (suggest_cache_miss sample_env sample_request (world_of sample_db_unembedded))
    as Hmiss by (vm_compute; reflexivity).
  assert (1 <= top_n sample_request) as Hn by (simpl; lia).
  destruct (C3_missing_embedding_neutral sample_env sample_request
              (world_of sample_db_unembedded) Hmiss Hn) as [_ H].
  eapply H.
  - vm_compute. reflexivity.
  - discriminate.
  - intros c _ r Hr. by apply elem_of_nil in Hr.
Defined.
(** ** The suggest cache *)

Lemma suggest_venues_miss_run E req w out w' :
  suggest_cache_miss E req w ->
  suggest_venues E req w = (Ok out, w') ->
  exists candidates w2,
    hard_filter_of E req (cache_get E suggest_cache (_suggest_cache_key E req) w).2
    = (Ok candidates, w2)
    /\ match candidates with
       | [] => out = ([], intent_text_of req)
       | _ =>
           exists sim w3,
             similarity_stage E req (intent_text_of req) (candidate_ids_of candidates)
               (logger INFO "Layer 1 passed: %d venues" w2).2 = (Ok sim, w3)
             /\ rank_and_build E req (intent_text_of req) (_suggest_cache_key E req)
                  candidates sim w3 = (Ok out, w')
       end.
Proof.
  unfold suggest_cache_miss, suggest_venues. intros Hmiss H.
  apply bind_Ok in H as (cached & w1 & Hget & H).
  rewrite Hget in *. simpl in Hmiss. inversion Hmiss; subst cached. simpl.
  apply bind_Ok in H as (candidates & w2 & Hl1 & H).
  exists candidates, w2. split; [done|].
  destruct candidates as [|c cs].
  - apply bind_Ok in H as (u & w3 & _ & H). by inversion H.
  - apply bind_Ok in H as (u & w3 & Hlog & H).
    apply bind_Ok in H as (sim & w4 & Hsim & H).
    exists sim, w4. split; [|done].
    unfold logger in Hlog. inversion Hlog; subst. exact Hsim.
Qed.

Lemma rank_and_build_stores E req txt key candidates sim w out w' :
  redis_up E = true ->
  rank_and_build E req txt key candidates sim w = (Ok out, w') ->
  w_redis w' !! _key suggest_cache key
  = Some (CachedSuggest out.1 out.2, w_now w' + 300 * 1000000).
Proof.
  intros Hup H. unfold rank_and_build in H.
  apply bind_Ok in H as (d & w1 & Hd & H). inversion Hd; subst; clear Hd.
  apply bind_Ok in H as (sugs & w2 & Hb & H). inversion Hb; subst.
  apply bind_Ok in H as (u & w3 & Hset & H). inversion H; subst; clear H.
  unfold cache_set in Hset. rewrite Hup in Hset. inversion Hset; subst. simpl.
  by rewrite lookup_insert_eq.
Qed.

Lemma suggest_venues_hit E req w sugs txt expiry :
  redis_up E = true ->
  w_redis w !! _key suggest_cache (_suggest_cache_key E req)
  = Some (CachedSuggest sugs txt, expiry) ->
  w_now w < expiry ->
  (suggest_venues E req w).1 = Ok (sugs, txt).
Proof.
  intros Hup Hentry Hlive. unfold suggest_venues, bind at 1, cache_get.
  rewrite Hup, Hentry. apply Z.ltb_lt in Hlive. rewrite Hlive. reflexivity.
Qed.

Lemma suggest_cache_key_absent_origin E req :
  _suggest_cache_key E (with_origin req None None)
  = _suggest_cache_key E (with_origin req (Some 0%Q) (Some 0%Q)).
Proof. reflexivity. Qed.

(** An answer computed for one request is served, within the time to
    live, to any request with the same cache key. *)
Lemma computed_answer_is_served E req req' w sugs txt w1 w2 :
  redis_up E = true ->
  _suggest_cache_key E req' = _suggest_cache_key E req ->
  suggest_cache_miss E req w ->
  suggest_venues E req w = (Ok (sugs, txt), w1) ->
  sugs <> [] ->
  w_redis w2 = w_redis w1 ->
  w_now w2 < w_now w1 + 300 * 1000000 ->
  (suggest_venues E req' w2).1 = Ok (sugs, txt).
Proof.
  intros Hup Hkey Hmiss Hrun Hne Hredis Hnow.
  apply suggest_venues_miss_run in Hrun as (candidates & w3 & _ & H); [|done].
  destruct candidates as [|c cs]; [inversion H; by subst|].
  destruct H as (sim & w4 & _ & H).
  apply rank_and_build_stores in H; [|done]. simpl in H.
  eapply suggest_venues_hit; [done| |exact Hnow]. by rewrite Hkey, Hredis.
Qed.

(** C10. The cache key of the whole pipeline reads an absent origin as the
    coordinate 0: a request without origin and the same request with origin
    (0.0, 0.0) have the same key, a live entry under that key answers both,
    and what was computed for either of them is served to the other within
    the time to live of five minutes, although the pipeline does not treat
    them alike (without origin there is no geo or travel filtering). *)
Theorem C10_absent_origin_shares_cache_key (E : Env) (req : SuggestRequest) :
  let absent := with_origin req None None in
  let zero := with_origin req (Some 0%Q) (Some 0%Q) in
  _suggest_cache_key E absent = _suggest_cache_key E zero
  /\ (forall w sugs txt expiry,
        redis_up E = true ->
        w_redis w !! _key suggest_cache (_suggest_cache_key E absent)
        = Some (CachedSuggest sugs txt, expiry) ->
        w_now w < expiry ->
        (suggest_venues E absent w).1 = Ok (sugs, txt)
        /\ (suggest_venues E zero w).1 = Ok (sugs, txt))
  /\ (forall w sugs txt w1 w2,
        redis_up E = true -> sugs <> [] ->
        w_redis w2 = w_redis w1 -> w_now w2 < w_now w1 + 300 * 1000000 ->
        (suggest_cache_miss E absent w -> suggest_venues E absent w = (Ok (sugs, txt), w1) ->
         (suggest_venues E zero w2).1 = Ok (sugs, txt))
        /\ (suggest_cache_miss E zero w -> suggest_venues E zero w = (Ok (sugs, txt), w1) ->
            (suggest_venues E absent w2).1 = Ok (sugs, txt)))
  /\ (exists E' req' w,
        suggest_cache_miss E' (with_origin req' None None) w
        /\ suggest_cache_miss E' (with_origin req' (Some 0%Q) (Some 0%Q)) w
        /\ (exists sugs txt,
              (suggest_venues E' (with_origin req' None None) w).1 = Ok (sugs, txt)
              /\ map s_venue_id sugs = [7])
        /\ (exists txt,
              (suggest_venues E' (with_origin req' (Some 0%Q) (Some 0%Q)) w).1 = Ok ([], txt))).
Proof.
  cbv zeta. split; [apply suggest_cache_key_absent_origin|]. split; [|split].
  - intros w sugs txt expiry Hup Hentry Hlive. split.
    + by eapply suggest_venues_hit.
    + eapply suggest_venues_hit; [done| |done].
      by rewrite <- suggest_cache_key_absent_origin.
  - intros w sugs txt w1 w2 Hup Hne Hredis Hnow. split; intros Hmiss Hrun.
    + eapply computed_answer_is_served; [done| |exact Hmiss|exact Hrun|done..].
      symmetry. apply suggest_cache_key_absent_origin.
    + eapply computed_answer_is_served; [done| |exact Hmiss|exact Hrun|done..].
      apply suggest_cache_key_absent_origin.
  - exists sample_env, sample_request, (world_of sample_db_no_coordinates).
    split; [vm_compute; reflexivity|]. split; [vm_compute; reflexivity|]. split.
    + eexists. eexists. split; vm_compute; reflexivity.
    + eexists. vm_compute. reflexivity.
Qed.

Lemma C10_absent_origin_shares_cache_key_witness :
  exists sugs txt,
    sugs <> []
    /\ (suggest_venues sample_env (with_origin sample_request None None)
          (world_of sample_db_no_coordinates)).1 = Ok (sugs, txt)
    /\ (suggest_venues sample_env (with_origin sample_request (Some 0%Q) (Some 0%Q))
          (suggest_venues sample_env (with_origin sample_request None None)
             (world_of sample_db_no_coordinates)).2).1 = Ok (sugs, txt).
Proof.
  eexists. eexists. split; [|split; [vm_compute; reflexivity|]].
  - discriminate.
  - match goal with
    | |- (suggest_venues _ _ ?w2).1 = Ok (?sugs, ?txt) =>
        destruct (C10_absent_origin_shares_cache_key sample_env sample_request)
          as (_ & _ & H & _);
        destruct (H (world_of sample_db_no_coordinates) sugs txt w2 w2) as [H1 _]
    end.
    + reflexivity.
    + discriminate.
    + reflexivity.
    + vm_compute. reflexivity.
    + apply H1.
      * vm_compute. reflexivity.
      * vm_compute. reflexivity.
Defined.
(** ** The intent log *)








Lemma with_intent_commit_find_similar E b d vec ids n :
  find_similar_venues (with_intent_commit E b) d vec ids n = find_similar_venues E d vec ids n.
Proof. reflexivity. Qed.

Lemma rank_and_build_catalogue E req txt key candidates sim w w' :
  same_catalogue (w_db w) (w_db w') ->
  (rank_and_build E req txt key candidates sim w').1
  = (rank_and_build E req txt key candidates sim w).1.
Proof.
  intros Hcat. unfold rank_and_build, bind, get_db, lift. cbv beta iota zeta.
  rewrite (same_catalogue_load_factors _ _ _ _ _ Hcat).
  destruct Hcat as (_&_&_&_&Hemb). unfold embedding_rows_in. rewrite Hemb.
  destruct (build_suggestions _ _ _ _ _); [|reflexivity].
  unfold cache_set. destruct (redis_up E); reflexivity.
Qed.

(** The stage, with the write of the log row made explicit. *)
Lemma similarity_stage_embedded E req txt ids w :
  embedding_rows_in (w_db w) ids <> [] ->
  similarity_stage E req txt ids w
  = match _get_intent_vector E txt w with
    | (Raise e, w1) => (Raise e, w1)
    | (Ok vector, w1) =>
        (Ok (similarity_map_of E (w_db w1) ids vector),
         if commit_ok E (InsertIntentEmbedding (intent_row E req txt vector))
         then (put_db (apply_write (InsertIntentEmbedding (intent_row E req txt vector))
                                   (w_db w1)) w1).2
         else (logger WARNING intent_log_warning.2 w1).2)
    end.
Proof.
  intros Hrows. unfold similarity_stage, bind at 1, get_db. cbv beta iota zeta.
  destruct (embedding_rows_in (w_db w) ids) as [|r0 rows] eqn:Hr; [done|].
  change ((length (r0 :: rows) =? 0)%nat) with false.
  cbv beta iota. unfold bind at 1.
  destruct (_get_intent_vector E txt w) as [[vector|e] w1] eqn:Hvec; [|reflexivity].
  unfold bind at 1. cbv beta iota zeta. unfold bind at 1.
  unfold log_intent_embedding, try_except, commit. fold (intent_row E req txt vector).
  destruct (commit_ok E _) eqn:Hok.
  - unfold bind at 1, get_db. cbv beta iota. unfold put_db at 1. cbv beta iota. reflexivity.
  - unfold raise. cbv beta iota. unfold logger at 1. cbv beta iota. reflexivity.
Qed.


Lemma suggest_venues_cases E req w :
  (suggest_venues E req w).1
  = match cache_get E suggest_cache (_suggest_cache_key E req) w with
    | (Raise e, _) => Raise e
    | (Ok (Some (CachedSuggest raw_suggestions cached_intent)), _) =>
        Ok (raw_suggestions, cached_intent)
    | (Ok (Some (CachedVector _)), _) => Raise (ValueError "unpack")
    | (Ok None, w1) =>
        match hard_filter_of E req w1 with
        | (Raise e, _) => Raise e
        | (Ok [], _) => Ok ([], intent_text_of req)
        | (Ok candidates, w2) =>
            match similarity_stage E req (intent_text_of req) (candidate_ids_of candidates)
                    (logger INFO "Layer 1 passed: %d venues" w2).2 with
            | (Raise e, _) => Raise e
            | (Ok sim, w3) =>
                (rank_and_build E req (intent_text_of req) (_suggest_cache_key E req)
                   candidates sim w3).1
            end
        end
    end.
Proof.
  unfold suggest_venues, bind at 1.
  destruct (cache_get E suggest_cache (_suggest_cache_key E req) w) as [[[[s t|v]|]|e] w1];
    try reflexivity.
  unfold bind at 1. fold (hard_filter_of E req).
  destruct (hard_filter_of E req w1) as [[[|c cs]|e] w2]; try reflexivity.
  unfold bind at 1. cbn [logger]. cbv beta iota zeta. unfold bind at 1.
  fold (candidate_ids_of (c :: cs)).
  destruct (similarity_stage _ _ _ _ _) as [[sim|e] w3]; reflexivity.
Qed.



(** ** Provider names *)
































(** ** Failures of the routing provider *)

Lemma fetch_tomtom_non_200 E o d mode w status body :
  (forall rq, http_send E rq = Response status body) -> status <> 200 ->
  (_fetch_tomtom E o d mode w).1 = Ok None.
Proof.
  intros Hsend Hs. unfold _fetch_tomtom, bind, client_send. rewrite Hsend. simpl.
  apply Z.eqb_neq in Hs. by rewrite Hs.
Qed.

Lemma fetch_tomtom_no_routes E o d mode w fields :
  (forall rq, http_send E rq = Response 200 (Some (JObj fields))) ->
  assoc_get "routes" fields = None ->
  (_fetch_tomtom E o d mode w).1 = Ok None.
Proof.
  intros Hsend Hr. unfold _fetch_tomtom, bind, client_send. rewrite Hsend. simpl.
  by rewrite Hr.
Qed.

Lemma travel_gate_drops_unknown E o1 o2 mode max v w w' :
  gated (Some o1) (Some o2) v = true ->
  (forall lat lng, get_travel_time E (o1, o2) (lat, lng) (v_id v) mode w = (Ok None, w')) ->
  travel_gate E (Some o1) (Some o2) mode max v w = (Ok None, w').
Proof.
  unfold gated, travel_gate. intros Hg Hgt.
  destruct (v_lat v) as [lat|]; [|discriminate].
  destruct (v_lng v) as [lng|]; [|simpl in Hg; by rewrite andb_false_r in Hg].
  rewrite Hg. unfold bind. by rewrite Hgt.
Qed.

(** C4, on the code. A response other than 200, and a payload without the
    key [routes], make the resolver return [None]: venue A is dropped and
    venue B, whose travel time is cached, is still returned. A payload of
    status 200 whose [routes] is [null] makes the resolver raise a
    [TypeError], which the matcher does not catch: the whole request is
    answered with status 500. *)
Theorem C4_malformed_payload_fails_request :
  reply_ids (suggest (answering 404 None) sample_request (world_of sample_db_cached_B)).1
  = Some [2]
  /\ reply_ids (suggest (answering 200 (Some (JObj []))) sample_request
                  (world_of sample_db_cached_B)).1
     = Some [2]
  /\ (_fetch_tomtom (answering 200 (Some (JObj [("routes", JNull)])))
        (514545 # 10000, -25879 # 10000) (514545 # 10000, -25879 # 10000) "drive"
        (world_of sample_db_cached_B)).1
     = Raise TypeError
  /\ (suggest (answering 200 (Some (JObj [("routes", JNull)]))) sample_request
        (world_of sample_db_cached_B)).1
     = HTTPException 500 (Some TypeError).
Proof. repeat split; vm_compute; reflexivity. Qed.

(** ** The Redis cache *)

Lemma append_inj_r (p a b : string) : p +:+ a = p +:+ b -> a = b.
Proof. apply String.app_inj. Qed.

Lemma key_inj c k1 k2 : _key c k1 = _key c k2 -> k1 = k2.
Proof.
  unfold _key. intros H.
  apply append_inj_r in H. apply append_inj_r in H. by apply append_inj_r in H.
Qed.

Lemma cache_get_up E c key w :
  redis_up E = true ->
  cache_get E c key w
  = (Ok (match w_redis w !! _key c key with
         | Some (v, expiry) => if w_now w <? expiry then Some v else None
         | None => None
         end), w).
Proof.
  intros Hup. unfold cache_get. rewrite Hup.
  destruct (w_redis w !! _key c key) as [[v e]|]; [destruct (w_now w <? e)|]; reflexivity.
Qed.

Lemma cache_set_up E c key v ttl_s w :
  redis_up E = true ->
  cache_set E c key v ttl_s w
  = (Ok tt, set_redis (<[_key c key := (v, w_now w + default (ttl c) ttl_s * 1000000)]>
                         (w_redis w)) w).
Proof. intros Hup. unfold cache_set. rewrite Hup. reflexivity. Qed.

(** X1. Round trip of the Redis cache. A value stored under a key is what
    a later [get] of that key returns as long as its time to live has not
    run out, and a miss from then on; the entries under the other keys of
    the namespace are read as before; and after [delete] of the key, [get]
    is a miss. *)
Theorem cache_set_get_round_trip E c key v ttl_s w w' :
  redis_up E = true ->
  w_redis w' = w_redis (cache_set E c key v ttl_s w).2 ->
  (cache_get E c key w').1
  = Ok (if w_now w' <? w_now w + default (ttl c) ttl_s * 1000000 then Some v else None)
  /\ (forall key', key' <> key ->
        (cache_get E c key' w').1 = (cache_get E c key' (at_time w (w_now w'))).1)
  /\ (cache_get E c key (cache_delete E c key w').2).1 = Ok None.
Proof.
  intros Hup Hr. rewrite cache_set_up in Hr by done. simpl in Hr. split; [|split].
  - rewrite cache_get_up by done. simpl. rewrite Hr, lookup_insert_eq. reflexivity.
  - intros key' Hne. rewrite !cache_get_up by done. simpl.
    rewrite Hr, lookup_insert_ne; [reflexivity|].
    intros Heq. apply key_inj in Heq. congruence.
  - rewrite cache_get_up by done. unfold cache_delete. rewrite Hup. simpl.
    by rewrite lookup_delete_eq.
Qed.

Lemma cache_set_get_round_trip_witness :
  (cache_get sample_env suggest_cache "k"
     (at_time (cache_set sample_env suggest_cache "k" (CachedVector [1%Q]) None
                 (world_of sample_db)).2
              (w_now (world_of sample_db) + 299000000))).1
  = Ok (Some (CachedVector [1%Q]))
  /\ (cache_get sample_env suggest_cache "k"
        (at_time (cache_set sample_env suggest_cache "k" (CachedVector [1%Q]) None
                    (world_of sample_db)).2
                 (w_now (world_of sample_db) + 300000000))).1
     = Ok None.
Proof.
  split.
  - exact (proj1 (cache_set_get_round_trip sample_env suggest_cache "k" (CachedVector [1%Q])
                    None (world_of sample_db)
                    (at_time (cache_set sample_env suggest_cache "k" (CachedVector [1%Q]) None
                                (world_of sample_db)).2
                             (w_now (world_of sample_db) + 299000000))
                    eq_refl eq_refl)).
  - exact (proj1 (cache_set_get_round_trip sample_env suggest_cache "k" (CachedVector [1%Q])
                    None (world_of sample_db)
                    (at_time (cache_set sample_env suggest_cache "k" (CachedVector [1%Q]) None
                                (world_of sample_db)).2
                             (w_now (world_of sample_db) + 300000000))
                    eq_refl eq_refl)).
Defined.

Lemma append_cons (x : ascii) (a b : string) : String x a +:+ b = String x (a +:+ b).
Proof. reflexivity. Qed.

Lemma append_assoc (a b c : string) : (a +:+ b) +:+ c = a +:+ (b +:+ c).
Proof.
  induction a as [|x a IH]; [reflexivity|]. rewrite !append_cons. f_equal. exact IH.
Qed.

Lemma prefix_append (p s : string) : String.prefix p (p +:+ s) = true.
Proof.
  induction p as [|a p IH]; [by destruct s|].
  rewrite append_cons. simpl. destruct (ascii_dec a a); [exact IH|done].
Qed.

Lemma prefix_own_key c key : String.prefix ("twotable:" +:+ ns c +:+ ":") (_key c key) = true.
Proof.
  unfold _key.
  replace ("twotable:" +:+ ns c +:+ ":" +:+ key)
    with (("twotable:" +:+ ns c +:+ ":") +:+ key); [apply prefix_append|].
  by rewrite !append_assoc.
Qed.

Lemma prefix_other_key c c' key :
  c ∈ shared_instances -> c' ∈ shared_instances -> c' <> c ->
  String.prefix ("twotable:" +:+ ns c +:+ ":") (_key c' key) = false.
Proof.
  unfold shared_instances. rewrite !elem_of_cons, !elem_of_nil.
  intros [->|[->|[->|[->|[]]]]] [->|[->|[->|[->|[]]]]] Hne; try done; reflexivity.
Qed.

Lemma sample_keys_match_star s : sample_keys_match "*" s = true.
Proof. induction s as [|c s IH]; [reflexivity|]. simpl. simpl in IH. exact IH. Qed.

(** On a pattern made of a literal text and a final [*], the sample
    matcher is the prefix test. *)
Lemma sample_keys_match_prefix (lit k : string) :
  (forall c, c ∈ list_ascii_of_string lit -> c <> "*"%char /\ c <> "?"%char) ->
  sample_keys_match (lit +:+ "*") k = String.prefix lit k.
Proof.
  revert k. induction lit as [|a lit IH]; intros k Hlit.
  - rewrite sample_keys_match_star. by destruct k.
  - assert (Ha : a <> "*"%char /\ a <> "?"%char) by (apply Hlit; simpl; left).
    destruct Ha as [Ha1 Ha2].
    change (String a lit +:+ "*") with (String a (lit +:+ "*")).
    cbn [sample_keys_match].
    apply Ascii.eqb_neq in Ha1, Ha2. rewrite Ha1, Ha2.
    destruct k as [|b k]; [reflexivity|].
    cbn [String.prefix orb].
    destruct (ascii_dec a b) as [->|Hab].
    + rewrite Ascii.eqb_refl. cbn [andb]. apply IH.
      intros c Hc. apply Hlit. simpl. by right.
    + apply Ascii.eqb_neq in Hab. by rewrite Hab.
Qed.

Lemma redis_keys_spec keys_match pattern w k :
  k ∈ redis_keys keys_match pattern w
  <-> exists v expiry, w_redis w !! k = Some (v, expiry)
                       /\ keys_match pattern k = true /\ w_now w < expiry.
Proof.
  unfold redis_keys. rewrite elem_of_dom. unfold is_Some. split.
  - intros [[v e] H]. apply map_lookup_filter_Some in H as [H [H1 H2]]. by exists v, e.
  - intros (v & e & H & H1 & H2). exists (v, e). by apply map_lookup_filter_Some.
Qed.

(** X2. Clearing a shared cache. If the key matching of the Redis server
    reads the pattern of the instance as a prefix test, then after [clear]
    every [get] of the instance is a miss and its statistics count no live
    entry, while the other shared instances answer as before. *)
Theorem cache_clear_own_namespace keys_match E c w :
  redis_up E = true ->
  c ∈ shared_instances ->
  (forall k, keys_match (clear_pattern c) k = String.prefix ("twotable:" +:+ ns c +:+ ":") k) ->
  (forall key, (cache_get E c key (cache_clear keys_match E c w).2).1 = Ok None)
  /\ cache_stats keys_match E c (cache_clear keys_match E c w).2 = (ns c, Some 0)
  /\ (forall c' key, c' ∈ shared_instances -> c' <> c ->
        (cache_get E c' key (cache_clear keys_match E c w).2).1 = (cache_get E c' key w).1).
Proof.
  intros Hup Hc Hmatch.
  assert (Hw : cache_clear keys_match E c w
               = logger INFO "[%s] Cleared %d keys"
                   (set_redis (filter (fun kv => kv.1 ∉ redis_keys keys_match (clear_pattern c) w)
                                      (w_redis w)) w))
    by (unfold cache_clear; rewrite Hup; reflexivity).
  rewrite Hw. clear Hw. simpl. split; [|split].
  - intros key. rewrite cache_get_up by done. simpl.
    destruct (filter _ (w_redis w) !! _key c key) as [[v e]|] eqn:Hl; [|reflexivity].
    apply map_lookup_filter_Some in Hl as [Hl Hnot]. simpl in Hnot.
    destruct (w_now w <? e) eqn:Hlive; [|reflexivity].
    exfalso. apply Hnot. apply redis_keys_spec. exists v, e.
    split; [done|]. split; [|lia]. rewrite Hmatch. apply prefix_own_key.
  - unfold cache_stats. rewrite Hup. do 2 f_equal.
    replace (redis_keys keys_match (clear_pattern c) _) with (∅ : gset string); [done|].
    symmetry. apply elem_of_equiv_empty_L. intros k Hk.
    apply redis_keys_spec in Hk as (v & e & Hl & Hm & Hlive). simpl in *.
    apply map_lookup_filter_Some in Hl as [Hl Hnot]. simpl in Hnot.
    apply Hnot. apply redis_keys_spec. by exists v, e.
  - intros c' key Hc' Hne. rewrite !cache_get_up by done. simpl. f_equal.
    assert (Hout : _key c' key ∉ redis_keys keys_match (clear_pattern c) w).
    { intros Hk. apply redis_keys_spec in Hk as (v & e & _ & Hm & _).
      rewrite Hmatch, prefix_other_key in Hm by done. done. }
    destruct (w_redis w !! _key c' key) as [[v e]|] eqn:Hl.
    + rewrite (proj2 (map_lookup_filter_Some _ _ _ (v, e))); [reflexivity|by split].
    + rewrite (proj2 (map_lookup_filter_None _ _ _)); [reflexivity|by left].
Qed.

Lemma cache_clear_own_namespace_witness :
  (forall key,
     (cache_get sample_env suggest_cache key
        (cache_clear sample_keys_match sample_env suggest_cache
           (cache_set sample_env suggest_cache "k" (CachedSuggest [] "t") None
              (world_of sample_db)).2).2).1 = Ok None)
  /\ cache_stats sample_keys_match sample_env suggest_cache
       (cache_clear sample_keys_match sample_env suggest_cache
          (cache_set sample_env suggest_cache "k" (CachedSuggest [] "t") None
             (world_of sample_db)).2).2
     = ("suggest_results", Some 0).
Proof.
  assert (H := cache_clear_own_namespace sample_keys_match sample_env suggest_cache
                 (cache_set sample_env suggest_cache "k" (CachedSuggest [] "t") None
                    (world_of sample_db)).2
                 eq_refl).
  destruct H as (H1 & H2 & _).
  - unfold shared_instances. rewrite !elem_of_cons. tauto.
  - intros k. apply (sample_keys_match_prefix "twotable:suggest_results:").
    intros c Hc. simpl in Hc. rewrite !elem_of_cons, elem_of_nil in Hc.
    split; intros ->; repeat (destruct Hc as [Hc|Hc]; [discriminate|]); done.
  - split; [exact H1|exact H2].
Defined.

(** The keys of two different shared instances never coincide. *)
Lemma shared_keys_disjoint c c' key key' :
  c ∈ shared_instances -> c' ∈ shared_instances -> c' <> c -> _key c key <> _key c' key'.
Proof.
  intros Hc Hc' Hne Heq.
  pose proof (prefix_own_key c key) as H1.
  rewrite Heq, prefix_other_key in H1 by done. done.
Qed.

#[global] Instance keeps_well_typed_refl : Reflexive keeps_well_typed.
Proof. intros w. unfold keeps_well_typed. tauto. Qed.

#[global] Instance keeps_well_typed_trans : Transitive keeps_well_typed.
Proof. intros w1 w2 w3. unfold keeps_well_typed. tauto. Qed.

Lemma keeps_well_typed_same_redis w w' : w_redis w' = w_redis w -> keeps_well_typed w w'.
Proof. intros H. unfold keeps_well_typed, redis_well_typed. rewrite H. tauto. Qed.

Lemma well_typed_frame {A} (m : M A) : preserves frame m -> preserves keeps_well_typed m.
Proof. intros H w. apply keeps_well_typed_same_redis. apply (H w). Qed.

Lemma well_typed_logger lvl msg : preserves keeps_well_typed (logger lvl msg).
Proof. apply well_typed_frame, frame_logger. Qed.

Lemma well_typed_get_db : preserves keeps_well_typed get_db.
Proof. apply well_typed_frame, frame_get_db. Qed.

Lemma well_typed_commit E wr : preserves keeps_well_typed (commit E wr).
Proof.
  intros w. apply keeps_well_typed_same_redis. unfold commit.
  destruct (commit_ok E wr); reflexivity.
Qed.

Lemma well_typed_cache_get E c key : preserves keeps_well_typed (cache_get E c key).
Proof. intros w. apply keeps_well_typed_same_redis. apply only_logged_cache_get. Qed.

Lemma well_typed_set_vector E key vec :
  preserves keeps_well_typed (cache_set E intent_vector_cache key (CachedVector vec) None).
Proof.
  intros w. unfold cache_set. destruct (redis_up E); [|apply well_typed_logger].
  intros [Hs Hv]. split; simpl.
  - intros k v e. rewrite lookup_insert_ne; [apply Hs|].
    apply shared_keys_disjoint; [| |done]; unfold shared_instances; rewrite !elem_of_cons; tauto.
  - intros k v e. destruct (decide (_key intent_vector_cache key = _key intent_vector_cache k))
      as [->|Hne].
    + rewrite lookup_insert_eq. intros [= <- _]. by eexists.
    + rewrite lookup_insert_ne by done. apply Hv.
Qed.

Lemma well_typed_set_suggest E key sugs txt :
  preserves keeps_well_typed (cache_set E suggest_cache key (CachedSuggest sugs txt) None).
Proof.
  intros w. unfold cache_set. destruct (redis_up E); [|apply well_typed_logger].
  intros [Hs Hv]. split; simpl.
  - intros k v e. destruct (decide (_key suggest_cache key = _key suggest_cache k))
      as [->|Hne].
    + rewrite lookup_insert_eq. intros [= <- _]. by do 2 eexists.
    + rewrite lookup_insert_ne by done. apply Hs.
  - intros k v e. rewrite lookup_insert_ne; [apply Hv|].
    apply shared_keys_disjoint; [| |done]; unfold shared_instances; rewrite !elem_of_cons; tauto.
Qed.

Ltac well_typed_step :=
  lazymatch goal with
  | |- preserves _ (bind _ _) => apply preserves_bind; [apply _| |intros ?]
  | |- preserves _ (ret _) => apply preserves_ret; apply _
  | |- preserves _ (raise _) => apply preserves_raise; apply _
  | |- preserves _ (lift _) => apply preserves_lift; apply _
  | |- preserves _ (try_except _ _) => apply preserves_try_except; [apply _| |intros ?]
  | |- preserves _ (logger _ _) => apply well_typed_logger
  | |- preserves _ get_db => apply well_typed_get_db
  | |- preserves _ (commit _ _) => apply well_typed_commit
  | |- preserves _ (cache_get _ _ _) => apply well_typed_cache_get
  | |- preserves _ (cache_set _ intent_vector_cache _ _ _) => apply well_typed_set_vector
  | |- preserves _ (cache_set _ suggest_cache _ _ _) => apply well_typed_set_suggest
  | |- preserves _ (if ?b then _ else _) => destruct b
  | |- preserves _ (match ?x with Some _ => _ | None => _ end) => destruct x
  end.

Lemma well_typed_intent_vector E txt : preserves keeps_well_typed (_get_intent_vector E txt).
Proof.
  unfold _get_intent_vector. well_typed_step; [well_typed_step|].
  destruct a as [[s t|v]|]; repeat well_typed_step.
Qed.

Lemma well_typed_similarity_stage E req txt ids :
  preserves keeps_well_typed (similarity_stage E req txt ids).
Proof.
  unfold similarity_stage, log_intent_embedding, rollback.
  well_typed_step; [well_typed_step|].
  destruct (_ =? _)%nat; [repeat well_typed_step|].
  well_typed_step; [apply well_typed_intent_vector|].
  repeat well_typed_step.
Qed.

Lemma well_typed_rank_and_build E req txt key candidates sim :
  preserves keeps_well_typed (rank_and_build E req txt key candidates sim).
Proof. unfold rank_and_build. repeat well_typed_step. Qed.

Lemma well_typed_suggest_venues E req : preserves keeps_well_typed (suggest_venues E req).
Proof.
  unfold suggest_venues. well_typed_step; [well_typed_step|].
  destruct a as [[s t|v]|]; try (repeat well_typed_step; fail).
  well_typed_step; [apply well_typed_frame, frame_hard_filter|].
  destruct a as [|c cs]; [repeat well_typed_step|].
  well_typed_step; [well_typed_step|].
  well_typed_step; [apply well_typed_similarity_stage|apply well_typed_rank_and_build].
Qed.

(** X3. The entries of the suggest cache and of the intent-vector cache
    keep their shapes. The keys of the two caches never coincide, so a run
    of [suggest_venues] on a store where every suggest entry is an answer
    and every intent entry is a vector leaves such a store; and on such a
    store a live entry under the key of the request is always served. *)
Theorem suggest_venues_keeps_redis_well_typed E req w :
  redis_well_typed w ->
  redis_well_typed (suggest_venues E req w).2
  /\ (forall v expiry,
        redis_up E = true ->
        w_redis w !! _key suggest_cache (_suggest_cache_key E req) = Some (v, expiry) ->
        w_now w < expiry ->
        exists sugs txt, v = CachedSuggest sugs txt
                         /\ (suggest_venues E req w).1 = Ok (sugs, txt)).
Proof.
  intros Hw. split; [by apply well_typed_suggest_venues|].
  intros v e Hup Hl Hlive.
  destruct (proj1 Hw _ _ _ Hl) as (sugs & txt & ->).
  exists sugs, txt. split; [done|]. by eapply suggest_venues_hit.
Qed.

Lemma suggest_venues_keeps_redis_well_typed_witness :
  redis_well_typed (suggest_venues sample_env sample_request (world_of sample_db)).2.
Proof.
  apply (suggest_venues_keeps_redis_well_typed sample_env sample_request (world_of sample_db)).
  split; intros key v e H; vm_compute in H; discriminate.
Defined.

(** ** The travel-time cache *)

Lemma get_travel_time_lookup E o d vid mode w b :
  get_time_bucket E w = (Ok b, w) ->
  get_travel_time E o d vid mode w
  = match scalar_one_or_none (travel_cache_rows E o vid mode b (w_db w)) with
    | Raise e => (Raise e, w)
    | Ok (Some row) =>
        if w_now w - tt_last_checked_at row <? travel_time_ttl E
        then (Ok (Some (tt_travel_minutes row)), w)
        else
          match commit E (DeleteTravelTime row) w with
          | (Raise e, w1) => (Raise e, w1)
          | (Ok _, w1) =>
              match call_provider E o d mode w1 with
              | (Ok (Some minutes), w2) =>
                  match commit E (InsertTravelTime
                                    (travel_time_row E o vid mode b minutes (w_now w2))) w2 with
                  | (Ok _, w3) => (Ok (Some minutes), w3)
                  | (Raise e, w3) => (Raise e, w3)
                  end
              | (Ok None, w2) => (Ok None, w2)
              | (Raise e, w2) => (Raise e, w2)
              end
          end
    | Ok None =>
        match call_provider E o d mode w with
        | (Ok (Some minutes), w2) =>
            match commit E (InsertTravelTime
                              (travel_time_row E o vid mode b minutes (w_now w2))) w2 with
            | (Ok _, w3) => (Ok (Some minutes), w3)
            | (Raise e, w3) => (Raise e, w3)
            end
        | (Ok None, w2) => (Ok None, w2)
        | (Raise e, w2) => (Raise e, w2)
        end
    end.
Proof.
  intros Hb. unfold get_travel_time, travel_cache_rows, travel_time_ttl, travel_time_row.
  unfold bind at 1. rewrite Hb. unfold bind at 1. unfold get_db at 1.
  unfold bind at 1. unfold lift at 1.
  destruct (scalar_one_or_none _) as [[row|]|e]; [| |reflexivity].
  - unfold bind at 1. unfold bind at 1. unfold now_utc at 1.
    cbv beta iota zeta.
    destruct (w_now w - tt_last_checked_at row <? _); [reflexivity|].
    unfold bind at 1. destruct (commit E (DeleteTravelTime row) w) as [[[]|e] w1]; [|reflexivity].
    unfold ret at 1. unfold bind at 1.
    destruct (call_provider E o d mode w1) as [[[m|]|e] w2]; reflexivity.
  - unfold bind at 1. unfold ret at 1. unfold bind at 1.
    destruct (call_provider E o d mode w) as [[[m|]|e] w2]; reflexivity.
Qed.

#[global] Instance only_sent_refl : Reflexive only_sent.
Proof. intros w. unfold only_sent. tauto. Qed.

#[global] Instance only_sent_trans : Transitive only_sent.
Proof. intros w1 w2 w3. unfold only_sent. intros (?&?&?&?) (?&?&?&?). repeat split; congruence. Qed.

Lemma only_sent_client_send E rq : preserves only_sent (client_send E rq).
Proof. intros w. unfold client_send. destruct (http_send E rq); unfold only_sent; simpl; tauto. Qed.

Ltac only_sent_step :=
  lazymatch goal with
  | |- preserves _ (bind _ _) => apply preserves_bind; [apply _| |intros ?]
  | |- preserves _ (ret _) => apply preserves_ret; apply _
  | |- preserves _ (raise _) => apply preserves_raise; apply _
  | |- preserves _ (lift _) => apply preserves_lift; apply _
  | |- preserves _ (client_send _ _) => apply only_sent_client_send
  | |- preserves _ (if ?b then _ else _) => destruct b
  end.

(** Asking the routing provider changes neither the database, nor Redis,
    nor the log. *)
Lemma only_sent_call_provider E o d mode : preserves only_sent (call_provider E o d mode).
Proof.
  unfold call_provider, _fetch_tomtom, _fetch_ors, _fetch_mapbox. repeat only_sent_step.
Qed.

Lemma get_time_bucket_world E w : (get_time_bucket E w).2 = w.
Proof. reflexivity. Qed.

Lemma get_time_bucket_Ok E w : exists b, get_time_bucket E w = (Ok b, w).
Proof. unfold get_time_bucket. by eexists. Qed.

Lemma get_time_bucket_now E w w' b :
  w_now w' = w_now w -> get_time_bucket E w = (Ok b, w) -> get_time_bucket E w' = (Ok b, w').
Proof. unfold get_time_bucket. intros ->. intros [= <-]. reflexivity. Qed.

Lemma cache_row_matches_own E o vid mode b m now :
  cache_row_matches (make_origin_hash E o.1 o.2) vid mode b
    (travel_time_row E o vid mode b m now) = true.
Proof.
  unfold cache_row_matches, travel_time_row. simpl.
  by rewrite !String.eqb_refl, Z.eqb_refl.
Qed.

Lemma get_travel_time_hit E o d vid mode w b row :
  get_time_bucket E w = (Ok b, w) ->
  travel_cache_rows E o vid mode b (w_db w) = [row] ->
  w_now w - tt_last_checked_at row < travel_time_ttl E ->
  get_travel_time E o d vid mode w = (Ok (Some (tt_travel_minutes row)), w).
Proof.
  intros Hb Hrows Hage. rewrite (get_travel_time_lookup _ _ _ _ _ _ _ Hb), Hrows. simpl.
  by rewrite (proj2 (Z.ltb_lt _ _) Hage).
Qed.

(** X4. A fresh row of the travel-time cache is served as it is. When the
    table holds exactly one row for the origin cell, the venue, the mode and
    the current time bucket, and the row is younger than the time to live,
    [get_travel_time] returns its minutes whatever the destination and the
    provider are, sends no request and changes nothing. *)
Theorem get_travel_time_fresh_hit E o d vid mode w b row :
  get_time_bucket E w = (Ok b, w) ->
  travel_cache_rows E o vid mode b (w_db w) = [row] ->
  w_now w - tt_last_checked_at row < travel_time_ttl E ->
  get_travel_time E o d vid mode w = (Ok (Some (tt_travel_minutes row)), w).
Proof. apply get_travel_time_hit. Qed.

Lemma get_travel_time_fresh_hit_witness :
  get_travel_time sample_env (514545 # 10000, -25879 # 10000) (0%Q, 0%Q) 2 "drive"
    (world_of sample_db_cached_B)
  = (Ok (Some 12%Q), world_of sample_db_cached_B).
Proof.
  apply (get_travel_time_fresh_hit sample_env (514545 # 10000, -25879 # 10000) (0%Q, 0%Q) 2
           "drive" (world_of sample_db_cached_B) "weekday_evening"
           {| tt_origin_hash := make_origin_hash sample_env (514545 # 10000) (-25879 # 10000);
              tt_venue_id := 2; tt_mode := "drive"; tt_time_bucket := "weekday_evening";
              tt_travel_minutes := 12; tt_last_checked_at := 1771959600000000 - 3600000000 |}).
  - vm_compute. reflexivity.
  - vm_compute. reflexivity.
  - vm_compute. reflexivity.
Defined.

(** X5. Round trip of the travel-time cache. On a miss the answer of the
    provider is returned; a number is stored in a new row and nothing else
    is written, and no answer leaves the table as it was. Once the row is
    in the table, its number is what every later call for the same origin
    cell, venue, mode and time bucket returns until the time to live has
    run out, without a request to the provider. *)
Theorem get_travel_time_round_trip E o d vid mode w b r w1 :
  get_time_bucket E w = (Ok b, w) ->
  travel_cache_rows E o vid mode b (w_db w) = [] ->
  call_provider E o d mode w = (Ok r, w1) ->
  (forall m, commit_ok E (InsertTravelTime (travel_time_row E o vid mode b m (w_now w))) = true) ->
  get_travel_time E o d vid mode w
  = (Ok r,
     match r with
     | Some m =>
         set_db (apply_write (InsertTravelTime (travel_time_row E o vid mode b m (w_now w)))
                             (w_db w)) w1
     | None => w1
     end)
  /\ forall m d' w3,
       r = Some m ->
       travel_time_cache (w_db w3)
       = travel_time_cache (w_db w) ++ [travel_time_row E o vid mode b m (w_now w)] ->
       get_time_bucket E w3 = (Ok b, w3) ->
       w_now w3 - w_now w < travel_time_ttl E ->
       get_travel_time E o d' vid mode w3 = (Ok (Some m), w3).
Proof.
  intros Hb Hrows Hcall Hcommit.
  destruct (only_sent_call_provider E o d mode w) as (Hdb & Hredis & Hlog & Hnow).
  rewrite Hcall in Hdb, Hredis, Hlog, Hnow. simpl in *.
  rewrite (get_travel_time_lookup _ _ _ _ _ _ _ Hb), Hrows. simpl. rewrite Hcall.
  split.
  - destruct r as [m|]; [|reflexivity].
    unfold commit. rewrite Hnow, Hcommit. unfold bind, get_db, set_db. by rewrite Hdb.
  - intros m d' w3 -> Hdb3 Hb3 Hage.
    apply (get_travel_time_hit E o d' vid mode w3 b
             (travel_time_row E o vid mode b m (w_now w))); [done| |done].
    unfold travel_cache_rows in *. rewrite Hdb3.
    rewrite filter_app, Hrows. simpl.
    rewrite filter_cons_True by apply cache_row_matches_own. done.
Qed.

Lemma get_travel_time_round_trip_witness :
  (get_travel_time sample_env (514545 # 10000, -25879 # 10000) (514545 # 10000, -25879 # 10000)
     1 "drive" (world_of sample_db)).1
  = Ok (Some (py_round (600 / 60) 1))
  /\ get_travel_time sample_env (514545 # 10000, -25879 # 10000) (0%Q, 0%Q) 1 "drive"
       (get_travel_time sample_env (514545 # 10000, -25879 # 10000)
          (514545 # 10000, -25879 # 10000) 1 "drive" (world_of sample_db)).2
     = (Ok (Some (py_round (600 / 60) 1)),
        (get_travel_time sample_env (514545 # 10000, -25879 # 10000)
           (514545 # 10000, -25879 # 10000) 1 "drive" (world_of sample_db)).2).
Proof.
  destruct (get_travel_time_round_trip sample_env (514545 # 10000, -25879 # 10000)
              (514545 # 10000, -25879 # 10000) 1 "drive" (world_of sample_db)
              "weekday_evening" (Some (py_round (600 / 60) 1))
              (call_provider sample_env (514545 # 10000, -25879 # 10000)
                 (514545 # 10000, -25879 # 10000) "drive" (world_of sample_db)).2)
    as [H1 H2].
  - vm_compute. reflexivity.
  - vm_compute. reflexivity.
  - vm_compute. reflexivity.
  - intros m. reflexivity.
  - split; [rewrite H1; reflexivity|].
    apply (H2 (py_round (600 / 60) 1) (0%Q, 0%Q) _ eq_refl).
    + vm_compute. reflexivity.
    + vm_compute. reflexivity.
    + vm_compute. reflexivity.
Defined.

Lemma cache_row_matches_same_key h vid mode b row r :
  cache_row_matches h vid mode b row = true ->
  cache_row_matches h vid mode b r = true ->
  negb (String.eqb (tt_origin_hash r) (tt_origin_hash row)
        && (tt_venue_id r =? tt_venue_id row)
        && String.eqb (tt_mode r) (tt_mode row)
        && String.eqb (tt_time_bucket r) (tt_time_bucket row)) = false.
Proof.
  unfold cache_row_matches. rewrite !andb_true_iff.
  intros [[[H1 H2] H3] H4] [[[G1 G2] G3] G4].
  apply String.eqb_eq in H1, H3, H4, G1, G3, G4. apply Z.eqb_eq in H2, G2.
  rewrite H1, H2, H3, H4, G1, G2, G3, G4.
  by rewrite !String.eqb_refl, Z.eqb_refl.
Qed.

Lemma travel_cache_rows_after_delete E o vid mode b d row :
  cache_row_matches (make_origin_hash E o.1 o.2) vid mode b row = true ->
  travel_cache_rows E o vid mode b (apply_write (DeleteTravelTime row) d) = [].
Proof.
  intros Hrow. unfold travel_cache_rows. simpl.
  apply elem_of_nil_inv. intros r Hin.
  apply list_elem_of_filter in Hin as [Hr Hin].
  apply list_elem_of_filter in Hin as [Hkeep _].
  by rewrite (cache_row_matches_same_key _ _ _ _ _ _ Hrow Hr) in Hkeep.
Qed.

(** X6. An expired row of the travel-time cache is deleted before the
    provider is asked. When the one row for the key is as old as the time
    to live or older and its deletion is committed, the call goes on
    exactly as a call on the table without the row: the old minutes are
    never returned, and they are gone even if the provider then gives no
    answer. *)
Theorem get_travel_time_expired E o d vid mode w b row :
  get_time_bucket E w = (Ok b, w) ->
  travel_cache_rows E o vid mode b (w_db w) = [row] ->
  travel_time_ttl E <= w_now w - tt_last_checked_at row ->
  commit_ok E (DeleteTravelTime row) = true ->
  get_travel_time E o d vid mode w
  = get_travel_time E o d vid mode (set_db (apply_write (DeleteTravelTime row) (w_db w)) w)
  /\ travel_cache_rows E o vid mode b (apply_write (DeleteTravelTime row) (w_db w)) = [].
Proof.
  intros Hb Hrows Hage Hcommit.
  assert (Hrow : cache_row_matches (make_origin_hash E o.1 o.2) vid mode b row = true).
  { assert (Hin : row ∈ travel_cache_rows E o vid mode b (w_db w))
      by (rewrite Hrows; apply list_elem_of_here).
    unfold travel_cache_rows in Hin. by apply list_elem_of_filter in Hin as [Hin _]. }
  split; [|by apply travel_cache_rows_after_delete].
  assert (Hrhs : get_travel_time E o d vid mode
                   (set_db (apply_write (DeleteTravelTime row) (w_db w)) w)
                 = match call_provider E o d mode
                           (set_db (apply_write (DeleteTravelTime row) (w_db w)) w) with
                   | (Ok (Some minutes), w2) =>
                       match commit E (InsertTravelTime
                                         (travel_time_row E o vid mode b minutes (w_now w2)))
                                    w2 with
                       | (Ok _, w3) => (Ok (Some minutes), w3)
                       | (Raise e, w3) => (Raise e, w3)
                       end
                   | (Ok None, w2) => (Ok None, w2)
                   | (Raise e, w2) => (Raise e, w2)
                   end).
  { rewrite (get_travel_time_lookup E o d vid mode (set_db _ w) b)
      by (apply (get_time_bucket_now E w); [reflexivity|exact Hb]).
    change (w_db (set_db (apply_write (DeleteTravelTime row) (w_db w)) w))
      with (apply_write (DeleteTravelTime row) (w_db w)).
    rewrite travel_cache_rows_after_delete by done. reflexivity. }
  rewrite Hrhs.
  rewrite (get_travel_time_lookup _ _ _ _ _ _ _ Hb), Hrows.
  cbn [scalar_one_or_none].
  rewrite (proj2 (Z.ltb_ge _ _) Hage).
  unfold commit at 1. rewrite Hcommit. reflexivity.
Qed.

Lemma get_travel_time_expired_witness :
  get_travel_time sample_env (514545 # 10000, -25879 # 10000) (514545 # 10000, -25879 # 10000)
    2 "drive" (at_time (world_of sample_db_cached_B) (1771959600000000 + 7 * 86400000000))
  = get_travel_time sample_env (514545 # 10000, -25879 # 10000)
      (514545 # 10000, -25879 # 10000) 2 "drive"
      (set_db (apply_write
                 (DeleteTravelTime
                    {| tt_origin_hash :=
                         make_origin_hash sample_env (514545 # 10000) (-25879 # 10000);
                       tt_venue_id := 2; tt_mode := "drive";
                       tt_time_bucket := "weekday_evening"; tt_travel_minutes := 12;
                       tt_last_checked_at := 1771959600000000 - 3600000000 |})
                 sample_db_cached_B)
              (at_time (world_of sample_db_cached_B) (1771959600000000 + 7 * 86400000000))).
Proof.
  apply (get_travel_time_expired sample_env (514545 # 10000, -25879 # 10000)
           (514545 # 10000, -25879 # 10000) 2 "drive"
           (at_time (world_of sample_db_cached_B) (1771959600000000 + 7 * 86400000000))
           "weekday_evening"
           {| tt_origin_hash := make_origin_hash sample_env (514545 # 10000) (-25879 # 10000);
              tt_venue_id := 2; tt_mode := "drive"; tt_time_bucket := "weekday_evening";
              tt_travel_minutes := 12; tt_last_checked_at := 1771959600000000 - 3600000000 |}).
  - vm_compute. reflexivity.
  - vm_compute. reflexivity.
  - vm_compute. discriminate.
  - reflexivity.
Defined.

(** ** The routing providers *)

Lemma except_KeyError_IndexError_Some {A} (r : result A) a :
  except_KeyError_IndexError r = Ok (Some a) -> r = Ok a.
Proof. destruct r as [x|[]]; simpl; congruence. Qed.

Lemma py_round_one_decimal x : (py_round x 1 * 10 == inject_Z (round_half_even (x * 10)))%Q.
Proof.
  unfold py_round. change (inject_Z (10 ^ Z.of_nat 1)) with 10%Q. field.
Qed.

Ltac rbind_inv H :=
  repeat (let a := fresh "a" in let Ha := fresh "Ha" in
          apply rbind_Ok in H as (a & Ha & H)).

(** X7. The minutes that a routing provider answers have at most one
    decimal: whatever the provider and the response, a number returned by
    [call_provider] is a whole number of tenths of a minute. *)
Theorem call_provider_one_decimal E o d mode w m w' :
  call_provider E o d mode w = (Ok (Some m), w') ->
  exists tenths : Z, (m * 10 == inject_Z tenths)%Q.
Proof.
  unfold call_provider, _fetch_tomtom, _fetch_ors, _fetch_mapbox.
  intros H.
  assert (Hx : exists x, m = py_round x 1).
  { repeat match type of H with
           | (if ?b then _ else _) _ = _ => destruct b
           end.
    4: discriminate.
    all: apply bind_Ok in H as (resp & w1 & _ & H);
      destruct (negb (resp.1 =? 200)); [discriminate|].
    - apply bind_Ok in H as (data & w2 & _ & H). unfold lift in H.
      injection H as H _. apply except_KeyError_IndexError_Some in H.
      rbind_inv H. injection H as <-. by eexists.
    - unfold lift in H. injection H as H _. apply except_KeyError_IndexError_Some in H.
      rbind_inv H. injection H as <-. by eexists.
    - unfold lift in H. injection H as H _. apply except_KeyError_IndexError_Some in H.
      rbind_inv H. injection H as <-. by eexists. }
  destruct Hx as [x ->]. eexists. apply py_round_one_decimal.
Qed.

Lemma call_provider_one_decimal_witness :
  exists tenths : Z, (py_round (600 / 60) 1 * 10 == inject_Z tenths)%Q.
Proof.
  apply (call_provider_one_decimal sample_env (514545 # 10000, -25879 # 10000)
           (514545 # 10000, -25879 # 10000) "drive" (world_of sample_db)
           (py_round (600 / 60) 1)
           (call_provider sample_env (514545 # 10000, -25879 # 10000)
              (514545 # 10000, -25879 # 10000) "drive" (world_of sample_db)).2).
  vm_compute. reflexivity.
Defined.

(** X8. Every travel mode other than walking is routed as a car journey.
    For transit, and for any mode the providers have no profile for, the
    request sent to the provider and so its answer are those of driving. *)
Theorem call_provider_routes_as_drive E o d mode :
  mode <> "walk" ->
  call_provider E o d mode = call_provider E o d "drive".
Proof.
  intros Hwalk.
  assert (Hcases : mode = "drive" \/ mode = "transit"
                   \/ (String.eqb mode "drive" = false /\ String.eqb mode "walk" = false
                       /\ String.eqb mode "transit" = false)).
  { destruct (String.eqb mode "drive") eqn:H1; [left; by apply String.eqb_eq|].
    destruct (String.eqb mode "transit") eqn:H3; [right; left; by apply String.eqb_eq|].
    destruct (String.eqb mode "walk") eqn:H2; [by apply String.eqb_eq in H2|].
    right; right. done. }
  destruct Hcases as [->|[->|(H1 & H2 & H3)]]; [reflexivity|reflexivity|].
  unfold call_provider, _fetch_tomtom, _fetch_ors, _fetch_mapbox.
  cbn [assoc_get]. rewrite H1, H2, H3. reflexivity.
Qed.

Lemma call_provider_routes_as_drive_witness :
  call_provider sample_env (514545 # 10000, -25879 # 10000) (0%Q, 0%Q) "transit"
  = call_provider sample_env (514545 # 10000, -25879 # 10000) (0%Q, 0%Q) "drive".
Proof.
  apply (call_provider_routes_as_drive sample_env (514545 # 10000, -25879 # 10000)
           (0%Q, 0%Q) "transit").
  discriminate.
Defined.

(** X9. The travel time of the scenario test is the travel time of the
    TomTom fetcher: for every response of the provider the two send the
    same request and return or raise the same. *)
Theorem get_test_travel_time_as_fetch_tomtom E o d mode w :
  _get_test_travel_time E o d mode w = _fetch_tomtom E o d mode w.
Proof.
  unfold _get_test_travel_time, _fetch_tomtom, bind.
  destruct (client_send E _ w) as [[resp|e] w1]; [|reflexivity].
  destruct (negb (resp.1 =? 200)); [reflexivity|].
  destruct resp.2 as [data|]; reflexivity.
Qed.

(** ** Serving from the suggest cache *)

Lemma cache_get_same_store E c key w w' :
  w_redis w' = w_redis w -> w_now w' = w_now w ->
  (cache_get E c key w').1 = (cache_get E c key w).1.
Proof.
  intros Hr Hn. unfold cache_get. destruct (redis_up E); [|reflexivity].
  rewrite Hr, Hn. destruct (w_redis w !! _key c key) as [[v e]|]; [|reflexivity].
  by destruct (w_now w <? e).
Qed.

Lemma suggest_venues_hit_run E req w sugs txt expiry :
  redis_up E = true ->
  w_redis w !! _key suggest_cache (_suggest_cache_key E req)
  = Some (CachedSuggest sugs txt, expiry) ->
  w_now w < expiry ->
  suggest_venues E req w = (Ok (sugs, txt), (logger INFO "suggest Redis HIT key=%s" w).2).
Proof.
  intros Hup Hl Hlive. unfold suggest_venues, bind.
  rewrite cache_get_up by done. rewrite Hl, (proj2 (Z.ltb_lt _ _) Hlive). reflexivity.
Qed.

(** X10. A repeated request is answered from the suggest cache without any
    effect. After a run that computed a non-empty answer, every run for the
    same request within five minutes returns that answer, whatever the
    database holds by then, and changes nothing but the log: no routing
    request is sent and neither the database nor Redis is written. *)
Theorem suggest_venues_repeat_is_served E req w sugs txt w1 w2 :
  redis_up E = true ->
  suggest_cache_miss E req w ->
  suggest_venues E req w = (Ok (sugs, txt), w1) ->
  sugs <> [] ->
  w_redis w2 = w_redis w1 ->
  w_now w2 < w_now w1 + 300 * 1000000 ->
  (suggest_venues E req w2).1 = Ok (sugs, txt)
  /\ only_logged w2 (suggest_venues E req w2).2.
Proof.
  intros Hup Hmiss Hrun Hne Hredis Hnow.
  destruct (suggest_venues_miss_run _ _ _ _ _ Hmiss Hrun) as (cands & w3 & Hhard & Hrest).
  destruct cands as [|c cs]; [by injection Hrest as -> _|].
  destruct Hrest as (sim & w4 & _ & Hrank).
  pose proof (rank_and_build_stores _ _ _ _ _ _ _ _ _ Hup Hrank) as Hstored. simpl in Hstored.
  rewrite <- Hredis in Hstored.
  rewrite (suggest_venues_hit_run E req w2 sugs txt _ Hup Hstored Hnow). simpl.
  split; [reflexivity|]. unfold only_logged. simpl. tauto.
Qed.

Lemma suggest_venues_repeat_is_served_witness :
  exists sugs txt,
    (suggest_venues sample_env sample_request (world_of sample_db)).1 = Ok (sugs, txt)
    /\ (suggest_venues sample_env sample_request
          (suggest_venues sample_env sample_request (world_of sample_db)).2).1 = Ok (sugs, txt)
    /\ w_sent (suggest_venues sample_env sample_request
                 (suggest_venues sample_env sample_request (world_of sample_db)).2).2
       = w_sent (suggest_venues sample_env sample_request (world_of sample_db)).2.
Proof.
  eexists. eexists. split; [vm_compute; reflexivity|].
  match goal with
  | |- (suggest_venues _ _ ?w2).1 = Ok (?sugs, ?txt) /\ _ =>
      destruct (suggest_venues_repeat_is_served sample_env sample_request (world_of sample_db)
                  sugs txt w2 w2) as [H1 (_ & _ & H2 & _)]
  end.
  - reflexivity.
  - vm_compute. reflexivity.
  - vm_compute. reflexivity.
  - discriminate.
  - reflexivity.
  - vm_compute. reflexivity.
  - split; [exact H1|exact H2].
Defined.

(** X11. An empty answer is never stored. When no venue passes the hard
    filters on a miss of the suggest cache, the matcher returns the empty
    list with the intent text, the endpoint answers 404, Redis is left as
    it was, and the same request is a miss again. *)
Theorem empty_answer_is_not_cached E req w w2 :
  suggest_cache_miss E req w ->
  hard_filter_of E req (cache_get E suggest_cache (_suggest_cache_key E req) w).2 = (Ok [], w2) ->
  (suggest_venues E req w).1 = Ok ([], intent_text_of req)
  /\ (suggest E req w).1 = HTTPException 404 None
  /\ w_redis (suggest_venues E req w).2 = w_redis w
  /\ suggest_cache_miss E req (suggest_venues E req w).2.
Proof.
  intros Hmiss Hhard. unfold suggest_cache_miss in *.
  pose proof (only_logged_cache_get E suggest_cache (_suggest_cache_key E req) w)
    as (_ & Hr0 & _ & Hn0).
  pose proof (frame_hard_filter E (city req) (date req) (time req) (origin_lat req)
                (origin_lng req) (travel_mode_value (travel_mode req)) (max_travel_minutes req)
                (cache_get E suggest_cache (_suggest_cache_key E req) w).2)
    as (_ & _ & Hr1 & Hn1).
  fold (hard_filter_of E req) in Hr1, Hn1. rewrite Hhard in Hr1, Hn1. simpl in Hr1, Hn1.
  assert (Hrun : suggest_venues E req w
                 = (Ok ([], intent_text_of req),
                    (logger INFO "No candidates after hard filters — city=%s" w2).2)).
  { unfold suggest_venues, bind.
    destruct (cache_get E suggest_cache (_suggest_cache_key E req) w) as [r w0].
    simpl in Hmiss, Hhard. subst r. unfold hard_filter_of in Hhard. rewrite Hhard.
    reflexivity. }
  unfold suggest. rewrite Hrun. simpl.
  split; [done|]. split; [done|]. split; [congruence|].
  rewrite <- Hmiss. apply cache_get_same_store; simpl; congruence.
Qed.

Lemma empty_answer_is_not_cached_witness :
  (suggest sample_env (with_origin sample_request (Some 0%Q) (Some 0%Q))
     (world_of sample_db_no_coordinates)).1 = HTTPException 404 None.
Proof.
  apply (empty_answer_is_not_cached sample_env (with_origin sample_request (Some 0%Q) (Some 0%Q))
           (world_of sample_db_no_coordinates)
           (hard_filter_of sample_env (with_origin sample_request (Some 0%Q) (Some 0%Q))
              (world_of sample_db_no_coordinates)).2).
  - vm_compute. reflexivity.
  - vm_compute. reflexivity.
Defined.

(** ** Candidates and suggestions *)

Lemma travel_loop_sublist E olat olng mode max vs w cs w' :
  travel_loop E olat olng mode max vs w = (Ok cs, w') ->
  map venue cs `sublist_of` vs.
Proof.
  revert w cs w'. induction vs as [|v vs IH]; intros w cs w' H.
  - injection H as <- _. constructor.
  - simpl in H. apply bind_Ok in H as (c & w1 & Hc & H).
    apply bind_Ok in H as (cs' & w2 & Hcs & H). injection H as <- _.
    apply IH in Hcs. destruct c as [c|].
    + apply travel_gate_Some in Hc as [<- _]. simpl. by constructor.
    + by constructor.
Qed.

Lemma surviving_sublist E d city date t olat olng mode max :
  surviving_venues E d city date t olat olng mode max `sublist_of` venues d.
Proof.
  assert (Ha : available_venues E d city date t `sublist_of` venues d).
  { unfold available_venues, select_open_venues.
    etransitivity; apply sublist_filter. }
  unfold surviving_venues, prefilter_by_distance.
  destruct olat, olng; try done. etransitivity; [apply sublist_filter|done].
Qed.

Lemma hard_filter_sublist E city date t olat olng mode max w cs w' :
  _get_hard_filtered_candidates E city date t olat olng mode max w = (Ok cs, w') ->
  map venue cs `sublist_of` venues (w_db w).
Proof.
  intros H.
  destruct (hard_filter_as_loop E city date t olat olng mode max w) as (w0 & _ & Heq).
  rewrite Heq in H. apply travel_loop_sublist in H.
  etransitivity; [exact H|apply surviving_sublist].
Qed.

Lemma sublist_map {A B} (f : A -> B) (l k : list A) :
  l `sublist_of` k -> map f l `sublist_of` map f k.
Proof. induction 1; simpl; by constructor. Qed.

Lemma map_snd_scored sim loads ids :
  map snd (map (fun vid => (score_of sim loads vid, vid)) ids) = ids.
Proof. induction ids as [|i ids IH]; simpl; [done|by rewrite IH]. Qed.

Lemma Permutation_map' {A B} (f : A -> B) (l k : list A) : l ≡ₚ k -> map f l ≡ₚ map f k.
Proof. induction 1; simpl; [done|by constructor|by constructor|by etransitivity]. Qed.

(** X12. No venue is suggested twice. When the ids of the venue table are
    pairwise distinct, the suggestions computed on a miss of the suggest
    cache have pairwise distinct venue ids, each is a venue of the table
    that passed the hard filters, and there are as many of them as there
    are candidates, up to the requested number. *)
Theorem suggestions_are_distinct E req w sugs txt :
  NoDup (map v_id (venues (w_db w))) ->
  0 <= top_n req ->
  suggest_cache_miss E req w ->
  (suggest_venues E req w).1 = Ok (sugs, txt) ->
  NoDup (map s_venue_id sugs)
  /\ exists candidates w2,
       hard_filter_of E req (cache_get E suggest_cache (_suggest_cache_key E req) w).2
       = (Ok candidates, w2)
       /\ length sugs = Nat.min (Z.to_nat (top_n req)) (length candidates)
       /\ forall s, s ∈ sugs -> s_venue_id s ∈ candidate_ids_of candidates.
Proof.
  intros Hnodup Htop Hmiss Hrun.
  destruct (suggest_venues_ranking _ _ _ _ _ Hmiss Hrun)
    as (cands & sim & [w2 Hhard] & _ & Hall).
  assert (Hids : map s_venue_id sugs = map snd (top_of req (w_db w) cands sim)).
  { symmetry. eapply Forall2_map_eq; [|exact Hall]. by intros e s [-> _]. }
  assert (Hdb : w_db (cache_get E suggest_cache (_suggest_cache_key E req) w).2 = w_db w)
    by apply only_logged_cache_get.
  assert (Hcands : NoDup (candidate_ids_of cands)).
  { unfold hard_filter_of in Hhard. apply hard_filter_sublist in Hhard.
    rewrite Hdb in Hhard. apply (sublist_map v_id) in Hhard.
    unfold candidate_ids_of.
    replace (map (fun c => v_id (venue c)) cands) with (map v_id (map venue cands))
      by (rewrite map_map; reflexivity).
    by eapply sublist_NoDup. }
  assert (Htake : top_of req (w_db w) cands sim
                  = take (Z.to_nat (top_n req))
                      (final_scoring sim
                         (_get_load_factors (w_db w) (candidate_ids_of cands) (date req)
                            (time req))
                         (candidate_ids_of cands)))
    by (unfold top_of; by rewrite py_slice_to_take).
  assert (Hperm : map snd (final_scoring sim
                     (_get_load_factors (w_db w) (candidate_ids_of cands) (date req) (time req))
                     (candidate_ids_of cands)) ≡ₚ candidate_ids_of cands).
  { etransitivity; [apply Permutation_map', final_scoring_Permutation|].
    by rewrite map_snd_scored. }
  split.
  - rewrite Hids, Htake.
    refine (sublist_NoDup _ _ _ (sublist_map snd _ _ (sublist_take _ _))).
    by rewrite Hperm.
  - exists cands, w2. split; [done|]. split.
    + rewrite <- (length_map s_venue_id), Hids, length_map, Htake, length_take.
      rewrite <- (length_map snd), Hperm. unfold candidate_ids_of. by rewrite length_map.
    + intros s Hs. apply (list_elem_of_fmap_2 s_venue_id) in Hs.
      change (s_venue_id <$> sugs) with (map s_venue_id sugs) in Hs.
      rewrite Hids in Hs.
      apply list_elem_of_fmap in Hs as (e & -> & He). by apply elem_of_top_of in He.
Qed.

Lemma suggestions_are_distinct_witness :
  NoDup (map s_venue_id
           match (suggest_venues sample_env sample_request (world_of sample_db)).1 with
           | Ok (sugs, _) => sugs
           | Raise _ => []
           end).
Proof.
  apply (suggestions_are_distinct sample_env sample_request (world_of sample_db)
           match (suggest_venues sample_env sample_request (world_of sample_db)).1 with
           | Ok (sugs, _) => sugs
           | Raise _ => []
           end
           (intent_text_of sample_request)).
  - apply (bool_decide_unpack _). vm_compute. reflexivity.
  - vm_compute. discriminate.
  - vm_compute. reflexivity.
  - vm_compute. reflexivity.
Defined.

(** ** The intent vector *)

Lemma intent_vector_miss E txt w :
  (cache_get E intent_vector_cache txt w).1 = Ok None ->
  _get_intent_vector E txt w
  = match embed E txt TASK_QUERY with
    | Ok v => (Ok v, (cache_set E intent_vector_cache txt (CachedVector v) None
                        (cache_get E intent_vector_cache txt w).2).2)
    | Raise e => (Raise e, (cache_get E intent_vector_cache txt w).2)
    end.
Proof.
  intros Hmiss. unfold _get_intent_vector, bind.
  destruct (cache_get E intent_vector_cache txt w) as [r w0]. simpl in *. subst r.
  unfold lift. destruct (embed E txt TASK_QUERY) as [v|e]; [|reflexivity].
  destruct (cache_set E intent_vector_cache txt (CachedVector v) None w0) as [[[]|e] w1] eqn:Hset;
    [reflexivity|].
  exfalso. unfold cache_set in Hset. destruct (redis_up E); discriminate.
Qed.

(** X13. A failure of the embedding provider fails the request. On a miss
    of the suggest cache, when a candidate has a stored embedding and the
    intent vector is not in Redis, an exception of the embedding provider
    is the cause of a 500 of the endpoint. *)
Theorem embedding_provider_failure_is_500 E req w candidates w2 e :
  suggest_cache_miss E req w ->
  hard_filter_of E req (cache_get E suggest_cache (_suggest_cache_key E req) w).2
  = (Ok candidates, w2) ->
  embedding_rows_in (w_db w) (candidate_ids_of candidates) <> [] ->
  (cache_get E intent_vector_cache (intent_text_of req) w).1 = Ok None ->
  embed E (intent_text_of req) TASK_QUERY = Raise e ->
  (suggest E req w).1 = HTTPException 500 (Some e).
Proof.
  intros Hmiss Hhard Hrows Hvec Hembed.
  pose proof (only_logged_cache_get E suggest_cache (_suggest_cache_key E req) w)
    as (Hd0 & Hr0 & _ & Hn0).
  pose proof (frame_hard_filter E (city req) (date req) (time req) (origin_lat req)
                (origin_lng req) (travel_mode_value (travel_mode req)) (max_travel_minutes req)
                (cache_get E suggest_cache (_suggest_cache_key E req) w).2)
    as ((_ & _ & _ & _ & He1) & _ & Hr1 & Hn1).
  fold (hard_filter_of E req) in He1, Hr1, Hn1. rewrite Hhard in He1, Hr1, Hn1.
  cbn [fst snd] in He1, Hr1, Hn1. rewrite Hd0 in He1.
  assert (Hraise : (suggest_venues E req w).1 = Raise e).
  { rewrite suggest_venues_cases. unfold suggest_cache_miss in Hmiss.
    destruct (cache_get E suggest_cache (_suggest_cache_key E req) w) as [r w0].
    cbn [fst snd] in Hmiss, Hhard, Hr0, Hn0, Hr1, Hn1. subst r. rewrite Hhard.
    destruct candidates as [|c cs].
    { exfalso. apply Hrows. apply embedding_rows_in_nil.
      intros vid Hvid. by apply elem_of_nil in Hvid. }
    rewrite similarity_stage_embedded.
    - rewrite intent_vector_miss.
      + by rewrite Hembed.
      + rewrite <- Hvec. apply cache_get_same_store; simpl; congruence.
    - unfold embedding_rows_in in *. simpl. by rewrite He1. }
  unfold suggest. destruct (suggest_venues E req w) as [[[s t]|e'] w']; simpl in *; congruence.
Qed.

Lemma embedding_provider_failure_is_500_witness :
  (suggest (with_embed sample_env (fun _ _ => Raise ProviderError)) sample_request
     (world_of sample_db)).1
  = HTTPException 500 (Some ProviderError).
Proof.
  apply (embedding_provider_failure_is_500
           (with_embed sample_env (fun _ _ => Raise ProviderError)) sample_request
           (world_of sample_db)
           match (hard_filter_of sample_env sample_request (world_of sample_db)).1 with
           | Ok cs => cs
           | Raise _ => []
           end
           (hard_filter_of sample_env sample_request (world_of sample_db)).2).
  - vm_compute. reflexivity.
  - vm_compute. reflexivity.
  - vm_compute. discriminate.
  - vm_compute. reflexivity.
  - reflexivity.
Defined.

(** X14. Round trip of the intent-vector cache. A vector computed on a miss
    is the answer of the embedding provider, and for one hour every call
    for the same intent text returns it from Redis, whatever the provider
    would answer by then, without writing anything. *)
Theorem intent_vector_round_trip E E' txt w v w1 w2 :
  redis_up E = true ->
  redis_up E' = true ->
  (cache_get E intent_vector_cache txt w).1 = Ok None ->
  _get_intent_vector E txt w = (Ok v, w1) ->
  w_redis w2 = w_redis w1 ->
  w_now w2 < w_now w + 3600 * 1000000 ->
  embed E txt TASK_QUERY = Ok v
  /\ _get_intent_vector E' txt w2 = (Ok v, w2).
Proof.
  intros Hup Hup' Hmiss Hrun Hredis Hnow.
  rewrite intent_vector_miss in Hrun by done.
  destruct (embed E txt TASK_QUERY) as [v'|e]; [|discriminate].
  injection Hrun as -> <-. split; [done|].
  rewrite cache_get_up, cache_set_up in Hredis by done. simpl in Hredis.
  unfold _get_intent_vector, bind. rewrite cache_get_up by done.
  rewrite Hredis, lookup_insert_eq. simpl.
  by rewrite (proj2 (Z.ltb_lt _ _) Hnow).
Qed.

Lemma intent_vector_round_trip_witness :
  _get_intent_vector (with_embed sample_env (fun _ _ => Raise ProviderError)) "intent"
    (_get_intent_vector sample_env "intent" (world_of sample_db)).2
  = (Ok [1%Q], (_get_intent_vector sample_env "intent" (world_of sample_db)).2).
Proof.
  apply (intent_vector_round_trip sample_env
           (with_embed sample_env (fun _ _ => Raise ProviderError)) "intent"
           (world_of sample_db) [1%Q]
           (_get_intent_vector sample_env "intent" (world_of sample_db)).2
           (_get_intent_vector sample_env "intent" (world_of sample_db)).2).
  - reflexivity.
  - reflexivity.
  - vm_compute. reflexivity.
  - vm_compute. reflexivity.
  - reflexivity.
  - vm_compute. reflexivity.
Defined.

(** ** Travel times of the suggestions *)

(** X15. A reported travel time respects the budget. In an answer computed
    on a miss of the suggest cache, a suggestion that carries a travel time
    carries one of at most [max_travel_minutes], and only when the request
    gave both coordinates of the origin; a request that leaves one of them
    out gets no travel time at all. *)
Theorem suggestions_respect_travel_budget E req w sugs txt s :
  suggest_cache_miss E req w ->
  (suggest_venues E req w).1 = Ok (sugs, txt) ->
  s ∈ sugs ->
  match s_travel_minutes s with
  | Some t => (t <= inject_Z (max_travel_minutes req))%Q
              /\ is_Some (origin_lat req) /\ is_Some (origin_lng req)
  | None => True
  end.
Proof.
  intros Hmiss Hrun Hs.
  destruct (suggestion_of_candidate _ _ _ _ _ Hmiss Hrun) as (cands & w2 & Hhard & Hall).
  destruct (Hall s Hs) as (c & Hc & _ & ->).
  unfold hard_filter_of in Hhard.
  assert (Hhard1 := f_equal fst Hhard). simpl in Hhard1.
  destruct (hard_filter_available _ _ _ _ _ _ _ _ _ _ Hhard1 c Hc) as [_ Hgate].
  destruct (gated (origin_lat req) (origin_lng req) (venue c)) eqn:Hg.
  - destruct Hgate as (t & -> & Ht). split; [done|].
    unfold gated in Hg. destruct (origin_lat req), (origin_lng req); try discriminate.
    by split; eexists.
  - by rewrite Hgate.
Qed.

Lemma suggestions_respect_travel_budget_witness :
  exists s,
    s ∈ match (suggest_venues sample_env sample_request (world_of sample_db)).1 with
        | Ok (sugs, _) => sugs
        | Raise _ => []
        end
    /\ match s_travel_minutes s with
       | Some t => (t <= inject_Z 45)%Q
                   /\ is_Some (Some (514545 # 10000)%Q) /\ is_Some (Some (-25879 # 10000)%Q)
       | None => True
       end.
Proof.
  eexists. split; [vm_compute; apply list_elem_of_here|].
  match goal with
  | |- match s_travel_minutes ?s with _ => _ end =>
      apply (suggestions_respect_travel_budget sample_env sample_request (world_of sample_db)
               match (suggest_venues sample_env sample_request (world_of sample_db)).1 with
               | Ok (sugs, _) => sugs
               | Raise _ => []
               end
               (intent_text_of sample_request) s)
  end.
  - vm_compute. reflexivity.
  - vm_compute. reflexivity.
  - vm_compute. apply list_elem_of_here.
Defined.

(** ** Requests without an origin *)

Lemma travel_loop_ungated E olat olng mode max vs w :
  (forall v, v ∈ vs -> gated olat olng v = false) ->
  travel_loop E olat olng mode max vs w = (Ok (map untimed vs), w).
Proof.
  induction vs as [|v vs IH]; intros Hall; [reflexivity|].
  simpl. unfold bind.
  rewrite gated_false_travel_gate by (apply Hall; apply list_elem_of_here).
  rewrite IH by (intros v' Hv'; apply Hall; by apply list_elem_of_further).
  reflexivity.
Qed.

(** X16. Without a full origin the travel stages do nothing. When the
    request leaves out the latitude or the longitude of the origin, layer 1
    returns every venue that is open and not blacked out, in the order of
    the table and with no travel time; it sends no routing request and
    leaves the world as it was. *)
Theorem hard_filter_without_origin E city date t olat olng mode max w :
  olat = None \/ olng = None ->
  _get_hard_filtered_candidates E city date t olat olng mode max w
  = (Ok (map untimed (available_venues E (w_db w) city date t)), w).
Proof.
  intros Horigin.
  assert (Hg : forall v, gated olat olng v = false)
    by (intros v; unfold gated; destruct Horigin as [-> | ->]; [|destruct olat]; reflexivity).
  unfold _get_hard_filtered_candidates, available_venues, bind, get_db.
  destruct (select_open_venues E (w_db w) city (weekday_of date) t) as [|v0 vs0] eqn:Hsel;
    [reflexivity|].
  destruct (filter _ (v0 :: vs0)) as [|v1 vs1] eqn:Hfil; [reflexivity|].
  assert (Hvs : (match olat, olng with
                 | Some olat', Some olng' =>
                     logger INFO "Haversine: %d → %d venues (mode=%s max=%dmin)" ;;;
                     ret (prefilter_by_distance E (v1 :: vs1) olat' olng' mode max)
                 | _, _ => ret (v1 :: vs1)
                 end) w = (Ok (v1 :: vs1), w))
    by (destruct Horigin as [-> | ->]; [|destruct olat]; reflexivity).
  match goal with
  | |- (let (r, w') := ?m w in _) = _ => replace (m w) with (Ok (v1 :: vs1), w)
  end.
  cbv beta iota. apply travel_loop_ungated. intros v _. apply Hg.
Qed.

Lemma hard_filter_without_origin_witness :
  _get_hard_filtered_candidates sample_env "Bristol" (mk_date 2026 2 25) (mk_time 19 0 0 0)
    (Some (514545 # 10000)%Q) None "drive" 45 (world_of sample_db)
  = (Ok (map untimed (venues sample_db)), world_of sample_db).
Proof.
  rewrite (hard_filter_without_origin sample_env "Bristol" (mk_date 2026 2 25)
             (mk_time 19 0 0 0) (Some (514545 # 10000)%Q) None "drive" 45
             (world_of sample_db)).
  - vm_compute. reflexivity.
  - right. reflexivity.
Defined.

(** ** Load factors and bookings *)

Lemma load_factors_lookup d ids date t vid :
  _get_load_factors d ids date t !! vid
  = if decide (vid ∈ ids)
    then Some (load_of_venue d (weekday_of date) (str_date date) t vid)
    else None.
Proof.
  unfold _get_load_factors.
  set (g := load_of_venue d (weekday_of date) (str_date date) t).
  assert (Hgen : forall m : gmap Z Q,
            foldl (fun load_map venue_id => <[venue_id := g venue_id]> load_map) m ids !! vid
            = if decide (vid ∈ ids) then Some (g vid) else m !! vid).
  { induction ids as [|i ids IH]; intros m; cbn [foldl].
    - destruct (decide (vid ∈ [])) as [Hin|_]; [by apply elem_of_nil in Hin|done].
    - rewrite IH.
      destruct (decide (vid ∈ ids)) as [Hin|Hin], (decide (vid ∈ i :: ids)) as [Hin'|Hin'];
        try done.
      + exfalso. apply Hin'. by apply list_elem_of_further.
      + apply elem_of_cons in Hin' as [->|Hin']; [|done]. by rewrite lookup_insert_eq.
      + rewrite lookup_insert_ne; [done|]. intros ->. apply Hin'. apply list_elem_of_here. }
  rewrite Hgen. by rewrite lookup_empty.
Qed.

Lemma Qmin_1_mono x y : (x <= y)%Q -> (Qmin x 1 <= Qmin y 1)%Q.
Proof.
  intros Hxy. unfold Qmin.
  destruct (Qleb x 1) eqn:Hx, (Qleb y 1) eqn:Hy;
    try apply Qleb_le in Hx; try apply Qleb_le in Hy; try lra.
  unfold Qleb in Hx. destruct (Qle_bool x 1) eqn:Hx'; [done|].
  assert (~ (x <= 1)%Q) by (rewrite <- Qle_bool_iff; congruence). lra.
Qed.

Lemma load_of_venue_add_booking d b weekday date_str t vid :
  (load_of_venue d weekday date_str t vid
   <= load_of_venue (add_booking d b) weekday date_str t vid)%Q
  /\ (is_active_booking (b_status b) = false \/ booked_date b <> date_str ->
      load_of_venue (add_booking d b) weekday date_str t vid
      = load_of_venue d weekday date_str t vid).
Proof.
  unfold load_of_venue. cbn [add_booking venue_slots bookings].
  destruct (filter _ (venue_slots d)) as [|slot ?]; [split; [lra|done]|].
  rewrite filter_app, length_app.
  split.
  - apply Qmin_1_mono.
    set (n := length (filter _ (bookings d))). set (k := length (filter _ [b])).
    set (cap := Z.max _ 1). assert (0 < cap) as Hcap by lia.
    assert (Hc : (0 < inject_Z cap)%Q)
      by (replace 0%Q with (inject_Z 0) by reflexivity; by rewrite <- Zlt_Qlt).
    unfold Qdiv. apply Qmult_le_compat_r; [|apply Qinv_le_0_compat; lra].
    rewrite <- Zle_Qle. lia.
  - intros Hb. rewrite filter_cons_False, filter_nil; [by rewrite Nat.add_0_r|].
    rewrite !andb_true_iff. intros [[_ Hdate] Hact]. destruct Hb as [Hb|Hb].
    + congruence.
    + by apply String.eqb_eq in Hdate.
Qed.

(** X17. Load factors count the live bookings of the day. A booking added
    to the table never lowers the load factor of a venue; a booking that is
    cancelled or refunded, or that is for another date than the requested
    one, changes no load factor. *)
Theorem load_factors_add_booking d b ids date t :
  (forall vid,
     (default 0 (_get_load_factors d ids date t !! vid)
      <= default 0 (_get_load_factors (add_booking d b) ids date t !! vid))%Q)
  /\ (is_active_booking (b_status b) = false \/ booked_date b <> str_date date ->
      _get_load_factors (add_booking d b) ids date t = _get_load_factors d ids date t).
Proof.
  split.
  - intros vid. rewrite !load_factors_lookup. destruct (decide (vid ∈ ids)); simpl; [|lra].
    apply load_of_venue_add_booking.
  - intros Hb. apply map_eq. intros vid. rewrite !load_factors_lookup.
    destruct (decide (vid ∈ ids)); [|done]. f_equal.
    by apply load_of_venue_add_booking.
Qed.

Lemma load_factors_add_booking_witness :
  _get_load_factors
    (add_booking sample_db
       {| b_id := 5; b_slot_id := Some 12; booked_date := "2026-02-25";
          b_status := cancelled |})
    [1; 2] (mk_date 2026 2 25) (mk_time 19 0 0 0)
  = _get_load_factors sample_db [1; 2] (mk_date 2026 2 25) (mk_time 19 0 0 0).
Proof.
  apply (load_factors_add_booking sample_db
           {| b_id := 5; b_slot_id := Some 12; booked_date := "2026-02-25";
              b_status := cancelled |}
           [1; 2] (mk_date 2026 2 25) (mk_time 19 0 0 0)).
  left. reflexivity.
Defined.

(** ** The pipeline reads the database and the clock only *)

Lemma sim_bind {A B} (m1 m2 : M A) (f1 f2 : A -> M B) :
  simulates m1 m2 -> (forall a, simulates (f1 a) (f2 a)) -> simulates (bind m1 f1) (bind m2 f2).
Proof.
  intros Hm Hf w1 w2 Hw. unfold bind. destruct (Hm w1 w2 Hw) as [Hr Hw'].
  destruct (m1 w1) as [[a|e] w1'], (m2 w2) as [[a'|e'] w2']; simpl in *; try discriminate.
  - injection Hr as <-. by apply Hf.
  - by injection Hr as <-.
Qed.

Lemma sim_ret {A} (a : A) : simulates (ret a) (ret a).
Proof. by intros w1 w2 Hw. Qed.

Lemma sim_raise {A} e : simulates (@raise A e) (raise e).
Proof. by intros w1 w2 Hw. Qed.

Lemma sim_lift {A} (r : result A) : simulates (lift r) (lift r).
Proof. by intros w1 w2 Hw. Qed.

Lemma sim_get_db : simulates get_db get_db.
Proof. intros w1 w2 [Hd Hn]. unfold get_db. simpl. by rewrite Hd. Qed.

Lemma sim_now_utc : simulates now_utc now_utc.
Proof. intros w1 w2 [Hd Hn]. unfold now_utc. simpl. by rewrite Hn. Qed.

Lemma sim_logger lvl msg lvl' msg' : simulates (logger lvl msg) (logger lvl' msg').
Proof. by intros w1 w2 Hw. Qed.

Lemma sim_get_time_bucket E : simulates (get_time_bucket E) (get_time_bucket E).
Proof. intros w1 w2 [Hd Hn]. unfold get_time_bucket. simpl. by rewrite Hn. Qed.

Lemma sim_client_send E rq : simulates (client_send E rq) (client_send E rq).
Proof. intros w1 w2 [Hd Hn]. unfold client_send. by destruct (http_send E rq). Qed.

Lemma sim_commit E wr : simulates (commit E wr) (commit E wr).
Proof.
  intros w1 w2 [Hd Hn]. unfold commit. destruct (commit_ok E wr); [|done].
  unfold bind, get_db, put_db, same_data. simpl. by rewrite Hd.
Qed.

Ltac sim_step :=
  lazymatch goal with
  | |- simulates (bind _ _) (bind _ _) => apply sim_bind; [|intros ?]
  | |- simulates (ret _) (ret _) => apply sim_ret
  | |- simulates (raise _) (raise _) => apply sim_raise
  | |- simulates (lift _) (lift _) => apply sim_lift
  | |- simulates get_db get_db => apply sim_get_db
  | |- simulates now_utc now_utc => apply sim_now_utc
  | |- simulates (logger _ _) (logger _ _) => apply sim_logger
  | |- simulates (get_time_bucket _) (get_time_bucket _) => apply sim_get_time_bucket
  | |- simulates (client_send _ _) (client_send _ _) => apply sim_client_send
  | |- simulates (commit _ _) (commit _ _) => apply sim_commit
  | |- simulates (if ?b then _ else _) _ => destruct b
  | |- simulates (match ?x with Some _ => _ | None => _ end) _ => destruct x
  end.

Lemma sim_call_provider E o d mode : simulates (call_provider E o d mode) (call_provider E o d mode).
Proof. unfold call_provider, _fetch_tomtom, _fetch_ors, _fetch_mapbox. repeat sim_step. Qed.

Lemma sim_get_travel_time E o d vid mode :
  simulates (get_travel_time E o d vid mode) (get_travel_time E o d vid mode).
Proof.
  unfold get_travel_time.
  repeat first [apply sim_call_provider | sim_step].
Qed.

Lemma sim_travel_gate E olat olng mode max v :
  simulates (travel_gate E olat olng mode max v) (travel_gate E olat olng mode max v).
Proof.
  unfold travel_gate. destruct olat, olng, (v_lat v), (v_lng v);
    repeat first [apply sim_get_travel_time | sim_step].
Qed.

Lemma sim_travel_loop E olat olng mode max vs :
  simulates (travel_loop E olat olng mode max vs) (travel_loop E olat olng mode max vs).
Proof.
  induction vs as [|v vs IH]; simpl; repeat first [apply sim_travel_gate | exact IH | sim_step].
Qed.

Lemma sim_hard_filter E city date t olat olng mode max :
  simulates (_get_hard_filtered_candidates E city date t olat olng mode max)
            (_get_hard_filtered_candidates E city date t olat olng mode max).
Proof.
  unfold _get_hard_filtered_candidates. sim_step; [sim_step|]. cbv zeta.
  destruct (select_open_venues E a city (weekday_of date) t); [sim_step|].
  destruct (filter _ _); [sim_step|].
  sim_step.
  - destruct olat, olng; repeat sim_step.
  - destruct a0; [sim_step|apply sim_travel_loop].
Qed.

Lemma with_redis_travel_loop E b olat olng mode max vs :
  travel_loop (with_redis E b) olat olng mode max vs = travel_loop E olat olng mode max vs.
Proof.
  induction vs as [|v vs IH]; simpl; [done|].
  rewrite IH. reflexivity.
Qed.

Lemma with_redis_hard_filter E b req w :
  hard_filter_of (with_redis E b) req w = hard_filter_of E req w.
Proof.
  unfold hard_filter_of, _get_hard_filtered_candidates, bind, get_db.
  cbv beta iota zeta.
  change (select_open_venues (with_redis E b)) with (select_open_venues E).
  change (prefilter_by_distance (with_redis E b)) with (prefilter_by_distance E).
  destruct (select_open_venues E _ _ _ _); [reflexivity|].
  destruct (filter _ _); [reflexivity|].
  destruct (origin_lat req), (origin_lng req); cbn [logger ret];
    repeat match goal with
           | |- context [match ?x with [] => _ | _ :: _ => _ end] => destruct x
           end;
    rewrite ?with_redis_travel_loop; reflexivity.
Qed.

(** What [rank_and_build] returns depends neither on Redis nor on the key. *)
Lemma rank_and_build_redis E b req txt key key' candidates sim w :
  (rank_and_build (with_redis E b) req txt key candidates sim w).1
  = (rank_and_build E req txt key' candidates sim w).1.
Proof.
  unfold rank_and_build, bind, get_db, lift. cbv beta iota zeta.
  destruct (build_suggestions _ _ _ _ _); [|reflexivity].
  unfold cache_set. cbn [redis_up with_redis]. destruct b, (redis_up E); reflexivity.
Qed.

Lemma intent_vector_result E txt w :
  (cache_get E intent_vector_cache txt w).1 = Ok None ->
  (_get_intent_vector E txt w).1 = embed E txt TASK_QUERY.
Proof.
  intros Hmiss. rewrite intent_vector_miss by done.
  by destruct (embed E txt TASK_QUERY).
Qed.

Lemma similarity_stage_redis E req txt ids wl wr :
  same_data wl wr ->
  (cache_get (with_redis E true) intent_vector_cache txt wr).1 = Ok None ->
  (similarity_stage (with_redis E false) req txt ids wl).1
  = (similarity_stage (with_redis E true) req txt ids wr).1
  /\ same_catalogue (w_db (similarity_stage (with_redis E false) req txt ids wl).2)
                    (w_db (similarity_stage (with_redis E true) req txt ids wr).2).
Proof.
  intros [Hd Hn] Hmiss.
  destruct (embedding_rows_in (w_db wl) ids) as [|r0 rows] eqn:Hrows.
  - rewrite !similarity_stage_no_embeddings by (by rewrite <- ?Hd).
    simpl. rewrite Hd. split; [done|]. unfold same_catalogue. tauto.
  - rewrite !similarity_stage_embedded by (rewrite <- ?Hd, Hrows; done).
    pose proof (intent_vector_result (with_redis E false) txt wl eq_refl) as Hl.
    pose proof (intent_vector_result (with_redis E true) txt wr Hmiss) as Hr.
    pose proof (same_db_intent_vector (with_redis E false) txt wl) as Hdl.
    pose proof (same_db_intent_vector (with_redis E true) txt wr) as Hdr.
    unfold same_db in Hdl, Hdr.
    destruct (_get_intent_vector (with_redis E false) txt wl) as [rl wl1].
    destruct (_get_intent_vector (with_redis E true) txt wr) as [rr wr1].
    cbn [fst snd] in *.
    change (embed (with_redis E false)) with (embed E) in Hl.
    change (embed (with_redis E true)) with (embed E) in Hr.
    subst rl rr. destruct (embed E txt TASK_QUERY) as [v|e]; cbn [fst snd].
    + rewrite Hdl, Hdr, Hd. split; [reflexivity|].
      change (commit_ok (with_redis E false)) with (commit_ok E).
      change (commit_ok (with_redis E true)) with (commit_ok E).
      change (intent_row (with_redis E false)) with (intent_row E).
      change (intent_row (with_redis E true)) with (intent_row E).
      destruct (commit_ok E _); simpl; rewrite ?Hdl, ?Hdr, ?Hd; unfold same_catalogue; tauto.
    + split; [reflexivity|]. rewrite Hdl, Hdr, Hd. unfold same_catalogue. tauto.
Qed.

(** X18. A Redis outage is a cold cache. With Redis down, the matcher and
    the endpoint answer exactly as they do with Redis up and empty: the
    caches change how much work is done, never the answer. *)
Theorem redis_outage_is_a_cold_cache E req w :
  (suggest_venues (with_redis E false) req w).1
  = (suggest_venues (with_redis E true) req (set_redis ∅ w)).1
  /\ (suggest (with_redis E false) req w).1
     = (suggest (with_redis E true) req (set_redis ∅ w)).1.
Proof.
  assert (Hmain : (suggest_venues (with_redis E false) req w).1
                  = (suggest_venues (with_redis E true) req (set_redis ∅ w)).1).
  { rewrite !suggest_venues_cases.
    change (cache_get (with_redis E false) suggest_cache
              (_suggest_cache_key (with_redis E false) req) w)
      with (Ok (@None cache_value), (logger WARNING "[%s] get failed — %s" w).2).
    rewrite (cache_get_up (with_redis E true)) by reflexivity.
    cbn [w_redis set_redis]. rewrite lookup_empty.
    rewrite !with_redis_hard_filter.
    destruct (sim_hard_filter E (city req) (date req) (time req) (origin_lat req)
                (origin_lng req) (travel_mode_value (travel_mode req)) (max_travel_minutes req)
                (logger WARNING "[%s] get failed — %s" w).2 (set_redis ∅ w))
      as [Hres Hdata]; [by split|].
    pose proof (frame_hard_filter E (city req) (date req) (time req) (origin_lat req)
                  (origin_lng req) (travel_mode_value (travel_mode req))
                  (max_travel_minutes req) (set_redis ∅ w)) as (_ & _ & Hredis & _).
    fold (hard_filter_of E req) in Hres, Hdata, Hredis.
    destruct (hard_filter_of E req (logger WARNING "[%s] get failed — %s" w).2) as [rl wl2].
    destruct (hard_filter_of E req (set_redis ∅ w)) as [rr wr2].
    cbn [fst snd] in Hres, Hdata, Hredis. subst rr.
    destruct rl as [[|c cs]|e]; [reflexivity| |reflexivity].
    destruct (similarity_stage_redis E req (intent_text_of req) (candidate_ids_of (c :: cs))
                (logger INFO "Layer 1 passed: %d venues" wl2).2
                (logger INFO "Layer 1 passed: %d venues" wr2).2) as [Hsim Hcat].
    { exact Hdata. }
    { rewrite cache_get_up by reflexivity. cbn [w_redis logger snd fst].
      change (w_redis (logger INFO "Layer 1 passed: %d venues" wr2).2) with (w_redis wr2).
      rewrite Hredis. cbn [w_redis set_redis]. by rewrite lookup_empty. }
    destruct (similarity_stage (with_redis E false) req (intent_text_of req)
                (candidate_ids_of (c :: cs)) (logger INFO "Layer 1 passed: %d venues" wl2).2)
      as [sl wl3].
    destruct (similarity_stage (with_redis E true) req (intent_text_of req)
                (candidate_ids_of (c :: cs)) (logger INFO "Layer 1 passed: %d venues" wr2).2)
      as [sr wr3].
    cbn [fst snd] in Hsim, Hcat. subst sr. destruct sl as [sim|e]; [|reflexivity].
    rewrite (rank_and_build_redis E false req _ _ (_suggest_cache_key E req)).
    rewrite (rank_and_build_redis E true req _ _ (_suggest_cache_key E req)).
    symmetry. by apply rank_and_build_catalogue. }
  split; [exact Hmain|].
  unfold suggest.
  destruct (suggest_venues (with_redis E false) req w) as [[[s t]|e] w1],
           (suggest_venues (with_redis E true) req (set_redis ∅ w)) as [[[s' t']|e'] w1'];
    cbn [fst snd] in Hmain; try discriminate.
  - injection Hmain as <- <-. by destruct s.
  - by injection Hmain as <-.
Qed.

(** ** The exceptions of the matcher *)



































(** ** Validated requests *)

(** X20. The bounds of a validated request reach the geo pre-filter. A
    request that passes the validation of the schema has a travel budget
    between 5 and 45 minutes and asks for 1 to 10 suggestions, so the
    radius of its pre-filter lies between 0.747 km and 40.5 km. *)
Theorem validated_request_bounds p req :
  validate_SuggestRequest p = Some req ->
  5 <= max_travel_minutes req <= 45
  /\ 1 <= top_n req <= 10
  /\ (747 # 1000 <= _max_radius_km (travel_mode_value (travel_mode req)) (max_travel_minutes req)
      <= 405 # 10)%Q.
Proof.
  unfold validate_SuggestRequest.
  destruct (_ && _) eqn:Hok; [|discriminate].
  rewrite !andb_true_iff in Hok. destruct Hok as [[[[H1 H2] H3] H4] _].
  apply Z.leb_le in H1, H2, H3, H4.
  intros [= <-]. cbn [max_travel_minutes top_n travel_mode].
  split; [lia|]. split; [lia|].
  set (m := default 45 (p_max_travel_minutes p)) in *.
  assert (Hm : (5 <= inject_Z m <= 45)%Q).
  { split; [change 5%Q with (inject_Z 5)|change 45%Q with (inject_Z 45)];
      rewrite <- Zle_Qle; lia. }
  unfold _max_radius_km. rewrite speed_table. unfold _SAFETY_FACTOR.
  destruct (default drive (p_travel_mode p)); cbn; nra.
Qed.

Lemma validated_request_bounds_witness :
  (747 # 1000 <= _max_radius_km "drive" 45 <= 405 # 10)%Q.
Proof.
  apply (validated_request_bounds
           {| p_city := "Bristol"; p_origin_lat := None; p_origin_lng := None;
              p_travel_mode := None; p_max_travel_minutes := None;
              p_date := mk_date 2026 2 25; p_time := mk_time 19 0 0 0;
              p_stage := None; p_mood := None; p_energy := None; p_budget := None;
              p_free_text := None; p_top_n := None; p_session_id := None |}
           {| city := "Bristol"; origin_lat := None; origin_lng := None;
              travel_mode := drive; max_travel_minutes := 45;
              date := mk_date 2026 2 25; time := mk_time 19 0 0 0;
              stage := first_date; mood := romantic; energy := low; budget_band := mid;
              free_text := None; top_n := 3; session_id := None |}).
  reflexivity.
Defined.

(** ** The date-appropriateness filter *)

Lemma prefix_spec (a s : string) : String.prefix a s = true <-> exists post, s = a +:+ post.
Proof.
  revert s. induction a as [|x a IH]; intros s.
  - split; [intros _; by exists s|intros _; by destruct s].
  - destruct s as [|y s]; simpl.
    + split; [discriminate|]. intros [post H]. discriminate.
    + destruct (ascii_dec x y) as [->|Hne].
      * rewrite IH. split; intros [post H]; exists post.
        -- rewrite append_cons. by rewrite H.
        -- rewrite append_cons in H. by injection H.
      * split; [discriminate|]. intros [post H]. rewrite append_cons in H.
        injection H as H1 _. congruence.
Qed.

Lemma py_contains_spec (sub s : string) : py_contains sub s = true <-> is_substring sub s.
Proof.
  unfold is_substring. induction s as [|c s IH]; cbn [py_contains]; rewrite orb_true_iff.
  - rewrite prefix_spec. split.
    + intros [[post H]|H]; [|discriminate]. by exists "", post.
    + intros (pre & post & H). left. destruct pre; [by exists post|discriminate].
  - rewrite prefix_spec, IH. split.
    + intros [[post H]|(pre & post & H)].
      * by exists "", post.
      * exists (String c pre), post. rewrite append_cons. by rewrite H.
    + intros (pre & post & H). destruct pre as [|c' pre].
      * left. by exists post.
      * right. rewrite append_cons in H. injection H as _ H. by exists pre, post.
Qed.

Lemma str_in_spec (x : string) (xs : list string) : str_in x xs = true <-> x ∈ xs.
Proof.
  unfold str_in. rewrite existsb_exists. split.
  - intros (y & Hy & Heq). apply String.eqb_eq in Heq as ->. by apply list_elem_of_In.
  - intros Hx. exists x. split; [by apply list_elem_of_In|apply String.eqb_refl].
Qed.

(** X21. What the date-appropriateness filter rejects. A venue is rejected
    exactly when its cuisine, lower-cased and stripped, contains a
    denylisted cuisine or is a denylisted venue type, or when one of its
    comma-separated vibe tags, stripped and lower-cased, is a denylisted
    vibe. The filter fails open: a venue with no cuisine and no tags is
    kept. *)
Theorem is_date_appropriate_spec venue :
  (_is_date_appropriate venue = false <->
   (exists cuisine,
      v_cuisine venue = Some cuisine /\ cuisine <> ""
      /\ ((exists bad, bad ∈ _NON_DATE_CUISINES
                       /\ is_substring bad (py_strip (py_lower cuisine)))
          \/ py_strip (py_lower cuisine) ∈ _NON_DATE_VENUE_TYPES))
   \/ (exists vibe_tags tag,
         v_vibe_tags venue = Some vibe_tags /\ vibe_tags <> ""
         /\ tag ∈ py_split "," vibe_tags
         /\ py_lower (py_strip tag) ∈ _NON_DATE_VIBES))
  /\ ((v_cuisine venue = None \/ v_cuisine venue = Some "") ->
      (v_vibe_tags venue = None \/ v_vibe_tags venue = Some "") ->
      _is_date_appropriate venue = true).
Proof.
  assert (Hcuisine : forall cuisine,
            (existsb (fun bad => py_contains bad (py_strip (py_lower cuisine)))
                     _NON_DATE_CUISINES
             || str_in (py_strip (py_lower cuisine)) _NON_DATE_VENUE_TYPES) = true
            <-> ((exists bad, bad ∈ _NON_DATE_CUISINES
                              /\ is_substring bad (py_strip (py_lower cuisine)))
                 \/ py_strip (py_lower cuisine) ∈ _NON_DATE_VENUE_TYPES)).
  { intros cuisine. rewrite orb_true_iff, existsb_exists, str_in_spec.
    split; (intros [(bad & Hbad & Hsub)|Hty]; [left; exists bad|by right]).
    - split; [by apply list_elem_of_In|by apply py_contains_spec].
    - split; [by apply list_elem_of_In|by apply py_contains_spec]. }
  assert (Htags : forall vibe_tags,
            existsb (fun tag => str_in tag _NON_DATE_VIBES)
                    (map (fun t => py_lower (py_strip t)) (py_split "," vibe_tags)) = true
            <-> exists tag, tag ∈ py_split "," vibe_tags
                            /\ py_lower (py_strip tag) ∈ _NON_DATE_VIBES).
  { intros vibe_tags. rewrite existsb_exists. split.
    - intros (x & Hx & Hin). apply in_map_iff in Hx as (tag & <- & Htag).
      exists tag. split; [by apply list_elem_of_In|by apply str_in_spec].
    - intros (tag & Htag & Hin). exists (py_lower (py_strip tag)).
      split; [|by apply str_in_spec]. apply in_map_iff. exists tag.
      split; [done|by apply list_elem_of_In]. }
  unfold _is_date_appropriate. split.
  - destruct (v_cuisine venue) as [[|c0 cuisine]|] eqn:Hc.
    + destruct (v_vibe_tags venue) as [[|t0 tags]|] eqn:Ht.
      * split; [discriminate|]. intros [(c & [= <-] & Hne & _)|(t & tag & [= <-] & Hne & _)]; done.
      * specialize (Htags (String t0 tags)).
        destruct (existsb _ (map _ (py_split "," (String t0 tags)))).
        -- split; [intros _|done]. right. destruct (proj1 Htags eq_refl) as (tag & H1 & H2).
           by exists (String t0 tags), tag.
        -- split; [discriminate|].
           intros [(c & [= <-] & Hne & _)|(t & tag & [= <-] & _ & H1 & H2)]; [done|].
           assert (false = true) by (apply Htags; by exists tag). discriminate.
      * split; [discriminate|]. intros [(c & [= <-] & Hne & _)|(t & tag & [=] & _)]; done.
    + specialize (Hcuisine (String c0 cuisine)).
      destruct (existsb _ _NON_DATE_CUISINES) eqn:He.
      * split; [intros _|done]. left. exists (String c0 cuisine).
        split; [done|]. split; [done|]. by apply Hcuisine.
      * destruct (str_in _ _NON_DATE_VENUE_TYPES) eqn:Hs.
        -- split; [intros _|done]. left. exists (String c0 cuisine).
           split; [done|]. split; [done|]. by apply Hcuisine.
        -- destruct (v_vibe_tags venue) as [[|t0 tags]|] eqn:Ht.
           ++ split; [discriminate|].
              intros [(c & [= <-] & _ & Hbad)|(t & tag & [= <-] & Hne & _)]; [|done].
              apply Hcuisine in Hbad. discriminate.
           ++ specialize (Htags (String t0 tags)).
              destruct (existsb _ (map _ (py_split "," (String t0 tags)))).
              ** split; [intros _|done]. right.
                 destruct (proj1 Htags eq_refl) as (tag & H1 & H2).
                 by exists (String t0 tags), tag.
              ** split; [discriminate|].
                 intros [(c & [= <-] & _ & Hbad)|(t & tag & [= <-] & _ & H1 & H2)].
                 --- apply Hcuisine in Hbad. discriminate.
                 --- assert (false = true) by (apply Htags; by exists tag). discriminate.
           ++ split; [discriminate|].
              intros [(c & [= <-] & _ & Hbad)|(t & tag & [=] & _)].
              apply Hcuisine in Hbad. discriminate.
    + destruct (v_vibe_tags venue) as [[|t0 tags]|] eqn:Ht.
      * split; [discriminate|]. intros [(c & [=] & _)|(t & tag & [= <-] & Hne & _)]; done.
      * specialize (Htags (String t0 tags)).
        destruct (existsb _ (map _ (py_split "," (String t0 tags)))).
        -- split; [intros _|done]. right. destruct (proj1 Htags eq_refl) as (tag & H1 & H2).
           by exists (String t0 tags), tag.
        -- split; [discriminate|].
           intros [(c & [=] & _)|(t & tag & [= <-] & _ & H1 & H2)].
           assert (false = true) by (apply Htags; by exists tag). discriminate.
      * split; [discriminate|]. intros [(c & [=] & _)|(t & tag & [=] & _)].
  - intros [-> | ->] [-> | ->]; reflexivity.
Qed.

Lemma is_date_appropriate_spec_witness :
  _is_date_appropriate
    {| v_id := 9; v_name := "N"; v_address := "2 Park Street"; v_city := "Bristol";
       v_lat := None; v_lng := None; v_cuisine := None; v_vibe_tags := Some "";
       v_description := None; v_noise_level := None; v_price_band := None;
       v_is_active := true |} = true.
Proof.
  apply (is_date_appropriate_spec
           {| v_id := 9; v_name := "N"; v_address := "2 Park Street"; v_city := "Bristol";
              v_lat := None; v_lng := None; v_cuisine := None; v_vibe_tags := Some "";
              v_description := None; v_noise_level := None; v_price_band := None;
              v_is_active := true |}).
  - left. reflexivity.
  - right. reflexivity.
Defined.

(** ** Retries *)

(** X22. The retry helper of the embedding provider. The coroutine is
    called at most three times; the first success is returned, after sleeps
    of 1 s, 2 s, ... for the failed attempts before it; when the three
    attempts fail, the exception of the third is raised, after a last sleep
    of 4 s that no attempt follows. *)
Theorem with_retry_spec {A} (coro_fn : nat -> result A) :
  (forall a delays, _with_retry coro_fn = (Ok a, delays) ->
     exists k, (k < 3)%nat /\ coro_fn k = Ok a
               /\ (forall j, (j < k)%nat -> exists e, coro_fn j = Raise e)
               /\ delays = map retry_delay (seq 0 k))
  /\ (forall e delays, _with_retry coro_fn = (Raise e, delays) ->
        coro_fn 2%nat = Raise e
        /\ (forall j, (j < 3)%nat -> exists e', coro_fn j = Raise e')
        /\ delays = [1; 2; 4]%Q).
Proof.
  unfold _with_retry, _MAX_RETRIES. cbn [seq retry_loop].
  destruct (coro_fn 0%nat) as [a0|e0] eqn:H0; [|destruct (coro_fn 1%nat) as [a1|e1] eqn:H1;
    [|destruct (coro_fn 2%nat) as [a2|e2] eqn:H2]].
  - split; [|discriminate]. intros a delays [= <- <-]. exists 0%nat.
    split; [lia|]. split; [done|]. split; [lia|reflexivity].
  - split; [|discriminate]. intros a delays [= <- <-]. exists 1%nat.
    split; [lia|]. split; [done|]. split; [|reflexivity].
    intros j Hj. assert (j = 0%nat) as -> by lia. by eexists.
  - split; [|discriminate]. intros a delays [= <- <-]. exists 2%nat.
    split; [lia|]. split; [done|]. split; [|reflexivity].
    intros j Hj. assert (j = 0%nat \/ j = 1%nat) as [-> | ->] by lia; by eexists.
  - split; [discriminate|]. intros e delays [= <- <-].
    split; [done|]. split; [|reflexivity].
    intros j Hj. assert (j = 0%nat \/ j = 1%nat \/ j = 2%nat) as [-> | [-> | ->]] by lia;
      by eexists.
Qed.

Lemma with_retry_spec_witness :
  exists k, (k < 3)%nat
            /\ (fun k => if (k =? 1)%nat then Ok 5 else Raise TransportError) k = Ok 5
            /\ (forall j, (j < k)%nat ->
                  exists e, (fun k => if (k =? 1)%nat then Ok 5 else Raise TransportError) j
                            = Raise e)
            /\ [1%Q] = map retry_delay (seq 0 k).
Proof.
  apply (proj1 (with_retry_spec (fun k => if (k =? 1)%nat then Ok 5 else Raise TransportError))
           5 [1%Q]).
  reflexivity.
Defined.

(** ** The similarity search *)

#[global] Instance by_distance_total : Total by_distance.
Proof.
  intros a b. unfold by_distance. destruct (Qlt_le_dec a.2 b.2); [left; by apply Qlt_le_weak|by right].
Qed.

#[global] Instance by_distance_trans : Transitive by_distance.
Proof. intros a b c. unfold by_distance. apply Qle_trans. Qed.

(** X23. The similarity search returns the nearest candidates. The result
    of [find_similar_venues] has at most [top_n] pairs, in ascending order
    of distance; each pair is a candidate with a stored embedding and its
    cosine distance to the intent vector; and a candidate with an embedding
    that is left out is at least as far as every pair returned. With no
    candidate the result is empty. *)
Theorem find_similar_venues_nearest E d vec ids n :
  (length (find_similar_venues E d vec ids n) <= n)%nat
  /\ StronglySorted by_distance (find_similar_venues E d vec ids n)
  /\ (forall vid dist, (vid, dist) ∈ find_similar_venues E d vec ids n ->
        vid ∈ ids
        /\ exists r, r ∈ venue_embeddings d /\ ve_venue_id r = vid
                     /\ dist = cosine_distance E (ve_embedding r) vec)
  /\ (forall r, r ∈ venue_embeddings d -> ve_venue_id r ∈ ids ->
        (ve_venue_id r, cosine_distance E (ve_embedding r) vec)
          ∈ find_similar_venues E d vec ids n
        \/ (length (find_similar_venues E d vec ids n) = n
            /\ forall x, x ∈ find_similar_venues E d vec ids n ->
                 (x.2 <= cosine_distance E (ve_embedding r) vec)%Q))
  /\ (ids = [] -> find_similar_venues E d vec ids n = []).
Proof.
  unfold find_similar_venues. destruct ids as [|i ids].
  { split; [simpl; lia|]. split; [constructor|]. split.
    - intros vid dist H. by apply elem_of_nil in H.
    - split; [|done]. intros r _ H. by apply elem_of_nil in H. }
  set (rows := map (fun r => (ve_venue_id r, cosine_distance E (ve_embedding r) vec))
                   (filter (fun r => ve_venue_id r ∈ i :: ids) (venue_embeddings d))).
  set (sorted := merge_sort by_distance rows).
  assert (Hsorted : StronglySorted by_distance sorted)
    by (apply StronglySorted_merge_sort; apply _).
  assert (Hrows : forall x, x ∈ sorted <->
            exists r, r ∈ venue_embeddings d /\ ve_venue_id r ∈ i :: ids
                      /\ x = (ve_venue_id r, cosine_distance E (ve_embedding r) vec)).
  { intros x. unfold sorted. rewrite merge_sort_Permutation. unfold rows.
    rewrite list_elem_of_In, in_map_iff. split.
    - intros (r & <- & Hr). apply list_elem_of_In, list_elem_of_filter in Hr as [H1 H2].
      by exists r.
    - intros (r & H1 & H2 & ->). exists r. split; [done|].
      apply list_elem_of_In, list_elem_of_filter. by split. }
  split; [rewrite length_take; lia|].
  split; [by apply StronglySorted_take|].
  split; [|split; [|discriminate]].
  - intros vid dist H. apply elem_of_take in H as (j & Hj & _).
    apply list_elem_of_lookup_2, Hrows in Hj as (r & H1 & H2 & [= -> ->]).
    split; [done|]. by exists r.
  - intros r Hr Hid.
    assert (Hin : (ve_venue_id r, cosine_distance E (ve_embedding r) vec) ∈ sorted)
      by (apply Hrows; by exists r).
    rewrite <- (take_drop n sorted) in Hin. apply elem_of_app in Hin as [Hin|Hin]; [by left|].
    right. split.
    + rewrite length_take. apply list_elem_of_lookup in Hin as [j Hj].
      apply lookup_lt_Some in Hj. rewrite length_drop in Hj. lia.
    + intros x Hx. rewrite <- (take_drop n sorted) in Hsorted.
      exact (StronglySorted_app_1_elem_of _ _ _ _ _ Hsorted Hx Hin).
Qed.

(** ** The distances of layer 2 *)

Lemma NoDup_map_inj {A B} (f : A -> B) (l : list A) x y :
  NoDup (map f l) -> x ∈ l -> y ∈ l -> f x = f y -> x = y.
Proof.
  induction l as [|a l IH]; simpl; intros Hnd Hx Hy Hf; [by apply elem_of_nil in Hx|].
  apply NoDup_cons in Hnd as [Hna Hnd].
  apply elem_of_cons in Hx as [->|Hx]; apply elem_of_cons in Hy as [->|Hy]; try done.
  - exfalso. apply Hna. rewrite Hf. apply list_elem_of_In, in_map. by apply list_elem_of_In.
  - exfalso. apply Hna. rewrite <- Hf. apply list_elem_of_In, in_map. by apply list_elem_of_In.
  - by apply IH.
Qed.

Lemma foldl_neutral_lookup_ne (ids : list Z) (m : gmap Z Q) vid :
  vid ∉ ids -> foldl (fun m vid => <[vid := 1 # 2]> m) m ids !! vid = m !! vid.
Proof.
  revert m. induction ids as [|i ids IH]; intros m Hnot; [done|].
  simpl. rewrite IH by (intros H; apply Hnot; by apply list_elem_of_further).
  apply lookup_insert_ne. intros ->. apply Hnot. apply list_elem_of_here.
Qed.

(** Under the uniqueness of the rows per venue, the search asked for as
    many rows as there are embedded candidates returns them all. *)
Lemma find_similar_all E d vec (X : gset Z) r :
  NoDup (map ve_venue_id (venue_embeddings d)) ->
  r ∈ venue_embeddings d -> ve_venue_id r ∈ X ->
  (ve_venue_id r, cosine_distance E (ve_embedding r) vec)
    ∈ find_similar_venues E d vec (elements X) (size X).
Proof.
  intros Hnd Hr HX. unfold find_similar_venues.
  destruct (elements X) as [|x xs] eqn:Hel.
  { apply elem_of_elements in HX. rewrite Hel in HX. by apply elem_of_nil in HX. }
  rewrite <- Hel. clear x xs Hel.
  set (kept := filter (fun r => ve_venue_id r ∈ elements X) (venue_embeddings d)).
  assert (Hlen : (length kept <= size X)%nat).
  { assert (Hnd' : NoDup (map ve_venue_id kept)).
    { eapply sublist_NoDup; [exact Hnd|]. apply sublist_map, sublist_filter. }
    rewrite <- (length_map ve_venue_id).
    rewrite <- (size_list_to_set (C := gset Z) (map ve_venue_id kept)) by done.
    apply subseteq_size. intros k Hk.
    apply elem_of_list_to_set, list_elem_of_In, in_map_iff in Hk as (r' & <- & Hr').
    apply list_elem_of_In, list_elem_of_filter in Hr' as [Hr' _].
    by apply elem_of_elements in Hr'. }
  rewrite take_ge by (rewrite merge_sort_Permutation, length_map; exact Hlen).
  rewrite merge_sort_Permutation. apply list_elem_of_In, in_map_iff. exists r.
  split; [done|]. apply list_elem_of_In, list_elem_of_filter.
  split; [by apply elem_of_elements|done].
Qed.

Lemma similarity_map_of_lookup E d ids vec vid r :
  NoDup (map ve_venue_id (venue_embeddings d)) ->
  vid ∈ ids -> r ∈ venue_embeddings d -> ve_venue_id r = vid ->
  similarity_map_of E d ids vec !! vid = Some (cosine_distance E (ve_embedding r) vec).
Proof.
  intros Hnd Hvid Hr Hid. unfold similarity_map_of.
  set (embedded_ids := list_to_set _ : gset Z).
  assert (Hemb : vid ∈ embedded_ids).
  { unfold embedded_ids. apply elem_of_list_to_set, list_elem_of_In, in_map_iff.
    exists r. split; [done|]. apply list_elem_of_In. unfold embedding_rows_in.
    apply list_elem_of_filter. split; [by rewrite Hid|done]. }
  destruct (decide (embedded_ids = ∅)) as [Hempty|_]; [rewrite Hempty in Hemb; set_solver|].
  set (base := foldl (fun (m : gmap Z Q) vid => <[vid := 1 # 2]> m) ∅
                     (filter (fun vid => vid ∉ embedded_ids) ids)).
  assert (Hbase : base !! vid = None).
  { unfold base. rewrite foldl_neutral_lookup_ne; [apply lookup_empty|].
    intros H. apply list_elem_of_filter in H as [H _]. by apply H. }
  set (found := find_similar_venues E d vec (elements embedded_ids) (size embedded_ids)).
  assert (Hfound : (vid, cosine_distance E (ve_embedding r) vec) ∈ found).
  { rewrite <- Hid. apply find_similar_all; [done|done|by rewrite Hid]. }
  destruct (foldl_insert_is_Some found base vid) as [q Hq].
  { left. apply list_elem_of_In, in_map_iff. exists (vid, cosine_distance E (ve_embedding r) vec).
    split; [done|by apply list_elem_of_In]. }
  rewrite Hq. f_equal.
  apply foldl_insert_lookup in Hq as [Hq|Hq]; [|congruence].
  unfold found, find_similar_venues in Hq.
  destruct (elements embedded_ids); [by apply elem_of_nil in Hq|].
  apply elem_of_take in Hq as (j & Hj & _). apply list_elem_of_lookup_2 in Hj.
  rewrite merge_sort_Permutation in Hj.
  apply list_elem_of_In, in_map_iff in Hj as (r' & [= Hid' <-] & Hr').
  apply list_elem_of_In, list_elem_of_filter in Hr' as [_ Hr'].
  assert (r' = r) as -> by (eapply NoDup_map_inj; [exact Hnd|done|done|congruence]).
  done.
Qed.

(** X24. Layer 2 gives every embedded candidate its own distance. When the
    table of venue embeddings holds at most one row per venue, the
    similarity map of a run of the stage maps each candidate that has a row
    to the cosine distance between that row and the intent vector returned
    for the intent text, so that the fallback score of the final scoring is
    reached by candidates without a row only. *)
Theorem similarity_stage_distances E req txt ids w sim w' :
  NoDup (map ve_venue_id (venue_embeddings (w_db w))) ->
  similarity_stage E req txt ids w = (Ok sim, w') ->
  forall vid r,
    vid ∈ ids -> r ∈ venue_embeddings (w_db w) -> ve_venue_id r = vid ->
    exists vec,
      (_get_intent_vector E txt w).1 = Ok vec
      /\ sim !! vid = Some (cosine_distance E (ve_embedding r) vec).
Proof.
  intros Hnd Hrun vid r Hvid Hr Hid.
  assert (Hrows : embedding_rows_in (w_db w) ids <> []).
  { intros Hnil.
    assert (Hin : r ∈ embedding_rows_in (w_db w) ids)
      by (unfold embedding_rows_in; apply list_elem_of_filter; split; [by rewrite Hid|done]).
    rewrite Hnil in Hin. by apply elem_of_nil in Hin. }
  rewrite similarity_stage_embedded in Hrun by done.
  pose proof (same_db_intent_vector E txt w) as Hdb. unfold same_db in Hdb.
  destruct (_get_intent_vector E txt w) as [[vec|e] w1]; [|discriminate].
  cbn [fst snd] in *. injection Hrun as <- _.
  exists vec. split; [done|]. rewrite Hdb. by apply similarity_map_of_lookup.
Qed.

Lemma similarity_stage_distances_witness :
  exists vec,
    (_get_intent_vector sample_env (intent_text_of sample_request) (world_of sample_db)).1
    = Ok vec
    /\ match (similarity_stage sample_env sample_request (intent_text_of sample_request)
                [1; 2] (world_of sample_db)).1 with
       | Ok sim => sim
       | Raise _ => ∅
       end !! 2
       = Some (cosine_distance sample_env [2 # 25] vec).
Proof.
  refine (similarity_stage_distances sample_env sample_request (intent_text_of sample_request)
           [1; 2] (world_of sample_db)
           match (similarity_stage sample_env sample_request (intent_text_of sample_request)
                    [1; 2] (world_of sample_db)).1 with
           | Ok sim => sim
           | Raise _ => ∅
           end
           (similarity_stage sample_env sample_request (intent_text_of sample_request)
              [1; 2] (world_of sample_db)).2 _ _
           2 {| ve_venue_id := 2; ve_embedding := [2 # 25]; ve_source_text := Some "Venue: B" |}
           _ _ _).
  - apply (bool_decide_unpack _). vm_compute. reflexivity.
  - vm_compute. reflexivity.
  - rewrite !elem_of_cons. tauto.
  - unfold world_of, sample_db. cbn [w_db venue_embeddings]. rewrite !elem_of_cons. tauto.
  - reflexivity.
Defined.

(** ** Writing venue embeddings *)

#[global] Instance only_venue_embeddings_refl : Reflexive only_venue_embeddings.
Proof. intros w. unfold only_venue_embeddings. tauto. Qed.

#[global] Instance only_venue_embeddings_trans : Transitive only_venue_embeddings.
Proof.
  intros w1 w2 w3. unfold only_venue_embeddings.
  intros (?&?&?&?&?&?&?&?&?) (?&?&?&?&?&?&?&?&?). repeat split; try congruence. tauto.
Qed.

Lemma scalar_one_or_none_Some {A} (rows : list A) r :
  scalar_one_or_none rows = Ok (Some r) -> rows = [r].
Proof. destruct rows as [|a [|b rows]]; simpl; congruence. Qed.

Lemma scalar_one_or_none_None {A} (rows : list A) :
  scalar_one_or_none rows = Ok None -> rows = [].
Proof. destruct rows as [|a [|b rows]]; simpl; congruence. Qed.

Lemma updated_or_added_ids d row new_row :
  scalar_one_or_none (filter (fun r => ve_venue_id r = ve_venue_id new_row) (venue_embeddings d))
  = Ok row ->
  NoDup (map ve_venue_id (venue_embeddings d)) ->
  NoDup (map ve_venue_id (updated_or_added d row new_row)).
Proof.
  intros Hrow Hnd. unfold updated_or_added. destruct row as [r0|].
  - rewrite map_map.
    replace (map _ (venue_embeddings d)) with (map ve_venue_id (venue_embeddings d)); [done|].
    apply map_ext. intros r. by destruct (decide (ve_venue_id r = ve_venue_id new_row)).
  - apply scalar_one_or_none_None in Hrow.
    rewrite map_app. simpl. apply NoDup_app. split; [done|]. split; [|apply NoDup_singleton].
    intros vid Hin Hnew. apply list_elem_of_singleton in Hnew as ->.
    apply list_elem_of_In, in_map_iff in Hin as (r & Hid & Hr).
    assert (Hin : r ∈ filter (fun r => ve_venue_id r = ve_venue_id new_row) (venue_embeddings d))
      by (apply list_elem_of_filter; split; [done|by apply list_elem_of_In]).
    rewrite Hrow in Hin. by apply elem_of_nil in Hin.
Qed.

Lemma commit_embedding_only ok d row new_row w :
  d = w_db w ->
  scalar_one_or_none (filter (fun r => ve_venue_id r = ve_venue_id new_row) (venue_embeddings d))
  = Ok row ->
  only_venue_embeddings w (commit_embedding ok d row new_row w).2.
Proof.
  intros -> Hrow. unfold commit_embedding. destruct (ok new_row); [|reflexivity].
  unfold only_venue_embeddings. simpl. repeat split; try done.
  by apply updated_or_added_ids.
Qed.

Lemma only_venue_embeddings_logger lvl msg : preserves only_venue_embeddings (logger lvl msg).
Proof. intros w. unfold only_venue_embeddings. simpl. tauto. Qed.





(** X26. Round trip of the upsert of a venue embedding. After a successful
    [upsert_venue_embedding] the table holds the returned row for the
    venue and no other row for it; the row carries the vector that the
    provider answered for the source text of the venue, and that text; the
    rows of the other venues are as before, and so is every other table. *)
Theorem upsert_venue_embedding_round_trip ok E venue w row w' :
  upsert_venue_embedding ok E venue w = (Ok row, w') ->
  ve_venue_id row = v_id venue
  /\ embed E (build_venue_source_text venue) TASK_DOCUMENT = Ok (ve_embedding row)
  /\ ve_source_text row = Some (build_venue_source_text venue)
  /\ row ∈ venue_embeddings (w_db w')
  /\ (forall r, r ∈ venue_embeddings (w_db w') -> ve_venue_id r = v_id venue -> r = row)
  /\ (forall r, ve_venue_id r <> v_id venue ->
        (r ∈ venue_embeddings (w_db w') <-> r ∈ venue_embeddings (w_db w)))
  /\ only_venue_embeddings w w'.
Proof.
  unfold upsert_venue_embedding. cbv zeta. intros H.
  apply bind_Ok in H as (vector & w1 & Hembed & H).
  unfold lift in Hembed. injection Hembed as Hembed <-.
  apply bind_Ok in H as (d & w1 & Hd & H). injection Hd as <- <-.
  apply bind_Ok in H as (found & w1 & Hfound & H).
  unfold lift in Hfound. injection Hfound as Hfound <-.
  set (new_row := {| ve_venue_id := v_id venue; ve_embedding := vector;
                     ve_source_text := Some (build_venue_source_text venue) |}) in *.
  apply bind_Ok in H as ([] & w1 & Hlog & H).
  assert (Hw1 : w_db w1 = w_db w /\ only_venue_embeddings w w1).
  { destruct found; injection Hlog as <-; (split; [reflexivity|]);
      apply only_venue_embeddings_logger. }
  destruct Hw1 as [Hdb1 Hw1].
  apply bind_Ok in H as ([] & w2 & Hcommit & H). injection H as <- <-.
  unfold commit_embedding in Hcommit. destruct (ok new_row) eqn:Hok; [|discriminate].
  injection Hcommit as <-. cbn [w_db put_db snd with_venue_embeddings venue_embeddings].
  split; [reflexivity|]. split; [exact Hembed|]. split; [reflexivity|].
  assert (Hrows : forall r, r ∈ updated_or_added (w_db w) found new_row <->
            r = new_row
            \/ (ve_venue_id r <> v_id venue /\ r ∈ venue_embeddings (w_db w))).
  { intros r. unfold updated_or_added. destruct found as [r0|].
    - apply scalar_one_or_none_Some in Hfound.
      assert (Hr0 : r0 ∈ venue_embeddings (w_db w) /\ ve_venue_id r0 = v_id venue).
      { assert (Hin : r0 ∈ filter (fun r => ve_venue_id r = v_id venue)
                            (venue_embeddings (w_db w)))
          by (rewrite Hfound; apply list_elem_of_here).
        apply list_elem_of_filter in Hin. tauto. }
      rewrite list_elem_of_In, in_map_iff. split.
      + intros (r1 & Hr1 & Hin). apply list_elem_of_In in Hin.
        destruct (decide (ve_venue_id r1 = ve_venue_id new_row)) as [Heq|Hne];
          [by left|]. right. subst r1. by split.
      + intros [-> | [Hne Hin]].
        * exists r0. split; [|apply list_elem_of_In; tauto].
          destruct (decide (ve_venue_id r0 = ve_venue_id new_row)) as [_|Hne]; [done|].
          destruct Hr0 as [_ Hr0]. by destruct Hne.
        * exists r. split; [|by apply list_elem_of_In].
          destruct (decide (ve_venue_id r = ve_venue_id new_row)) as [Heq|_]; [|done].
          by destruct Hne.
    - apply scalar_one_or_none_None in Hfound. rewrite elem_of_app, list_elem_of_singleton.
      split.
      + intros [Hin | ->]; [|by left]. right. split; [|done]. intros Hid.
        assert (Hin' : r ∈ filter (fun r => ve_venue_id r = v_id venue)
                             (venue_embeddings (w_db w)))
          by (by apply list_elem_of_filter).
        rewrite Hfound in Hin'. by apply elem_of_nil in Hin'.
      + intros [-> | [_ Hin]]; [by right|by left]. }
  split; [apply Hrows; by left|]. split; [|split].
  - intros r Hr Hid. apply Hrows in Hr as [-> | [Hne _]]; [done|by destruct Hne].
  - intros r Hne. rewrite Hrows. split; [|tauto].
    intros [-> | [_ Hin]]; [by destruct Hne|done].
  - etransitivity; [exact Hw1|].
    pose proof (commit_embedding_only ok (w_db w1) found new_row w1 eq_refl) as Hc.
    unfold commit_embedding in Hc. rewrite Hok in Hc. rewrite Hdb1 in Hc at 2.
    cbn [snd put_db] in Hc. rewrite Hdb1 in Hc. apply Hc. exact Hfound.
Qed.

Lemma upsert_venue_embedding_round_trip_witness :
  ve_venue_id
    match (upsert_venue_embedding (fun _ => true) sample_env
             (sample_venue 1 "A" None None) (world_of sample_db)).1 with
    | Ok row => row
    | Raise _ => {| ve_venue_id := 0; ve_embedding := []; ve_source_text := None |}
    end = 1.
Proof.
  apply (upsert_venue_embedding_round_trip (fun _ => true) sample_env
           (sample_venue 1 "A" None None) (world_of sample_db)
           match (upsert_venue_embedding (fun _ => true) sample_env
                    (sample_venue 1 "A" None None) (world_of sample_db)).1 with
           | Ok row => row
           | Raise _ => {| ve_venue_id := 0; ve_embedding := []; ve_source_text := None |}
           end
           (upsert_venue_embedding (fun _ => true) sample_env
              (sample_venue 1 "A" None None) (world_of sample_db)).2).
  vm_compute. reflexivity.
Defined.

(** ** The available venues *)

Lemma available_travel_loop_Ok travel max vs w out w' :
  available_travel_loop travel max vs w = (Ok out, w') ->
  forall x, x ∈ out ->
    exists v t, v ∈ vs /\ x = _venue_dict v (Some t) /\ (t <= inject_Z max)%Q
                /\ exists w1 w2, travel v w1 = (Ok (Some t), w2).
Proof.
  revert w out w'. induction vs as [|v vs IH]; intros w out w' H x Hx.
  - injection H as <- _. by apply elem_of_nil in Hx.
  - cbn [available_travel_loop] in H. apply bind_Ok in H as (tm & w1 & Htravel & H).
    assert (Hrest : forall out0 w0 w0',
              available_travel_loop travel max vs w0 = (Ok out0, w0') -> x ∈ out0 ->
              exists v0 t, v0 ∈ v :: vs /\ x = _venue_dict v0 (Some t)
                           /\ (t <= inject_Z max)%Q
                           /\ exists w1 w2, travel v0 w1 = (Ok (Some t), w2)).
    { intros out0 w0 w0' H0 Hx0. destruct (IH _ _ _ H0 x Hx0) as (v0 & t & Hv0 & Hrest).
      exists v0, t. split; [by apply list_elem_of_further|done]. }
    destruct tm as [t|].
    + destruct (Qltb (inject_Z max) t) eqn:Hlt; [by eapply Hrest|].
      apply bind_Ok in H as (out0 & w2 & Hloop & H). injection H as <- _.
      apply elem_of_cons in Hx as [->|Hx]; [|by eapply Hrest].
      exists v, t. split; [apply list_elem_of_here|]. split; [done|].
      split; [|by exists w, w1]. apply Qltb_false in Hlt. exact Hlt.
    + apply bind_Ok in H as ([] & w2 & _ & H). by eapply Hrest.
Qed.

(** X27. The answer that the endpoint of the available venues computes. On
    a miss of its cache the response counts its venues and is stored under
    the key of the request, also when it is empty. Each venue of the
    response is open at the requested time, under no blackout, and
    date-appropriate. With both coordinates of the origin it carries a
    travel time of at most [max_travel_min] and, on a miss of the haversine
    cache, lies within the radius of the pre-filter, whereas on a hit only
    the venues whose id is in the cached list are considered; without a
    full origin it carries no travel time. *)
Theorem get_available_venues_sound E available_get haversine_get travel date time city
    olat olng mode max w resp writes w' :
  available_get (available_key_of E date time city olat olng mode max) = None ->
  get_available_venues E available_get haversine_get travel date time city olat olng mode max w
  = (Ok (resp, writes), w') ->
  a_count resp = Z.of_nat (length (a_venues resp))
  /\ (exists earlier,
        writes = earlier ++ [AvailableSet (available_key_of E date time city olat olng mode max)
                                          resp])
  /\ forall x, x ∈ a_venues resp ->
       exists v,
         x = _venue_dict v (d_travel_minutes x)
         /\ v ∈ available_venues E (w_db w) city date time
         /\ _is_date_appropriate v = true
         /\ match olat, olng with
            | Some lat, Some lng =>
                (exists t, d_travel_minutes x = Some t /\ (t <= inject_Z max)%Q)
                /\ match haversine_get (haversine_key_of E olat olng mode max) with
                   | Some cached_ids => v_id v ∈ cached_ids
                   | None => within_radius E lat lng (_max_radius_km mode max) v = true
                   end
            | _, _ => d_travel_minutes x = None
            end.
Proof.
  intros Hmiss H. unfold get_available_venues in H. cbv zeta in H.
  fold (available_key_of E date time city olat olng mode max) in H. rewrite Hmiss in H.
  apply bind_Ok in H as (d & w1 & Hd & H). injection Hd as <- <-.
  apply bind_Ok in H as ([] & w1 & Hlog1 & H). injection Hlog1 as <-.
  apply bind_Ok in H as (d & w2 & Hd & H). injection Hd as <- <-.
  cbn [w_db] in H.
  fold (available_venues E (w_db w) city date time) in H.
  set (venues := filter (fun v => _is_date_appropriate v = true)
                        (available_venues E (w_db w) city date time)) in H.
  assert (Hvenues : forall v, v ∈ venues ->
            v ∈ available_venues E (w_db w) city date time /\ _is_date_appropriate v = true).
  { intros v Hv. apply list_elem_of_filter in Hv. tauto. }
  apply bind_Ok in H as ([] & w3 & _ & H).
  apply bind_Ok in H as ([output ws] & w4 & Hresult & H).
  apply bind_Ok in H as ([] & w5 & _ & H). injection H as <- <- _.
  cbn [fst snd a_count a_venues]. split; [done|]. split; [by exists ws|].
  intros x Hx. destruct olat as [lat|], olng as [lng|].
  - fold (haversine_key_of E (Some lat) (Some lng) mode max) in Hresult.
    apply bind_Ok in Hresult as ([kept_vs kept_ws] & w6 & Hkept & Hresult).
    apply bind_Ok in Hresult as (out & w7 & Hloop & Hresult). injection Hresult as <- _ _.
    cbn [fst] in Hloop.
    destruct (available_travel_loop_Ok _ _ _ _ _ _ Hloop x Hx)
      as (v & t & Hv & -> & Ht & _).
    exists v. cbn [d_travel_minutes _venue_dict]. split; [done|].
    destruct (haversine_get (haversine_key_of E (Some lat) (Some lng) mode max))
      as [cached_ids|].
    + apply bind_Ok in Hkept as ([] & w8 & _ & Hkept). injection Hkept as <- _ _.
      apply list_elem_of_filter in Hv as [Hid Hv]. destruct (Hvenues v Hv) as [Ha Hd].
      split; [done|]. split; [done|]. split; [by exists t|done].
    + apply bind_Ok in Hkept as ([] & w8 & _ & Hkept). injection Hkept as <- _ _.
      unfold prefilter_by_distance in Hv.
      apply list_elem_of_filter in Hv as [Hrad Hv]. destruct (Hvenues v Hv) as [Ha Hd].
      split; [done|]. split; [done|]. split; [by exists t|done].
  - injection Hresult as <- _ _.
    apply list_elem_of_fmap in Hx as (v & -> & Hv). destruct (Hvenues v Hv) as [Ha Hd].
    by exists v.
  - injection Hresult as <- _ _.
    apply list_elem_of_fmap in Hx as (v & -> & Hv). destruct (Hvenues v Hv) as [Ha Hd].
    by exists v.
  - injection Hresult as <- _ _.
    apply list_elem_of_fmap in Hx as (v & -> & Hv). destruct (Hvenues v Hv) as [Ha Hd].
    by exists v.
Qed.

Lemma get_available_venues_sound_witness :
  a_count
    match (get_available_venues sample_env (fun _ => None) (fun _ => None)
             (sample_travel (514545 # 10000) (-25879 # 10000) "drive")
             (mk_date 2026 2 25) (mk_time 19 0 0 0) "Bristol"
             (Some (514545 # 10000)%Q) (Some (-25879 # 10000)%Q) "drive" 45
             (world_of sample_db)).1 with
    | Ok (resp, _) => resp
    | Raise _ => {| a_count := 0; a_venues := [] |}
    end = 2.
Proof.
  assert (H := get_available_venues_sound sample_env (fun _ => None) (fun _ => None)
             (sample_travel (514545 # 10000) (-25879 # 10000) "drive")
             (mk_date 2026 2 25) (mk_time 19 0 0 0) "Bristol"
             (Some (514545 # 10000)%Q) (Some (-25879 # 10000)%Q) "drive" 45
             (world_of sample_db)
             match (get_available_venues sample_env (fun _ => None) (fun _ => None)
                      (sample_travel (514545 # 10000) (-25879 # 10000) "drive")
                      (mk_date 2026 2 25) (mk_time 19 0 0 0) "Bristol"
                      (Some (514545 # 10000)%Q) (Some (-25879 # 10000)%Q) "drive" 45
                      (world_of sample_db)).1 with
             | Ok (resp, _) => resp
             | Raise _ => {| a_count := 0; a_venues := [] |}
             end
             match (get_available_venues sample_env (fun _ => None) (fun _ => None)
                      (sample_travel (514545 # 10000) (-25879 # 10000) "drive")
                      (mk_date 2026 2 25) (mk_time 19 0 0 0) "Bristol"
                      (Some (514545 # 10000)%Q) (Some (-25879 # 10000)%Q) "drive" 45
                      (world_of sample_db)).1 with
             | Ok (_, writes) => writes
             | Raise _ => []
             end
             (get_available_venues sample_env (fun _ => None) (fun _ => None)
                (sample_travel (514545 # 10000) (-25879 # 10000) "drive")
                (mk_date 2026 2 25) (mk_time 19 0 0 0) "Bristol"
                (Some (514545 # 10000)%Q) (Some (-25879 # 10000)%Q) "drive" 45
                (world_of sample_db)).2
             eq_refl).
  destruct H as [H1 _].
  - vm_compute. reflexivity.
  - rewrite H1. vm_compute. reflexivity.
Defined.

(** X28. An origin with a zero coordinate shares the cache entries of the
    requests without origin. The endpoint of the available venues reads a
    latitude or longitude of 0.0 as no origin when it builds its keys: the
    key of the request and the key of the haversine cache are those of the
    same request without origin, and a response stored for the request
    without origin is served as it is, although on a miss such a request
    goes through the travel filters and one without origin does not. *)
Theorem available_zero_origin_shares_cache E available_get haversine_get travel date time city
    olat olng mode max w cached :
  truthy olat && truthy olng = false ->
  available_get (available_key_of E date time city None None mode max) = Some cached ->
  available_key_of E date time city olat olng mode max
  = available_key_of E date time city None None mode max
  /\ haversine_key_of E olat olng mode max = "none" +:+ "|" +:+ mode +:+ "|" +:+ str_int max
  /\ get_available_venues E available_get haversine_get travel date time city olat olng mode
       max w
     = (Ok (cached, []), (logger INFO "available_venues Redis HIT key=%s" w).2).
Proof.
  intros Hfalsy Hcached.
  assert (Hkey : available_key_of E date time city olat olng mode max
                 = available_key_of E date time city None None mode max).
  { unfold available_key_of. destruct olat, olng; try reflexivity. by rewrite Hfalsy. }
  split; [exact Hkey|]. split.
  - unfold haversine_key_of. destruct olat, olng; try reflexivity. by rewrite Hfalsy.
  - unfold get_available_venues. cbv zeta.
    fold (available_key_of E date time city olat olng mode max).
    rewrite Hkey, Hcached. reflexivity.
Qed.

Lemma available_zero_origin_shares_cache_witness :
  get_available_venues sample_env (fun _ => Some {| a_count := 0; a_venues := [] |})
    (fun _ => None) (sample_travel 0 (-25879 # 10000) "drive")
    (mk_date 2026 2 25) (mk_time 19 0 0 0) "Bristol"
    (Some 0%Q) (Some (-25879 # 10000)%Q) "drive" 45 (world_of sample_db)
  = (Ok ({| a_count := 0; a_venues := [] |}, []),
     (logger INFO "available_venues Redis HIT key=%s" (world_of sample_db)).2).
Proof.
  apply (available_zero_origin_shares_cache sample_env
           (fun _ => Some {| a_count := 0; a_venues := [] |})
           (fun _ => None) (sample_travel 0 (-25879 # 10000) "drive")
           (mk_date 2026 2 25) (mk_time 19 0 0 0) "Bristol"
           (Some 0%Q) (Some (-25879 # 10000)%Q) "drive" 45 (world_of sample_db)
           {| a_count := 0; a_venues := [] |}).
  - reflexivity.
  - reflexivity.
Defined.
